(** * Mapchap: the INN verification endpoint

    A shallow embedding of the Express handler [POST /api/fns/verify-inn]
    of the Mapchap server (the file that requires [express], [node-fetch]
    and [lru-cache]), together with the properties of the verification
    cache/proxy stated in the specification.

    Layout:
    - [Js]      JavaScript values as the handler sees them (parsed JSON),
                with the coercions the handler relies on;
    - [Lru]     the [lru-cache] store used through [has], [get] and [set];
    - [Server]  the handler itself, one request at a time;
    - [Client]  the page script that calls the handler ([verifyInn] and the
                listeners of the verification form);
    - [Users]   the module [UserSystem] of the page script: the current
                user, the favourites, [localStorage];
    - [Startup] the listener that starts the page;
    - the theorems, one block per property. *)

From Stdlib Require Import String Ascii List ZArith Bool Lia DecimalString.
Import ListNotations.

Open Scope string_scope.
Open Scope Z_scope.

(* ================================================================== *)
(** ** JavaScript values *)
(* ================================================================== *)

Module Js.

(** Values produced by [JSON.parse] (request body, provider reply), plus
    [undefined], which property reads produce.  Strings are byte strings
    (UTF-8).  A JSON number is carried as an integer: the handler looks at
    a number only through its truthiness, through [> 0] and through its
    decimal rendering, and a rendering made of digits only belongs to an
    integer-valued number. *)
#[warnings="-register-all"]
Inductive jsval : Type :=
| JUndefined
| JNull
| JBool (b : bool)
| JNum (z : Z)
| JStr (s : string)
| JArr (items : list jsval)
| JObj (fields : list (string * jsval)).

(** Exceptions that can reach the handler's [catch]. *)
Inductive js_error : Type :=
| TypeError (message : string)
| SyntaxError (message : string)
| FetchError (message : string).

Definition error_message (e : js_error) : string :=
  match e with
  | TypeError m | SyntaxError m | FetchError m => m
  end.

(** Computations that may throw. *)
Inductive exec (A : Type) : Type :=
| Ok (a : A)
| Throw (e : js_error).
Arguments Ok {A} a.
Arguments Throw {A} e.

Definition bind {A B} (c : exec A) (k : A -> exec B) : exec B :=
  match c with
  | Ok a => k a
  | Throw e => Throw e
  end.

Notation "x <- c ;; k" := (bind c (fun x => k))
  (at level 61, c at next level, right associativity).

(** [!!v] *)
Definition truthy (v : jsval) : bool :=
  match v with
  | JUndefined | JNull => false
  | JBool b => b
  | JNum z => negb (z =? 0)
  | JStr s => negb (String.eqb s "")
  | JArr _ | JObj _ => true
  end.

Definition Z_to_string (z : Z) : string :=
  NilZero.string_of_int (Z.to_int z).

(** [String(v)].  An array renders as its elements joined by commas, with
    [null] and [undefined] elements rendered empty; a plain object renders
    as ["[object Object]"]. *)
Fixpoint to_string (v : jsval) : string :=
  match v with
  | JUndefined => "undefined"
  | JNull => "null"
  | JBool true => "true"
  | JBool false => "false"
  | JNum z => Z_to_string z
  | JStr s => s
  | JArr items =>
      (fix join (l : list jsval) : string :=
         match l with
         | [] => ""
         | x :: rest =>
             let elem := match x with
                         | JUndefined | JNull => ""
                         | _ => to_string x
                         end in
             match rest with
             | [] => elem
             | _ :: _ => elem ++ "," ++ join rest
             end
         end) items
  | JObj _ => "[object Object]"
  end.

(** Own-property read on a parsed object: with duplicate keys
    [JSON.parse] keeps the last one. *)
Fixpoint obj_lookup (name : string) (fields : list (string * jsval)) : jsval :=
  match fields with
  | [] => JUndefined
  | (k, v) :: rest =>
      match obj_lookup name rest with
      | JUndefined => if String.eqb k name then v else JUndefined
      | found => found
      end
  end.

Definition has_field (name : string) (fields : list (string * jsval)) : bool :=
  existsb (fun kv => String.eqb (fst kv) name) fields.

(** [obj.name = v] on an object literal: overwrite in place, or append. *)
Fixpoint obj_set (name : string) (v : jsval) (fields : list (string * jsval))
  : list (string * jsval) :=
  match fields with
  | [] => [(name, v)]
  | (k, old) :: rest =>
      if String.eqb k name then (k, v) :: rest
      else (k, old) :: obj_set name v rest
  end.

Definition cannot_read (v : jsval) (name : string) : js_error :=
  TypeError ("Cannot read properties of " ++ to_string v
             ++ " (reading '" ++ name ++ "')").

(** [v.name] for an identifier [name].  None of the names the handler reads
    lives on a built-in prototype, except [length] (arrays and strings). *)
Definition get_prop (v : jsval) (name : string) : exec jsval :=
  match v with
  | JUndefined | JNull => Throw (cannot_read v name)
  | JObj fields => Ok (obj_lookup name fields)
  | JArr items =>
      if String.eqb name "length" then Ok (JNum (Z.of_nat (List.length items)))
      else Ok JUndefined
  | JStr s =>
      if String.eqb name "length" then Ok (JNum (Z.of_nat (String.length s)))
      else Ok JUndefined
  | JBool _ | JNum _ => Ok JUndefined
  end.

(** [v[i]] for a literal index. *)
Definition get_index (v : jsval) (i : nat) : exec jsval :=
  match v with
  | JUndefined | JNull => Throw (cannot_read v (Z_to_string (Z.of_nat i)))
  | JObj fields => Ok (obj_lookup (Z_to_string (Z.of_nat i)) fields)
  | JArr items => Ok (nth i items JUndefined)
  | JStr s =>
      match String.get i s with
      | Some c => Ok (JStr (String c EmptyString))
      | None => Ok JUndefined
      end
  | JBool _ | JNum _ => Ok JUndefined
  end.

(** [v.a.b...] *)
Fixpoint get_path (v : jsval) (names : list string) : exec jsval :=
  match names with
  | [] => Ok v
  | n :: rest => x <- get_prop v n ;; get_path x rest
  end.

(** [a || b] and [a && b], the right operand evaluated on demand. *)
Definition or_else (a b : exec jsval) : exec jsval :=
  x <- a ;; if truthy x then Ok x else b.

Definition and_then (a b : exec jsval) : exec jsval :=
  x <- a ;; if truthy x then b else Ok x.

Definition lower_ascii (c : ascii) : ascii :=
  let n := nat_of_ascii c in
  if ((65 <=? n) && (n <=? 90))%nat then ascii_of_nat (n + 32) else c.

Fixpoint lower_string (s : string) : string :=
  match s with
  | EmptyString => EmptyString
  | String c rest => String (lower_ascii c) (lower_string rest)
  end.

(** [v.toLowerCase()]: only strings have the method (ASCII letters are
    folded, the provider's status tokens being ASCII). *)
Definition to_lower_case (v : jsval) : exec jsval :=
  match v with
  | JStr s => Ok (JStr (lower_string s))
  | JUndefined | JNull => Throw (cannot_read v "toLowerCase")
  | _ => Throw (TypeError "toLowerCase is not a function")
  end.

(** [v !== "lit"] *)
Definition strict_neq_str (v : jsval) (lit : string) : bool :=
  match v with
  | JStr s => negb (String.eqb s lit)
  | _ => true
  end.

Section Relational.

(** [ToNumber(s) > 0] for a string [s] is the engine's floating-point
    parse; it is kept as a parameter. *)
Variable str_to_num_gt0 : string -> bool.

(** [v > 0]: [undefined] is [NaN], [null] is [0], an array goes through
    its string rendering, a plain object is [NaN]. *)
Definition js_gt0 (v : jsval) : bool :=
  match v with
  | JUndefined | JNull => false
  | JBool b => b
  | JNum z => 0 <? z
  | JStr s => str_to_num_gt0 s
  | JArr _ => str_to_num_gt0 (to_string v)
  | JObj _ => false
  end.

End Relational.

(** *** The INN pattern [/^\d{10}$|^\d{12}$/] *)

Definition is_digit (c : ascii) : bool :=
  let n := nat_of_ascii c in ((48 <=? n) && (n <=? 57))%nat.

(** [^\d{n}$] *)
Fixpoint match_digits (n : nat) (s : string) : bool :=
  match n, s with
  | O, EmptyString => true
  | S n', String c rest => is_digit c && match_digits n' rest
  | _, _ => false
  end.

(** [/^\d{10}$|^\d{12}$/.test(v)]: [test] converts its argument with
    [String(v)]. *)
Definition inn_regex_test (v : jsval) : bool :=
  let s := to_string v in
  match_digits 10 s || match_digits 12 s.

(** *** Trimming, as the specification words the validator

    [raw.trim()] on the ASCII white space characters: the specification
    states the input constraint "after trimming whitespace". *)
Definition is_space (c : ascii) : bool :=
  let n := nat_of_ascii c in
  ((n =? 32) || ((9 <=? n) && (n <=? 13)))%nat.

Fixpoint trim_left (s : string) : string :=
  match s with
  | EmptyString => EmptyString
  | String c rest => if is_space c then trim_left rest else s
  end.

Fixpoint trim_right (s : string) : string :=
  match s with
  | EmptyString => EmptyString
  | String c rest =>
      match trim_right rest with
      | EmptyString => if is_space c then EmptyString else String c EmptyString
      | kept => String c kept
      end
  end.

Definition js_trim (s : string) : string := trim_right (trim_left s).

(** The validator in the specification's words: the trimmed input matches
    [^\d{10}$] or [^\d{12}$]. *)
Definition spec_validate (raw : string) : bool :=
  let s := js_trim raw in match_digits 10 s || match_digits 12 s.

(** "First non-empty wins", in the specification's words: the first value
    of the list that is not empty (not falsy), if there is one. *)
Definition first_nonempty (candidates : list jsval) : option jsval :=
  find truthy candidates.

(** [v == null] *)
Definition nullish (v : jsval) : bool :=
  match v with
  | JUndefined | JNull => true
  | _ => false
  end.

(** A member read for stating properties: [undefined] where the read
    would throw. *)
Definition member (v : jsval) (name : string) : jsval :=
  match get_prop v name with
  | Ok x => x
  | Throw _ => JUndefined
  end.

End Js.

(* ================================================================== *)
(** ** The cache *)
(* ================================================================== *)

Module Lru.
Import Js.

(** The handler keeps its results in an [LRUCache] of the [lru-cache]
    package.  The package is a dependency, its code is not in the
    repository: the store is modelled from the specification's
    [VerificationCache] contract. *)

(** Modelled from the spec: the entry type of [lru-cache], which is not in
    the repository; a [CacheEntry] is [(key, value, insertedAt)]. *)
Record entry : Type := mkEntry {
  e_key : jsval;
  e_value : jsval;
  e_inserted : Z
}.

(** Modelled from the spec: the [LRUCache] object of [lru-cache], which is
    not in the repository; the [VerificationCache] has its capacity and
    TTL fixed at construction.  Entries are kept in recency order, the
    most recently accessed first, so the least recently accessed one is
    last. *)
Record lru : Type := mkLru {
  lru_max : nat;
  lru_ttl : Z;
  lru_entries : list entry
}.

Definition create (max : nat) (ttl : Z) : lru :=
  {| lru_max := max; lru_ttl := ttl; lru_entries := [] |}.

Definition with_entries (c : lru) (l : list entry) : lru :=
  {| lru_max := lru_max c; lru_ttl := lru_ttl c; lru_entries := l |}.

Definition size (c : lru) : nat := List.length (lru_entries c).

(** Modelled from the spec: the key comparison of [lru-cache], which is
    not in the repository; the identifier is "used verbatim as the cache
    key".  Between a key taken from a freshly parsed request and a stored
    key, primitives compare by value; an array or object of a new request
    is a new reference and equals no stored key. *)
Definition key_eq (a b : jsval) : bool :=
  match a, b with
  | JUndefined, JUndefined => true
  | JNull, JNull => true
  | JBool x, JBool y => Bool.eqb x y
  | JNum x, JNum y => x =? y
  | JStr x, JStr y => String.eqb x y
  | _, _ => false
  end.

Fixpoint find_entry (k : jsval) (l : list entry) : option entry :=
  match l with
  | [] => None
  | e :: rest => if key_eq k (e_key e) then Some e else find_entry k rest
  end.

Definition remove_key (k : jsval) (l : list entry) : list entry :=
  filter (fun e => negb (key_eq k (e_key e))) l.

(** How many entries have been accessed more recently than the one of
    [k]: its rank in the recency order. *)
Fixpoint position (k : jsval) (l : list entry) : option nat :=
  match l with
  | [] => None
  | e :: rest =>
      if key_eq k (e_key e) then Some O else option_map S (position k rest)
  end.

(** Modelled from the spec: the staleness test of [lru-cache], which is
    not in the repository; an entry is absent once
    [now - insertedAt >= TTL]. *)
Definition fresh (c : lru) (now : Z) (e : entry) : bool :=
  now - e_inserted e <? lru_ttl c.

(** Modelled from the spec: [LRUCache.has] of [lru-cache], which is not in
    the repository; it is the presence test of [get] (absent if never
    inserted or expired) and does not touch the recency order. *)
Definition has (now : Z) (k : jsval) (c : lru) : bool :=
  match find_entry k (lru_entries c) with
  | Some e => fresh c now e
  | None => false
  end.

(** Modelled from the spec: [LRUCache.get] of [lru-cache], which is not in
    the repository; [get(key)] returns the value, or absent ([undefined])
    if never inserted or expired; a hit makes the entry the most recently
    accessed; an expired entry found is evicted. *)
Definition get (now : Z) (k : jsval) (c : lru) : jsval * lru :=
  match find_entry k (lru_entries c) with
  | Some e =>
      if fresh c now e
      then (e_value e, with_entries c (e :: remove_key k (lru_entries c)))
      else (JUndefined, with_entries c (remove_key k (lru_entries c)))
  | None => (JUndefined, c)
  end.

(** Modelled from the spec: [LRUCache.set] of [lru-cache], which is not in
    the repository; [put(key, value)] inserts or overwrites, stamping
    [insertedAt = now]; if the size would exceed the capacity the least
    recently accessed entry is evicted before inserting. *)
Definition set (now : Z) (k v : jsval) (c : lru) : lru :=
  let others := remove_key k (lru_entries c) in
  let kept := if (lru_max c <=? List.length others)%nat
              then removelast others else others in
  with_entries c (mkEntry k v now :: kept).

End Lru.

(* ================================================================== *)
(** ** The server *)
(* ================================================================== *)

Module Server.
Import Js Lru.

(** [new LRUCache({ max: 100, ttl: 1000 * 60 * 60 })] *)
Definition CACHE_MAX : nat := 100.
Definition CACHE_TTL : Z := 1000 * 60 * 60.
Definition new_cache : lru := Lru.create CACHE_MAX CACHE_TTL.

(** What [await fetch(...)] yields for one request: a rejection (network
    failure), or a reply with its status, its body as text
    ([response.text()]) and the outcome of [response.json()] (the parsed
    body, or the parse error). *)
Inductive fetch_outcome : Type :=
| Rejected (e : js_error)
| Replied (status : Z) (text : string) (json : exec jsval).

(** [response.ok] *)
Definition response_ok (status : Z) : bool :=
  (200 <=? status) && (status <=? 299).

Record http_response : Type := mkResponse {
  code : Z;
  payload : jsval
}.

(** The process-wide state: the cache, and the queries sent upstream so
    far, latest first. *)
Record server : Type := mkServer {
  cache : lru;
  upstream_queries : list jsval
}.

Definition init_server : server :=
  {| cache := new_cache; upstream_queries := [] |}.

Definition MSG_MISSING : string := "ИНН не предоставлен.".
Definition MSG_FORMAT : string := "Некорректный формат ИНН.".
Definition MSG_UPSTREAM : string :=
  "Ошибка при проверке ИНН через ФНС. Попробуйте позже.".
Definition MSG_FOUND : string := "Организация найдена.".
Definition MSG_INACTIVE : string :=
  "Организация найдена, но не является действующей.".
Definition MSG_NOT_FOUND : string := "Организация с таким ИНН не найдена.".
Definition MSG_INTERNAL : string := "Внутренняя ошибка сервера.".

Definition message_only (m : string) : jsval :=
  JObj [("message", JStr m)].

Definition message_details (m d : string) : jsval :=
  JObj [("message", JStr m); ("details", JStr d)].

(** The guards on [inn] ahead of any cache or network work: the 400
    message, or [None] when the value passes. *)
Definition validate_inn (inn : jsval) : option string :=
  if negb (truthy inn) then Some MSG_MISSING
  else if negb (inn_regex_test inn) then Some MSG_FORMAT
  else None.

(** The [result] object built from [data.suggestions[0].data], including
    the downgrade to [warning] of an organisation that is not active. *)
Definition company_result (companyData : jsval)
  : exec (list (string * jsval)) :=
  name <- or_else (or_else (or_else
            (get_path companyData ["name"; "full_with_opf"])
            (get_path companyData ["name"; "short_with_opf"]))
            (get_path companyData ["name"; "full"]))
            (get_path companyData ["name"; "short"]) ;;
  ogrn <- or_else (get_prop companyData "ogrn")
                  (get_prop companyData "ogrnip") ;;
  address <- get_path companyData ["address"; "value"] ;;
  okved <- or_else (get_prop companyData "okved")
           (and_then (and_then
              (get_prop companyData "okveds")
              (okveds <- get_prop companyData "okveds" ;;
               get_index okveds 0))
              (okveds <- get_prop companyData "okveds" ;;
               first <- get_index okveds 0 ;;
               get_prop first "name")) ;;
  state <- (status <- get_path companyData ["state"; "status"] ;;
            to_lower_case status) ;;
  let result :=
    [("status", JStr "success");
     ("message", JStr MSG_FOUND);
     ("company", JObj [("name", name); ("ogrn", ogrn); ("address", address);
                       ("okved", okved); ("state", state)])] in
  if strict_neq_str state "active"
  then Ok (obj_set "message" (JStr MSG_INACTIVE)
             (obj_set "status" (JStr "warning") result))
  else Ok result.

Definition not_found_result : list (string * jsval) :=
  [("status", JStr "error"); ("message", JStr MSG_NOT_FOUND)].

Definition with_cache (st : server) (c : lru) : server :=
  {| cache := c; upstream_queries := upstream_queries st |}.

Definition sent_upstream (query : jsval) (st : server) : server :=
  {| cache := cache st; upstream_queries := query :: upstream_queries st |}.

Section Handler.

Variable str_to_num_gt0 : string -> bool.

(** [data.suggestions && data.suggestions.length > 0] *)
Definition has_suggestions (data : jsval) : exec bool :=
  suggestions <- get_prop data "suggestions" ;;
  if truthy suggestions
  then len <- get_prop suggestions "length" ;;
       Ok (js_gt0 str_to_num_gt0 len)
  else Ok false.

(** The part of the [try] block after [const data = await response.json()]:
    the status code and the result, which is stored under [inn] at time
    [now] and sent. *)
Definition answer_from_data (now : Z) (inn data : jsval) (st : server)
  : exec (http_response * server) :=
  found <- has_suggestions data ;;
  if found then
    companyData <- (suggestions <- get_prop data "suggestions" ;;
                    first <- get_index suggestions 0 ;;
                    get_prop first "data") ;;
    fields <- company_result companyData ;;
    let result := JObj fields in
    Ok (mkResponse 200 result,
        with_cache st (Lru.set now inn result (cache st)))
  else
    let result := JObj not_found_result in
    Ok (mkResponse 404 result,
        with_cache st (Lru.set now inn result (cache st))).

(** The [try] block, from the reply of [fetch] on. *)
Definition answer_from_upstream (now : Z) (inn : jsval) (up : fetch_outcome)
  (st : server) : exec (http_response * server) :=
  match up with
  | Rejected e => Throw e
  | Replied status text json =>
      if negb (response_ok status)
      then Ok (mkResponse status (message_details MSG_UPSTREAM text), st)
      else data <- json ;; answer_from_data now inn data st
  end.

(** One request to [POST /api/fns/verify-inn].  [body] holds the members of
    the parsed request body ([{}] when there is none); [now] is the clock
    when the cache is consulted, [later] the clock when the reply of the
    provider has been read and the result is stored; [up] is what the
    provider does if it is called. *)
Definition verify_inn (now later : Z) (body : list (string * jsval))
  (up : fetch_outcome) (st : server) : http_response * server :=
  let inn := obj_lookup "inn" body in
  match validate_inn inn with
  | Some m => (mkResponse 400 (message_only m), st)
  | None =>
      if Lru.has now inn (cache st) then
        let (v, c) := Lru.get now inn (cache st) in
        (mkResponse 200 v, with_cache st c)
      else
        let st1 := sent_upstream inn st in
        match answer_from_upstream later inn up st1 with
        | Ok r => r
        | Throw e =>
            (mkResponse 500
               (message_details MSG_INTERNAL (error_message e)), st1)
        end
  end.

(** The normalisation alone: the status code and the result that
    [answer_from_data] stores and sends. *)
Definition normalize (data : jsval) : exec (Z * jsval) :=
  found <- has_suggestions data ;;
  if found then
    companyData <- (suggestions <- get_prop data "suggestions" ;;
                    first <- get_index suggestions 0 ;;
                    get_prop first "data") ;;
    fields <- company_result companyData ;;
    Ok (200, JObj fields)
  else Ok (404, JObj not_found_result).

(** A request with the clock readings and the provider's behaviour that
    go with it, and a run of requests handled one after the other. *)
Record request : Type := mkRequest {
  r_now : Z;
  r_later : Z;
  r_body : list (string * jsval);
  r_up : fetch_outcome
}.

Definition handle (r : request) (st : server) : http_response * server :=
  verify_inn (r_now r) (r_later r) (r_body r) (r_up r) st.

Fixpoint serve (reqs : list request) (st : server) : server :=
  match reqs with
  | [] => st
  | r :: rest => serve rest (snd (handle r st))
  end.

(** States the server can be in: any number of requests, one after the
    other, from start-up. *)
Inductive reachable : server -> Prop :=
| reach_init : reachable init_server
| reach_request st now later body up :
    reachable st ->
    reachable (snd (verify_inn now later body up st)).

End Handler.

(** The configuration of the cache is the one of its construction, and
    its size stays within the capacity. *)
Definition cache_inv (c : lru) : Prop :=
  lru_max c = CACHE_MAX /\ lru_ttl c = CACHE_TTL /\
  (size c <= CACHE_MAX)%nat.

(** The result for a found candidate, from its resolved members and its
    lower-cased state. *)
Definition found_fields (name ogrn address okved : jsval) (s : string)
  : list (string * jsval) :=
  [("status", JStr (if String.eqb s "active" then "success" else "warning"));
   ("message",
    JStr (if String.eqb s "active" then MSG_FOUND else MSG_INACTIVE));
   ("company", JObj [("name", name); ("ogrn", ogrn); ("address", address);
                     ("okved", okved); ("state", JStr s)])].

(** What the specification requires of every [VerificationResult]:
    [success] exactly with an active company, [warning] and the
    not-active message with any other company, [error] exactly without a
    company. *)
Definition result_invariant (r : jsval) : Prop :=
  exists fields,
    r = JObj fields /\
    (obj_lookup "status" fields = JStr "success" <->
     exists cf, obj_lookup "company" fields = JObj cf /\
                obj_lookup "state" cf = JStr "active") /\
    (forall cf, obj_lookup "company" fields = JObj cf ->
                obj_lookup "state" cf <> JStr "active" ->
                obj_lookup "status" fields = JStr "warning" /\
                obj_lookup "message" fields = JStr MSG_INACTIVE) /\
    (obj_lookup "status" fields = JStr "error" <->
     has_field "company" fields = false).

(** The provider could not be used: [fetch] rejected, the reply was not
    2xx, its body did not parse, or the parsed body could not be
    normalised (a read on a missing member throws). *)
Definition transport_failure (g : string -> bool) (up : fetch_outcome) : bool :=
  match up with
  | Rejected _ => true
  | Replied status _ json =>
      negb (response_ok status) ||
      match json with
      | Throw _ => true
      | Ok data => match normalize g data with
                   | Throw _ => true
                   | Ok _ => false
                   end
      end
  end.

(** A stand-in for the engine's string-to-number comparison, exact on
    plain digit strings, for running the handler on concrete requests. *)
Fixpoint all_digits (s : string) : bool :=
  match s with
  | EmptyString => true
  | String c rest => is_digit c && all_digits rest
  end.

Fixpoint some_nonzero (s : string) : bool :=
  match s with
  | EmptyString => false
  | String c rest => negb (Ascii.eqb c "0") || some_nonzero rest
  end.

Definition digits_gt0 (s : string) : bool :=
  all_digits s && some_nonzero s.

End Server.

(* ================================================================== *)
(** ** Sample requests and provider replies *)
(* ================================================================== *)

Module Samples.
Import Js Lru Server.

Definition party (name_fields : list (string * jsval)) (ogrn : jsval)
  (status : string) : jsval :=
  JObj [("value", JStr "OOO Romashka");
        ("data", JObj [("inn", JStr "7700000000");
                       ("name", JObj name_fields);
                       ("ogrn", ogrn);
                       ("ogrnip", JStr "304500116000157");
                       ("address", JObj [("value", JStr "Moscow")]);
                       ("okved", JStr "62.01");
                       ("state", JObj [("status", JStr status)])])].

Definition romashka_names : list (string * jsval) :=
  [("full_with_opf", JNull); ("short_with_opf", JStr "OOO Romashka");
   ("full", JStr "Romashka"); ("short", JStr "Rom")].

Definition active_reply : jsval :=
  JObj [("suggestions",
         JArr [party romashka_names (JStr "1027700000000") "ACTIVE"])].

Definition liquidating_reply : jsval :=
  JObj [("suggestions", JArr [party romashka_names JNull "LIQUIDATING"])].

Definition empty_reply : jsval :=
  JObj [("suggestions", JArr [])].

Definition inn_body (inn : jsval) : list (string * jsval) := [("inn", inn)].

(** A request at clock [t] that the provider answers with [reply]. *)
Definition ask (t : Z) (inn : jsval) (reply : jsval) : request :=
  mkRequest t t (inn_body inn) (Replied 200 "" (Ok reply)).

(** Requests for [n] distinct 10-digit identifiers, the highest first. *)
Fixpoint distinct_asks (n : nat) : list request :=
  match n with
  | O => []
  | S m => ask 0 (JStr (Z_to_string (7700000000 + Z.of_nat m))) empty_reply
           :: distinct_asks m
  end.

End Samples.

(* ================================================================== *)
(** ** The resolved members of a candidate *)
(* ================================================================== *)

Module Resolution.
Import Js Lru Server.

(** [v[0]] where the read does not throw. *)
Definition item0 (v : jsval) : jsval :=
  match get_index v 0 with
  | Ok x => x
  | Throw _ => JUndefined
  end.

(** The values the [||] and [&&] chains of the result literal select,
    written as plain conditionals. *)
Definition name_value (cd : jsval) : jsval :=
  let n := member cd "name" in
  if truthy (member n "full_with_opf") then member n "full_with_opf"
  else if truthy (member n "short_with_opf") then member n "short_with_opf"
  else if truthy (member n "full") then member n "full"
  else member n "short".

Definition ogrn_value (cd : jsval) : jsval :=
  if truthy (member cd "ogrn") then member cd "ogrn" else member cd "ogrnip".

Definition okved_value (cd : jsval) : jsval :=
  if truthy (member cd "okved") then member cd "okved"
  else if truthy (member cd "okveds")
       then if truthy (item0 (member cd "okveds"))
            then member (item0 (member cd "okveds")) "name"
            else item0 (member cd "okveds")
       else member cd "okveds".

(** The two shapes of result the handler ever builds. *)
Definition known_result (r : jsval) : Prop :=
  r = JObj not_found_result \/
  exists name ogrn address okved s,
    r = JObj (found_fields name ogrn address okved s).

(** The seven messages of the handler. *)
Definition known_messages : list string :=
  [MSG_MISSING; MSG_FORMAT; MSG_UPSTREAM; MSG_FOUND; MSG_INACTIVE;
   MSG_NOT_FOUND; MSG_INTERNAL].

(** What holds of every cache entry: its key passed the guards and was
    sent upstream, its value is a result the handler built. *)
Definition entry_ok (st : server) (e : entry) : Prop :=
  validate_inn (e_key e) = None /\
  In (e_key e) (upstream_queries st) /\
  known_result (e_value e).

End Resolution.

(* ================================================================== *)
(** ** The client of the endpoint *)
(* ================================================================== *)

(** The browser side that calls [POST /api/fns/verify-inn]: the click
    handler of the "verify INN" button and [UserSystem.verifyInn] (file
    [public/app.js]).  The page elements the two functions touch are
    taken to exist. *)
Module Client.
Import Js Lru Server.

(** *** [String.prototype.trim] on UTF-8 text

    White space and line terminators of ECMAScript: TAB, LF, VT, FF, CR,
    SPACE, U+00A0, U+1680, U+2000..U+200A, U+2028, U+2029, U+202F, U+205F,
    U+3000 and U+FEFF, the last ones as their two- and three-byte
    encodings. *)
Definition byte_is (c : ascii) (n : nat) : bool :=
  (nat_of_ascii c =? n)%nat.

Definition space2 (a b : ascii) : bool :=
  byte_is a 194 && byte_is b 160.

Definition space3 (a b c : ascii) : bool :=
  (byte_is a 225 && byte_is b 154 && byte_is c 128)
  || (byte_is a 226 && byte_is b 128 &&
      (((128 <=? nat_of_ascii c) && (nat_of_ascii c <=? 138))%nat
       || byte_is c 168 || byte_is c 169 || byte_is c 175))
  || (byte_is a 226 && byte_is b 129 && byte_is c 159)
  || (byte_is a 227 && byte_is b 128 && byte_is c 128)
  || (byte_is a 239 && byte_is b 187 && byte_is c 191).

(** Dropping leading white space; with [backwards] the bytes of each
    character come last byte first (the text is read from its end). *)
Fixpoint drop_spaces (backwards : bool) (s : string) : string :=
  match s with
  | EmptyString => EmptyString
  | String c1 r1 =>
      if is_space c1 then drop_spaces backwards r1
      else
        match r1 with
        | EmptyString => s
        | String c2 r2 =>
            if (if backwards then space2 c2 c1 else space2 c1 c2)
            then drop_spaces backwards r2
            else
              match r2 with
              | EmptyString => s
              | String c3 r3 =>
                  if (if backwards then space3 c3 c2 c1 else space3 c1 c2 c3)
                  then drop_spaces backwards r3
                  else s
              end
        end
  end.

Definition reverse (s : string) : string :=
  string_of_list_ascii (rev (list_ascii_of_string s)).

(** [value.trim()] *)
Definition trim (s : string) : string :=
  reverse (drop_spaces true (reverse (drop_spaces false s))).

(** *** The page *)

(** [dataset.fnsData]: a text, or the text [JSON.stringify(v)], of which
    only [v] is kept. *)
Inductive fns_data_value : Type :=
| FnsText (s : string)
| FnsJson (v : jsval).

(** The parts of the page the two functions write. *)
Record ui : Type := mkUi {
  status_display : string;
  status_classes : list string;
  status_text : string;
  company_display : string;
  fns_company_name : string;
  fns_ogrn : string;
  fns_address : string;
  fns_okved : string;
  fns_status : string;
  is_verified : string;
  fns_data : fns_data_value;
  alerts : list string;
  progress_visible : bool
}.

(** What [fetch] and [response.json()] yield in the browser: a network
    failure, or a reply with its status and its parsed body ([None] when
    the body is not JSON). *)
Inductive net_outcome : Type :=
| NetFailed
| NetReplied (status : Z) (json : option jsval).

(** Page actions that may throw; what was written before a throw
    stays. *)
Definition act (A : Type) : Type := ui -> ui * option A.

Definition ret {A} (a : A) : act A := fun u => (u, Some a).

Definition throw {A} : act A := fun u => (u, None).

Definition then_do {A B} (c : act A) (k : A -> act B) : act B :=
  fun u => match c u with
           | (u', Some a) => k a u'
           | (u', None) => (u', None)
           end.

Definition try_catch {A} (body handler : act A) : act A :=
  fun u => match body u with
           | (u', Some a) => (u', Some a)
           | (u', None) => handler u'
           end.

Definition write (f : ui -> ui) : act unit := fun u => (f u, Some tt).

(** A value read in the page script: a throwing read becomes a throw. *)
Definition read (c : exec jsval) : act jsval :=
  fun u => match c with
           | Ok v => (u, Some v)
           | Throw _ => (u, None)
           end.

Notation "x <~ c ;; k" := (then_do c (fun x => k))
  (at level 61, c at next level, right associativity).
Notation "c ;;; k" := (then_do c (fun _ => k))
  (at level 61, right associativity).

(** A value assigned to [innerText]: [null] becomes the empty text, every
    other value its string rendering. *)
Definition dom_string (v : jsval) : string :=
  match v with
  | JNull => ""
  | _ => to_string v
  end.

(** ASCII white space of the DOM standard: TAB, LF, FF, CR, SPACE. *)
Definition is_dom_space (c : ascii) : bool :=
  let n := nat_of_ascii c in
  ((n =? 9) || (n =? 10) || (n =? 12) || (n =? 13) || (n =? 32))%nat.

Fixpoint has_dom_space (s : string) : bool :=
  match s with
  | EmptyString => false
  | String c rest => is_dom_space c || has_dom_space rest
  end.

Definition set_status_classes (l : list string) (u : ui) : ui :=
  mkUi (status_display u) l (status_text u) (company_display u)
    (fns_company_name u) (fns_ogrn u) (fns_address u) (fns_okved u)
    (fns_status u) (is_verified u) (fns_data u) (alerts u)
    (progress_visible u).

Definition set_status_text (t : string) (u : ui) : ui :=
  mkUi (status_display u) (status_classes u) t (company_display u)
    (fns_company_name u) (fns_ogrn u) (fns_address u) (fns_okved u)
    (fns_status u) (is_verified u) (fns_data u) (alerts u)
    (progress_visible u).

Definition set_status_display (d : string) (u : ui) : ui :=
  mkUi d (status_classes u) (status_text u) (company_display u)
    (fns_company_name u) (fns_ogrn u) (fns_address u) (fns_okved u)
    (fns_status u) (is_verified u) (fns_data u) (alerts u)
    (progress_visible u).

Definition set_company_display (d : string) (u : ui) : ui :=
  mkUi (status_display u) (status_classes u) (status_text u) d
    (fns_company_name u) (fns_ogrn u) (fns_address u) (fns_okved u)
    (fns_status u) (is_verified u) (fns_data u) (alerts u)
    (progress_visible u).

Definition set_company_texts (name ogrn address okved state : string)
  (u : ui) : ui :=
  mkUi (status_display u) (status_classes u) (status_text u)
    (company_display u) name ogrn address okved state
    (is_verified u) (fns_data u) (alerts u) (progress_visible u).

Definition set_dataset (verified : string) (data : fns_data_value)
  (u : ui) : ui :=
  mkUi (status_display u) (status_classes u) (status_text u)
    (company_display u) (fns_company_name u) (fns_ogrn u) (fns_address u)
    (fns_okved u) (fns_status u) verified data (alerts u)
    (progress_visible u).

Definition set_progress (b : bool) (u : ui) : ui :=
  mkUi (status_display u) (status_classes u) (status_text u)
    (company_display u) (fns_company_name u) (fns_ogrn u) (fns_address u)
    (fns_okved u) (fns_status u) (is_verified u) (fns_data u) (alerts u) b.

Definition push_alert (m : string) (u : ui) : ui :=
  mkUi (status_display u) (status_classes u) (status_text u)
    (company_display u) (fns_company_name u) (fns_ogrn u) (fns_address u)
    (fns_okved u) (fns_status u) (is_verified u) (fns_data u)
    (alerts u ++ [m]) (progress_visible u).

(** [statusDisplayElement.classList.add(token)]: an empty token and a
    token with white space throw; a token already there is not added
    again. *)
Definition class_list_add (token : string) : act unit :=
  fun u =>
    if String.eqb token "" || has_dom_space token then (u, None)
    else if existsb (String.eqb token) (status_classes u) then (u, Some tt)
    else (set_status_classes (status_classes u ++ [token]) u, Some tt).

Definition TEXT_CHECKING : string := "Проверка ИНН...".
Definition TEXT_CHECK_FAILED : string := "Ошибка при проверке ИНН.".
Definition TEXT_NETWORK : string :=
  "Ошибка сети или сервера при проверке ИНН.".
Definition ALERT_EMPTY : string := "Пожалуйста, введите ИНН для проверки.".
Definition ALERT_FORMAT : string :=
  "Некорректный формат ИНН. ИНН должен состоять из 10 или 12 цифр.".

(** The five texts of the company panel, and the panel shown. *)
Definition show_company (company : jsval) : act unit :=
  name <~ read (get_prop company "name") ;;
  ogrn <~ read (get_prop company "ogrn") ;;
  address <~ read (get_prop company "address") ;;
  okved <~ read (get_prop company "okved") ;;
  state <~ read (get_prop company "state") ;;
  write (set_company_texts (dom_string name) (dom_string ogrn)
           (dom_string address) (dom_string okved) (dom_string state)) ;;;
  write (set_company_display "flex").

(** The branch [if (response.ok)]. *)
Definition show_result (result : jsval) : act jsval :=
  status_member <~ read (get_prop result "status") ;;
  class_list_add (to_string status_member) ;;;
  message <~ read (get_prop result "message") ;;
  write (set_status_text (dom_string message)) ;;;
  company <~ read (get_prop result "company") ;;
  (if truthy company then show_company company
   else write (set_company_display "none")) ;;;
  ret result.

(** The branch [else] of [if (response.ok)]. *)
Definition show_failure (result : jsval) : act jsval :=
  class_list_add "error" ;;;
  message <~ read (or_else (get_prop result "message")
                     (Ok (JStr TEXT_CHECK_FAILED))) ;;
  write (set_status_text (dom_string message)) ;;;
  ret JNull.

(** The [catch] block. *)
Definition show_network_error : act jsval :=
  class_list_add "error" ;;;
  write (set_status_text TEXT_NETWORK) ;;;
  ret JNull.

(** [UserSystem.verifyInn(inn, statusDisplayElement,
    companyDataDisplayElement)]; [net] is what the network does with the
    request body [{ inn }].  The function returns the parsed result, or
    [null]. *)
Definition verifyInn (net : jsval -> net_outcome) (inn : string) : act jsval :=
  write (set_status_display "block") ;;;
  write (set_status_classes ["verification-status-message"]) ;;;
  write (set_status_text TEXT_CHECKING) ;;;
  write (set_company_display "none") ;;;
  try_catch
    (match net (JObj [("inn", JStr inn)]) with
     | NetFailed => throw
     | NetReplied _ None => throw
     | NetReplied status (Some result) =>
         if response_ok status then show_result result
         else show_failure result
     end)
    show_network_error.

(** The dataset written after [verifyInn] has returned [result]. *)
Definition record_verdict (result : jsval) : act unit :=
  if truthy result
  then status_member <~ read (get_prop result "status") ;;
       if negb (strict_neq_str status_member "success")
       then company <~ read (get_prop result "company") ;;
            write (set_dataset "true" (FnsJson company))
       else write (set_dataset "false" (FnsText ""))
  else write (set_dataset "false" (FnsText "")).

(** What [verifyInn] does not write: the data set, the alerts and the
    progress mark. *)
Definition session (u : ui) : string * fns_data_value * list string * bool :=
  (is_verified u, fns_data u, alerts u, progress_visible u).

Definition keeps {A} (c : act A) : Prop :=
  forall u, session (fst (c u)) = session u.

(** The checks of the click handler on the text of the input field: the
    alert shown, or the identifier that is sent. *)
Definition click_guard (input_value : string) : string + string :=
  let inn := trim input_value in
  if negb (truthy (JStr inn)) then inl ALERT_EMPTY
  else if negb (inn_regex_test (JStr inn)) then inl ALERT_FORMAT
  else inr inn.

(** The click handler of the "verify INN" button. *)
Definition on_verify_click (net : jsval -> net_outcome)
  (input_value : string) : act unit :=
  match click_guard input_value with
  | inl alert => write (push_alert alert)
  | inr inn =>
      write (set_progress true) ;;;
      result <~ verifyInn net inn ;;
      write (set_progress false) ;;;
      record_verdict result
  end.

(** *** The wire between the handler and the client

    [res.json(payload)] serialises with [JSON.stringify] and the client
    parses the text: members that are [undefined] are dropped, array
    elements that are [undefined] become [null]; an [undefined] payload
    gives an empty body, which does not parse. *)
Fixpoint json_wire (v : jsval) : jsval :=
  match v with
  | JArr items =>
      JArr ((fix elements (l : list jsval) : list jsval :=
               match l with
               | [] => []
               | x :: rest =>
                   match x with
                   | JUndefined => JNull
                   | _ => json_wire x
                   end :: elements rest
               end) items)
  | JObj fields =>
      JObj ((fix members (l : list (string * jsval))
               : list (string * jsval) :=
               match l with
               | [] => []
               | (k, x) :: rest =>
                   match x with
                   | JUndefined => members rest
                   | _ => (k, json_wire x) :: members rest
                   end
               end) fields)
  | _ => v
  end.

Definition wire_members (l : list (string * jsval)) : list (string * jsval) :=
  match json_wire (JObj l) with
  | JObj l' => l'
  | _ => []
  end.

Definition wire (r : http_response) : net_outcome :=
  NetReplied (code r)
    match payload r with
    | JUndefined => None
    | v => Some (json_wire v)
    end.

(** The handler behind the network: the request body [{ inn }] is parsed
    by the server and handled in state [st]. *)
Definition served_by (g : string -> bool) (now later : Z)
  (up : fetch_outcome) (st : server) : jsval -> net_outcome :=
  fun request =>
    match request with
    | JObj members =>
        wire (fst (verify_inn g now later (wire_members members) up st))
    | _ => NetFailed
    end.

(** *** The click handler and the event loop

    An [async] function gives way at [await]: while the reply is pending
    the browser runs other listeners of the page. *)

(** The listener of the [input] event of the identifier field. *)
Definition on_inn_input (u : ui) : ui :=
  set_dataset "false" (FnsText "")
    (set_company_display "none" (set_status_display "none" u)).

(** [verifyInn] up to its first [await]; the request is then on its
    way. *)
Definition verifyInn_begin : act unit :=
  write (set_status_display "block") ;;;
  write (set_status_classes ["verification-status-message"]) ;;;
  write (set_status_text TEXT_CHECKING) ;;;
  write (set_company_display "none").

(** [verifyInn] from the reply on. *)
Definition verifyInn_resume (net : jsval -> net_outcome) (inn : string)
  : act jsval :=
  try_catch
    (match net (JObj [("inn", JStr inn)]) with
     | NetFailed => throw
     | NetReplied _ None => throw
     | NetReplied status (Some result) =>
         if response_ok status then show_result result
         else show_failure result
     end)
    show_network_error.

(** The click handler with what other listeners write to the page while
    the reply is pending ([meanwhile]); they run between the two halves
    of [verifyInn]. *)
Definition on_verify_click_pending (net : jsval -> net_outcome)
  (input_value : string) (meanwhile : ui -> ui) : act unit :=
  match click_guard input_value with
  | inl alert => write (push_alert alert)
  | inr inn =>
      write (set_progress true) ;;;
      verifyInn_begin ;;;
      write meanwhile ;;;
      result <~ verifyInn_resume net inn ;;
      write (set_progress false) ;;;
      record_verdict result
  end.

(** An action whose outcome (the value, or the throw) does not depend on
    the page it runs on. *)
Definition steady {A} (c : act A) : Prop :=
  forall u u', snd (c u) = snd (c u').

Definition blank_ui : ui :=
  mkUi "none" [] "" "none" "" "" "" "" "" "false" (FnsText "") [] false.

End Client.

(* ================================================================== *)
(** ** The user of the page: src/public/app.js, module UserSystem *)
(* ================================================================== *)

Module Users.
Import Js Client.

(** Arrays are objects with an identity: a spread copies the reference,
    [push] writes to the array in place, [filter] and [JSON.parse] make a
    new one.  The two arrays of favourites of [mockBusinessProfile] live
    as long as the page; [Made n] is the [n]-th array made later. *)
Inductive array_ref : Type :=
| MockCategories
| MockEstablishments
| Made (n : nat).

(** The members of a user object that the functions below read or write
    ([JUndefined] and [None]: no such member).  The other members
    (names, contacts, location, [establishments]) play no part in
    them. *)
Record user : Type := mkUser {
  user_type : jsval;
  user_inn : jsval;
  user_isVerified : jsval;
  favoriteCategories : option array_ref;
  favoriteEstablishments : option array_ref
}.

(** The item of [localStorage]: the text [JSON.stringify(user)], kept as
    the value it stands for (arrays by their contents). *)
Record saved_user : Type := mkSaved {
  saved_type : jsval;
  saved_inn : jsval;
  saved_isVerified : jsval;
  saved_categories : option (list string);
  saved_establishments : option (list string)
}.

(** The state of the module: the variable [currentUser], the arrays, and
    the item [mapcost_current_user] of [localStorage]. *)
Record page : Type := mkPage {
  currentUser : option user;
  mock_categories : list string;
  mock_establishments : list string;
  made : list (list string);
  storage : option saved_user
}.

Fixpoint set_nth {A} (n : nat) (x : A) (l : list A) : list A :=
  match l, n with
  | [], _ => []
  | _ :: rest, O => x :: rest
  | y :: rest, S m => y :: set_nth m x rest
  end.

Definition array_at (r : array_ref) (p : page) : list string :=
  match r with
  | MockCategories => mock_categories p
  | MockEstablishments => mock_establishments p
  | Made n => nth n (made p) []
  end.

Definition set_array (r : array_ref) (l : list string) (p : page) : page :=
  match r with
  | MockCategories =>
      mkPage (currentUser p) l (mock_establishments p) (made p) (storage p)
  | MockEstablishments =>
      mkPage (currentUser p) (mock_categories p) l (made p) (storage p)
  | Made n =>
      mkPage (currentUser p) (mock_categories p) (mock_establishments p)
        (set_nth n l (made p)) (storage p)
  end.

(** [array.push(id)] *)
Definition push (r : array_ref) (id : string) (p : page) : page :=
  set_array r (array_at r p ++ [id]) p.

(** A new array with the elements [l]. *)
Definition new_array (l : list string) (p : page) : array_ref * page :=
  (Made (List.length (made p)),
   mkPage (currentUser p) (mock_categories p) (mock_establishments p)
     (made p ++ [l]) (storage p)).

Definition set_currentUser (u : option user) (p : page) : page :=
  mkPage u (mock_categories p) (mock_establishments p) (made p) (storage p).

Definition set_storage (item : option saved_user) (p : page) : page :=
  mkPage (currentUser p) (mock_categories p) (mock_establishments p)
    (made p) item.

(** [array.includes(id)] *)
Definition includes (l : list string) (id : string) : bool :=
  existsb (String.eqb id) l.

(** [JSON.stringify(data)], read back by [JSON.parse]. *)
Definition stringify (data : user) (p : page) : saved_user :=
  mkSaved (json_wire (user_type data)) (json_wire (user_inn data))
    (json_wire (user_isVerified data))
    (option_map (fun r => array_at r p) (favoriteCategories data))
    (option_map (fun r => array_at r p) (favoriteEstablishments data)).

(** [saveUserData(data)]; [setItem] can throw (no room, no access), which
    the function swallows: [store_ok] says whether it went through. *)
Definition saveUserData (store_ok : bool) (data : user) (p : page) : page :=
  if store_ok then set_storage (Some (stringify data p)) p else p.

Definition parse_array (o : option (list string)) (p : page)
  : option array_ref * page :=
  match o with
  | None => (None, p)
  | Some l => let (r, p') := new_array l p in (Some r, p')
  end.

(** [loadUserData()]; [readable] says whether [getItem] went through (a
    throw is swallowed and gives [null]). *)
Definition loadUserData (readable : bool) (p : page) : option user * page :=
  if readable then
    match storage p with
    | None => (None, p)
    | Some item =>
        let (categories, p1) := parse_array (saved_categories item) p in
        let (establishments, p2) :=
          parse_array (saved_establishments item) p1 in
        (Some (mkUser (saved_type item) (saved_inn item)
                 (saved_isVerified item) categories establishments), p2)
    end
  else (None, p).

(** [init()] *)
Definition init (readable store_ok : bool) (p : page) : page :=
  match loadUserData readable p with
  | (Some savedUser, p1) => set_currentUser (Some savedUser) p1
  | (None, p1) =>
      let (categories, p2) := new_array [] p1 in
      let (establishments, p3) := new_array [] p2 in
      let regular := mkUser (JStr "regular") JUndefined JUndefined
                       (Some categories) (Some establishments) in
      saveUserData store_ok regular (set_currentUser (Some regular) p3)
  end.

(** [{ ...mockBusinessProfile }]: the members are copied, the arrays are
    not. *)
Definition mock_copy : user :=
  mkUser (JStr "business") (JStr "7700000000") (JBool false)
    (Some MockCategories) (Some MockEstablishments).

(** [loginBusiness()]; the alert, the change of screen and the redraw
    that follow do not write the user. *)
Definition loginBusiness (p : page) : page :=
  set_currentUser (Some mock_copy) p.

(** [logoutBusiness()] *)
Definition logoutBusiness (p : page) : page :=
  set_currentUser None p.

(** [registerBusiness(businessData)] as the registration form calls it:
    [businessData] has the members [businessName], [businessCategory],
    [businessDescription], [contactPerson], [email], [businessLogo] and
    [businessLocation] only; the literal adds [type], [id] and
    [establishments]. *)
Definition registerBusiness (p : page) : page :=
  set_currentUser
    (Some (mkUser (JStr "business") JUndefined JUndefined None None)) p.

(** [updateBusinessProfile(profileData)] as the profile form calls it,
    with the same seven members: [{ ...currentUser, ...profileData }]
    keeps the other members of the current user, arrays by reference;
    with no current user the object has the seven members only.  The
    user is saved after the redraw, so only when the redraw did not throw
    ([redraw_ok]). *)
Definition updateBusinessProfile (redraw_ok store_ok : bool) (p : page)
  : page :=
  let updated :=
    match currentUser p with
    | Some u => u
    | None => mkUser JUndefined JUndefined JUndefined None None
    end in
  let p1 := set_currentUser (Some updated) p in
  if redraw_ok then saveUserData store_ok updated p1 else p1.

(** The two lists of favourites; the source has each function twice. *)
Inductive favourites : Type :=
| Categories
| Establishments.

Definition favourites_of (k : favourites) (u : user) : option array_ref :=
  match k with
  | Categories => favoriteCategories u
  | Establishments => favoriteEstablishments u
  end.

Definition with_favourites (k : favourites) (r : array_ref) (u : user)
  : user :=
  match k with
  | Categories =>
      mkUser (user_type u) (user_inn u) (user_isVerified u) (Some r)
        (favoriteEstablishments u)
  | Establishments =>
      mkUser (user_type u) (user_inn u) (user_isVerified u)
        (favoriteCategories u) (Some r)
  end.

Definition member_name (k : favourites) : string :=
  match k with
  | Categories => "favoriteCategories"
  | Establishments => "favoriteEstablishments"
  end.

(** Reading a method of a member that is not there. *)
Definition no_method {A} (method : string) : exec A :=
  Throw (cannot_read JUndefined method).

Definition add_favourite (k : favourites) (store_ok : bool) (id : string)
  (p : page) : exec page :=
  match currentUser p with
  | None => Ok p
  | Some u =>
      match favourites_of k u with
      | None => no_method "includes"
      | Some r =>
          if includes (array_at r p) id then Ok p
          else Ok (saveUserData store_ok u (push r id p))
      end
  end.

Definition remove_favourite (k : favourites) (store_ok : bool) (id : string)
  (p : page) : exec page :=
  match currentUser p with
  | None => Ok p
  | Some u =>
      match favourites_of k u with
      | None => no_method "filter"
      | Some r =>
          let (r', p1) :=
            new_array (filter (fun x => negb (String.eqb x id))
                         (array_at r p)) p in
          let u' := with_favourites k r' u in
          Ok (saveUserData store_ok u' (set_currentUser (Some u') p1))
      end
  end.

Definition is_favourite (k : favourites) (id : string) (p : page)
  : exec jsval :=
  match currentUser p with
  | None => Ok JNull
  | Some u =>
      match favourites_of k u with
      | None => no_method "includes"
      | Some r => Ok (JBool (includes (array_at r p) id))
      end
  end.

Definition get_favourites (k : favourites) (p : page) : exec (list string) :=
  match currentUser p with
  | None => Ok []
  | Some u =>
      match favourites_of k u with
      | None => Throw (TypeError "undefined is not iterable")
      | Some r => Ok (array_at r p)
      end
  end.

(** [addFavoriteCategory(categoryId)] *)
Definition addFavoriteCategory := add_favourite Categories.

(** [removeFavoriteCategory(categoryId)] *)
Definition removeFavoriteCategory := remove_favourite Categories.

(** [isFavoriteCategory(categoryId)]: [null] when there is no user. *)
Definition isFavoriteCategory := is_favourite Categories.

(** [addFavoriteEstablishment(establishmentId)]; the alert comes after
    the writes. *)
Definition addFavoriteEstablishment := add_favourite Establishments.

(** [removeFavoriteEstablishment(establishmentId)] *)
Definition removeFavoriteEstablishment := remove_favourite Establishments.

(** [isFavoriteEstablishment(establishmentId)] *)
Definition isFavoriteEstablishment := is_favourite Establishments.

(** [getFavoriteCategories()]: a copy of the array. *)
Definition getFavoriteCategories := get_favourites Categories.

(** [getFavoriteEstablishments()] *)
Definition getFavoriteEstablishments := get_favourites Establishments.

Definition TEXT_VERIFIED : string := "Верифицирован через ФНС".
Definition TEXT_UNVERIFIED : string :=
  "Не верифицирован (ИНН указан, но не проверен или есть ошибки)".
Definition TEXT_NO_INN : string := "ИНН не указан".

(** [updateProfileScreen(profile)], the verification line of a business
    profile: its text and the class it is given.  [None]: the profile is
    no business profile and the line is left as it was. *)
Definition inn_verification_line (profile : user) : option (string * string) :=
  if negb (strict_neq_str (user_type profile) "business") then
    Some (if truthy (user_isVerified profile) then (TEXT_VERIFIED, "success")
          else if truthy (user_inn profile) then (TEXT_UNVERIFIED, "warning")
          else (TEXT_NO_INN, "error"))
  else None.

(** What can happen to the module: a call of one of its functions, or the
    page loaded anew (the variables start over, [localStorage] stays). *)
Inductive event : Type :=
| Init (readable store_ok : bool)
| LoginBusiness
| LogoutBusiness
| RegisterBusiness
| UpdateBusinessProfile (redraw_ok store_ok : bool)
| AddFavourite (k : favourites) (store_ok : bool) (id : string)
| RemoveFavourite (k : favourites) (store_ok : bool) (id : string)
| Reload.

Definition loaded (item : option saved_user) : page :=
  mkPage None [] [] [] item.

(** A call that throws has written nothing. *)
Definition settle (p : page) (c : exec page) : page :=
  match c with
  | Ok p' => p'
  | Throw _ => p
  end.

Definition after (e : event) (p : page) : page :=
  match e with
  | Init readable store_ok => init readable store_ok p
  | LoginBusiness => loginBusiness p
  | LogoutBusiness => logoutBusiness p
  | RegisterBusiness => registerBusiness p
  | UpdateBusinessProfile redraw_ok store_ok =>
      updateBusinessProfile redraw_ok store_ok p
  | AddFavourite k store_ok id => settle p (add_favourite k store_ok id p)
  | RemoveFavourite k store_ok id =>
      settle p (remove_favourite k store_ok id p)
  | Reload => loaded (storage p)
  end.

Definition run (events : list event) (p : page) : page :=
  fold_left (fun q e => after e q) events p.

(** The page on a first visit: nothing stored yet. *)
Definition first_visit : page := loaded None.

Definition is_reload (e : event) : bool :=
  match e with
  | Reload => true
  | _ => false
  end.

(** A reference points to an array that exists. *)
Definition valid_ref (r : array_ref) (p : page) : Prop :=
  match r with
  | Made n => (n < List.length (made p))%nat
  | _ => True
  end.

(** The array of [mockBusinessProfile] for each list. *)
Definition mock_ref (k : favourites) : array_ref :=
  match k with
  | Categories => MockCategories
  | Establishments => MockEstablishments
  end.

(** No array, and no stored list, holds an element twice. *)
Definition no_duplicates (p : page) : Prop :=
  NoDup (mock_categories p) /\ NoDup (mock_establishments p) /\
  Forall (@NoDup string) (made p) /\
  match storage p with
  | None => True
  | Some item =>
      (forall l, saved_categories item = Some l -> NoDup l) /\
      (forall l, saved_establishments item = Some l -> NoDup l)
  end.

(** A value that is not truthy: no member, or [false]. *)
Definition not_set (v : jsval) : Prop := v = JUndefined \/ v = JBool false.

(** Neither the user nor the stored user is marked verified. *)
Definition unverified (p : page) : Prop :=
  (forall u, currentUser p = Some u -> not_set (user_isVerified u)) /\
  (forall item, storage p = Some item -> not_set (saved_isVerified item)).

Definition throws {A} (c : exec A) : Prop :=
  exists message, c = Throw (TypeError message).

End Users.

(* ================================================================== *)
(** ** The start of the page: src/public/app.js, [DOMContentLoaded] *)
(* ================================================================== *)

Module Startup.

(** The members of the objects that the closures of the modules
    return. *)
Definition TelegramWebApp_members : list string := ["init"; "getWebApp"].

Definition MapSystem_members : list string :=
  ["initMap"; "loadEstablishments"; "updateFilters"; "getUserGeolocation";
   "getEstablishments"; "addEstablishment"; "updateEstablishment";
   "deleteEstablishment"].

Definition UserSystem_members : list string :=
  ["registerBusiness"; "getProfile"; "updateProfileScreen"; "loginBusiness";
   "logoutBusiness"; "updateBusinessProfile"; "verifyInn";
   "addFavoriteCategory"; "removeFavoriteCategory"; "isFavoriteCategory";
   "addFavoriteEstablishment"; "removeFavoriteEstablishment";
   "isFavoriteEstablishment"; "getFavoriteCategories";
   "getFavoriteEstablishments"].

Definition Navigation_members : list string :=
  ["goToScreen"; "goBack"; "setupEventListeners"; "getCurrentScreenId"].

Definition NotificationSystem_members : list string :=
  ["init"; "subscribeToNotifications"; "unsubscribeFromNotifications";
   "checkNotificationStatus"].

Definition members (module : string) : list string :=
  if String.eqb module "TelegramWebApp" then TelegramWebApp_members
  else if String.eqb module "MapSystem" then MapSystem_members
  else if String.eqb module "UserSystem" then UserSystem_members
  else if String.eqb module "Navigation" then Navigation_members
  else if String.eqb module "NotificationSystem"
       then NotificationSystem_members
  else [].

(** The first five statements of the [DOMContentLoaded] listener, each a
    call [Module.member()]. *)
Definition startup_calls : list (string * string) :=
  [("TelegramWebApp", "init"); ("UserSystem", "init");
   ("MapSystem", "initMap"); ("Navigation", "setupEventListeners");
   ("NotificationSystem", "init")].

(** The functions the listener enters.  A member that the object does not
    have reads as [undefined], and calling it throws; a function that is
    there is entered, and returns or throws ([returns]).  The listener
    has no [try]: the first throw ends it. *)
Fixpoint entered (returns : string -> string -> bool)
  (calls : list (string * string)) : list (string * string) :=
  match calls with
  | [] => []
  | (module, member) :: rest =>
      if existsb (String.eqb member) (members module)
      then (module, member)
           :: (if returns module member then entered returns rest else [])
      else []
  end.

(** The listener got through all the calls. *)
Fixpoint completed (returns : string -> string -> bool)
  (calls : list (string * string)) : bool :=
  match calls with
  | [] => true
  | (module, member) :: rest =>
      existsb (String.eqb member) (members module)
      && returns module member && completed returns rest
  end.

End Startup.

(* ================================================================== *)
(** ** Facts about the cache *)
(* ================================================================== *)

Module LruFacts.
Import Js Lru.

Lemma key_eq_true (a b : jsval) :
  key_eq a b = true -> a = b.
Proof.
  destruct a, b; simpl; try discriminate; intros H; try reflexivity.
  - apply Bool.eqb_prop in H. now subst.
  - apply Z.eqb_eq in H. now subst.
  - apply String.eqb_eq in H. now subst.
Qed.

Lemma key_eq_str (s : string) : key_eq (JStr s) (JStr s) = true.
Proof. simpl. apply String.eqb_refl. Qed.

Lemma key_eq_other (k k' x : jsval) :
  k' <> k -> key_eq k' x = true -> key_eq k x = false.
Proof.
  intros Hne Hk'. destruct (key_eq k x) eqn:Hk; [|reflexivity].
  apply key_eq_true in Hk, Hk'. congruence.
Qed.

Lemma length_removelast_le (l : list entry) :
  (List.length (removelast l) <= pred (List.length l))%nat.
Proof.
  induction l as [|e [|e' l] IH]; simpl in *; lia.
Qed.

Lemma length_remove_key (k : jsval) (l : list entry) :
  (List.length (remove_key k l) <= List.length l)%nat.
Proof.
  unfold remove_key. induction l as [|e l IH]; simpl; [lia|].
  destruct (key_eq k (e_key e)); simpl; lia.
Qed.

Lemma length_remove_found (k : jsval) (l : list entry) (e : entry) :
  find_entry k l = Some e ->
  (S (List.length (remove_key k l)) <= List.length l)%nat.
Proof.
  unfold remove_key. induction l as [|x l IH]; simpl; [discriminate|].
  destruct (key_eq k (e_key x)) eqn:Hx; simpl; intros H.
  - pose proof (length_remove_key k l) as Hl. unfold remove_key in Hl. lia.
  - apply IH in H. lia.
Qed.

Lemma find_entry_key (k : jsval) (l : list entry) (e : entry) :
  find_entry k l = Some e -> key_eq k (e_key e) = true /\ In e l.
Proof.
  induction l as [|x l IH]; simpl; [discriminate|].
  destruct (key_eq k (e_key x)) eqn:Hx; intros H.
  - inversion H; subst. auto.
  - destruct (IH H). auto.
Qed.

Lemma find_entry_remove_other (k k' : jsval) (l : list entry) :
  k' <> k -> find_entry k' (remove_key k l) = find_entry k' l.
Proof.
  intros Hne. unfold remove_key.
  induction l as [|x l IH]; simpl; [reflexivity|].
  destruct (key_eq k (e_key x)) eqn:Hx; simpl.
  - destruct (key_eq k' (e_key x)) eqn:Hx'; [|assumption].
    rewrite (key_eq_other k k' (e_key x) Hne Hx') in Hx. discriminate.
  - now rewrite IH.
Qed.

Lemma find_entry_removelast (k : jsval) (l : list entry) :
  find_entry k (removelast l) = None \/
  find_entry k (removelast l) = find_entry k l.
Proof.
  induction l as [|x [|y l] IH]; simpl; auto.
  simpl in IH. destruct (key_eq k (e_key x)); auto.
Qed.

Lemma In_remove_key (k : jsval) (l : list entry) (e : entry) :
  In e (remove_key k l) -> In e l.
Proof. unfold remove_key. intros H. apply filter_In in H. tauto. Qed.

Lemma In_removelast (l : list entry) (e : entry) :
  In e (removelast l) -> In e l.
Proof.
  induction l as [|x [|y l] IH]; simpl; auto.
  intros [H|H]; auto. right. apply IH. exact H.
Qed.

Lemma remove_key_absent (k : jsval) (l : list entry) :
  find_entry k l = None -> remove_key k l = l.
Proof.
  unfold remove_key. induction l as [|x l IH]; simpl; [reflexivity|].
  destruct (key_eq k (e_key x)); [discriminate|]. simpl.
  intros H. now rewrite IH.
Qed.

(** The size never grows on [get], and stays within a positive capacity
    on [set]. *)
Lemma size_get (now : Z) (k : jsval) (c : lru) :
  (size (snd (get now k c)) <= size c)%nat.
Proof.
  unfold get, size. destruct (find_entry k (lru_entries c)) as [e|] eqn:Hf;
    [|simpl; lia].
  apply length_remove_found in Hf.
  destruct (fresh c now e); simpl; lia.
Qed.

Lemma size_set (now : Z) (k v : jsval) (c : lru) :
  (0 < lru_max c)%nat -> (size c <= lru_max c)%nat ->
  (size (set now k v c) <= lru_max c)%nat.
Proof.
  unfold set, size. simpl. intros Hpos Hle.
  pose proof (length_remove_key k (lru_entries c)) as Hr.
  destruct (Nat.leb_spec (lru_max c)
              (List.length (remove_key k (lru_entries c)))).
  - pose proof (length_removelast_le (remove_key k (lru_entries c))). lia.
  - lia.
Qed.

Lemma get_config (now : Z) (k : jsval) (c : lru) :
  lru_max (snd (get now k c)) = lru_max c /\
  lru_ttl (snd (get now k c)) = lru_ttl c.
Proof.
  unfold get. destruct (find_entry k (lru_entries c)) as [e|]; [|auto].
  destruct (fresh c now e); auto.
Qed.

(** A miss stays a miss as the clock advances. *)
Lemma has_false_later (now now' : Z) (k : jsval) (c : lru) :
  now <= now' -> has now k c = false -> has now' k c = false.
Proof.
  unfold has, fresh. destruct (find_entry k (lru_entries c)); [|reflexivity].
  intros Hle H. apply Z.ltb_ge in H. apply Z.ltb_ge. lia.
Qed.

(** [has] true means [get] returns the stored value. *)
Lemma has_get (now : Z) (k : jsval) (c : lru) :
  has now k c = true ->
  exists e, find_entry k (lru_entries c) = Some e /\
            get now k c =
              (e_value e, with_entries c (e :: remove_key k (lru_entries c))).
Proof.
  unfold has, get. destruct (find_entry k (lru_entries c)) as [e|];
    [|discriminate].
  intros H. exists e. now rewrite H.
Qed.

(** What [set] leaves for a key other than the one stored. *)
Lemma find_entry_set_other (now : Z) (k k' v : jsval) (c : lru) :
  k' <> k ->
  find_entry k' (lru_entries (set now k v c)) = None \/
  find_entry k' (lru_entries (set now k v c)) = find_entry k' (lru_entries c).
Proof.
  intros Hne. unfold set. simpl.
  destruct (key_eq k' k) eqn:Hk.
  { apply key_eq_true in Hk. contradiction. }
  destruct (lru_max c <=? List.length (remove_key k (lru_entries c)))%nat.
  - destruct (find_entry_removelast k' (remove_key k (lru_entries c))) as [H|H];
      [left; exact H|right].
    rewrite H. now apply find_entry_remove_other.
  - right. now apply find_entry_remove_other.
Qed.

Lemma find_entry_get_other (now : Z) (k k' : jsval) (c : lru) :
  k' <> k ->
  find_entry k' (lru_entries (snd (get now k c))) = find_entry k' (lru_entries c).
Proof.
  intros Hne. unfold get.
  destruct (find_entry k (lru_entries c)) as [e|] eqn:Hf; [|reflexivity].
  destruct (fresh c now e); simpl.
  - apply find_entry_key in Hf. destruct Hf as [Hk _].
    destruct (key_eq k' (e_key e)) eqn:Hk'.
    + rewrite (key_eq_other k k' (e_key e) Hne Hk') in Hk. discriminate.
    + now apply find_entry_remove_other.
  - now apply find_entry_remove_other.
Qed.

(** *** Rank in the recency order *)

Lemma position_found (k : jsval) (l : list entry) (i : nat) :
  position k l = Some i -> find_entry k l <> None.
Proof.
  revert i. induction l as [|e l IH]; simpl; [discriminate|].
  intros i. destruct (key_eq k (e_key e)); [discriminate|].
  destruct (position k l) as [j|]; [|discriminate].
  intros _. now apply (IH j).
Qed.

Lemma position_remove_other (k k' : jsval) (l : list entry) (i : nat) :
  k <> k' -> position k l = Some i ->
  exists j, position k (remove_key k' l) = Some j /\ (j <= i)%nat.
Proof.
  intros Hne. unfold remove_key. revert i.
  induction l as [|e l IH]; simpl; [discriminate|]. intros i Hp.
  destruct (key_eq k' (e_key e)) eqn:Hk'; simpl.
  - rewrite (key_eq_other k k' (e_key e)) in Hp by (auto; congruence).
    destruct (position k l) as [i0|]; [|discriminate].
    inversion Hp; subst i. destruct (IH i0 eq_refl) as (j & Hj & Hle).
    exists j. split; [exact Hj|lia].
  - destruct (key_eq k (e_key e)).
    + exists O. split; [reflexivity|lia].
    + destruct (position k l) as [i0|]; [|discriminate].
      inversion Hp; subst i. destruct (IH i0 eq_refl) as (j & Hj & Hle).
      rewrite Hj. exists (S j). split; [reflexivity|lia].
Qed.

Lemma position_removelast (k : jsval) (l : list entry) (i : nat) :
  position k l = Some i -> (S i < List.length l)%nat ->
  position k (removelast l) = Some i.
Proof.
  revert i. induction l as [|e l IH]; intros i Hp Hlen; [discriminate|].
  destruct l as [|y l]; [simpl in Hlen; lia|].
  change (removelast (e :: y :: l)) with (e :: removelast (y :: l)).
  change (position k (e :: y :: l))
    with (if key_eq k (e_key e) then Some O
          else option_map S (position k (y :: l))) in Hp.
  change (position k (e :: removelast (y :: l)))
    with (if key_eq k (e_key e) then Some O
          else option_map S (position k (removelast (y :: l)))).
  destruct (key_eq k (e_key e)); [exact Hp|].
  destruct (position k (y :: l)) as [i0|] eqn:Hl; [|discriminate].
  simpl in Hp. inversion Hp; subst i.
  rewrite (IH i0 eq_refl); [reflexivity|]. simpl in *. lia.
Qed.

Lemma position_set_other (now : Z) (k k' v : jsval) (c : lru) (i : nat) :
  k <> k' -> position k (lru_entries c) = Some i -> (S i < lru_max c)%nat ->
  exists j, position k (lru_entries (set now k' v c)) = Some j /\
            (j <= S i)%nat.
Proof.
  intros Hne Hp Hlt. unfold set. simpl.
  destruct (key_eq k k') eqn:Hk.
  { apply key_eq_true in Hk. contradiction. }
  destruct (position_remove_other k k' _ i Hne Hp) as (j & Hj & Hle).
  destruct (Nat.leb_spec (lru_max c)
              (List.length (remove_key k' (lru_entries c)))).
  - rewrite (position_removelast k _ j Hj) by lia.
    exists (S j). split; [reflexivity|lia].
  - rewrite Hj. exists (S j). split; [reflexivity|lia].
Qed.

Lemma position_set_same (now : Z) (k v : jsval) (c : lru) :
  key_eq k k = true -> position k (lru_entries (set now k v c)) = Some O.
Proof. intros Hk. unfold set. simpl. now rewrite Hk. Qed.

Lemma position_get_other (now : Z) (k k' : jsval) (c : lru) (i : nat) :
  k <> k' -> position k (lru_entries c) = Some i ->
  exists j, position k (lru_entries (snd (get now k' c))) = Some j /\
            (j <= S i)%nat.
Proof.
  intros Hne Hp. unfold get.
  destruct (position_remove_other k k' _ i Hne Hp) as (j & Hj & Hle).
  destruct (find_entry k' (lru_entries c)) as [e|] eqn:Hf.
  - destruct (fresh c now e); simpl.
    + apply find_entry_key in Hf. destruct Hf as [Hk' _].
      rewrite (key_eq_other k k' (e_key e)) by (auto; congruence).
      rewrite Hj. exists (S j). split; [reflexivity|lia].
    + exists j. split; [exact Hj|lia].
  - exists i. split; [exact Hp|lia].
Qed.

Lemma position_get_same (now : Z) (k : jsval) (c : lru) :
  has now k c = true ->
  position k (lru_entries (snd (get now k c))) = Some O.
Proof.
  intros Hh. apply has_get in Hh. destruct Hh as (e & Hf & ->). simpl.
  apply find_entry_key in Hf. destruct Hf as [Hk _]. now rewrite Hk.
Qed.

(** A key that equals itself is found again after [set], until it
    expires. *)
Lemma find_entry_set_same (now : Z) (k v : jsval) (c : lru) :
  key_eq k k = true ->
  find_entry k (lru_entries (set now k v c)) = Some (mkEntry k v now).
Proof. intros Hk. unfold set. simpl. now rewrite Hk. Qed.

Lemma has_get_after_set (now t : Z) (k v : jsval) (c : lru) :
  key_eq k k = true -> t - now < lru_ttl c ->
  has t k (set now k v c) = true /\ fst (get t k (set now k v c)) = v.
Proof.
  intros Hk Ht. unfold has, get.
  rewrite (find_entry_set_same now k v c Hk).
  assert (Hf : fresh (set now k v c) t (mkEntry k v now) = true).
  { unfold fresh. simpl. now apply Z.ltb_lt. }
  rewrite Hf. split; reflexivity.
Qed.

End LruFacts.

(* ================================================================== *)
(** ** Facts about the handler *)
(* ================================================================== *)

Module ServerFacts.
Import Js Lru Server LruFacts.

Section Steps.

(** [g] is the engine's [ToNumber(s) > 0] on strings, the parameter of
    the handler. *)
Variable g : string -> bool.

(** [answer_from_data] stores and sends what [normalize] computes. *)
Lemma answer_from_data_normalize (now : Z) (inn data : jsval) (st : server) :
  answer_from_data g now inn data st =
  (r <- normalize g data ;;
   Ok (mkResponse (fst r) (snd r),
       with_cache st (Lru.set now inn (snd r) (cache st)))).
Proof.
  unfold answer_from_data, normalize, bind.
  destruct (has_suggestions g data) as [[|]|e]; try reflexivity.
  destruct (get_prop data "suggestions") as [s|e]; [|reflexivity].
  destruct (get_index s 0) as [f|e]; [|reflexivity].
  destruct (get_prop f "data") as [cd|e]; [|reflexivity].
  destruct (company_result cd); reflexivity.
Qed.

(** The three ways through the handler. *)
Lemma verify_inn_rejected (now later : Z) body up st (m : string) :
  validate_inn (obj_lookup "inn" body) = Some m ->
  verify_inn g now later body up st = (mkResponse 400 (message_only m), st).
Proof. unfold verify_inn. now intros ->. Qed.

Lemma verify_inn_hit (now later : Z) body up st :
  validate_inn (obj_lookup "inn" body) = None ->
  Lru.has now (obj_lookup "inn" body) (cache st) = true ->
  verify_inn g now later body up st =
  (mkResponse 200 (fst (Lru.get now (obj_lookup "inn" body) (cache st))),
   with_cache st (snd (Lru.get now (obj_lookup "inn" body) (cache st)))).
Proof.
  unfold verify_inn. intros -> ->.
  now destruct (Lru.get now (obj_lookup "inn" body) (cache st)).
Qed.

Lemma verify_inn_miss (now later : Z) body up st :
  validate_inn (obj_lookup "inn" body) = None ->
  Lru.has now (obj_lookup "inn" body) (cache st) = false ->
  verify_inn g now later body up st =
  match answer_from_upstream g later (obj_lookup "inn" body) up
          (sent_upstream (obj_lookup "inn" body) st) with
  | Ok r => r
  | Throw e =>
      (mkResponse 500 (message_details MSG_INTERNAL (error_message e)),
       sent_upstream (obj_lookup "inn" body) st)
  end.
Proof. unfold verify_inn. now intros -> ->. Qed.

(** A miss answered by the provider with a 2xx reply and a body that
    normalises. *)
Lemma verify_inn_miss_normalized (now later : Z) body st status text data c r :
  validate_inn (obj_lookup "inn" body) = None ->
  Lru.has now (obj_lookup "inn" body) (cache st) = false ->
  response_ok status = true ->
  normalize g data = Ok (c, r) ->
  verify_inn g now later body (Replied status text (Ok data)) st =
  (mkResponse c r,
   {| cache := Lru.set later (obj_lookup "inn" body) r (cache st);
      upstream_queries := obj_lookup "inn" body :: upstream_queries st |}).
Proof.
  intros Hv Hm Hok Hn. rewrite (verify_inn_miss _ _ _ _ _ Hv Hm).
  unfold answer_from_upstream. rewrite Hok. simpl.
  rewrite answer_from_data_normalize, Hn. reflexivity.
Qed.

(** What one request does to the cache: nothing, a [get] hit, or one
    [set] of a normalised result under the request's [inn]. *)
Lemma verify_inn_cache_cases (now later : Z) body up st :
  let inn := obj_lookup "inn" body in
  let st' := snd (verify_inn g now later body up st) in
  cache st' = cache st \/
  (Lru.has now inn (cache st) = true /\
   cache st' = snd (Lru.get now inn (cache st))) \/
  (exists data c r,
     normalize g data = Ok (c, r) /\
     cache st' = Lru.set later inn r (cache st)).
Proof.
  intros inn st'. subst st'. unfold verify_inn. fold inn.
  destruct (validate_inn inn); [now left|].
  destruct (Lru.has now inn (cache st)) eqn:Hh.
  - right; left. split; [reflexivity|].
    now destruct (Lru.get now inn (cache st)).
  - unfold answer_from_upstream.
    destruct up as [e|status text json]; [now left|].
    destruct (response_ok status); simpl; [|now left].
    destruct json as [data|e]; simpl; [|now left].
    rewrite answer_from_data_normalize.
    destruct (normalize g data) as [[c r]|e] eqn:Hn; simpl; [|now left].
    right; right. now exists data, c, r.
Qed.

(** The upstream log grows by at most the request's own query. *)
Lemma verify_inn_queries (now later : Z) body up st :
  let st' := snd (verify_inn g now later body up st) in
  upstream_queries st' = upstream_queries st \/
  upstream_queries st' = obj_lookup "inn" body :: upstream_queries st.
Proof.
  simpl. unfold verify_inn.
  destruct (validate_inn (obj_lookup "inn" body)); [now left|].
  destruct (Lru.has now (obj_lookup "inn" body) (cache st)).
  - left. now destruct (Lru.get now (obj_lookup "inn" body) (cache st)).
  - right. unfold answer_from_upstream.
    destruct up as [e|status text json]; [reflexivity|].
    destruct (response_ok status); simpl; [|reflexivity].
    destruct json as [data|e]; simpl; [|reflexivity].
    rewrite answer_from_data_normalize.
    destruct (normalize g data) as [[c r]|e]; reflexivity.
Qed.

Lemma cache_inv_step (now later : Z) body up st :
  cache_inv (cache st) ->
  cache_inv (cache (snd (verify_inn g now later body up st))).
Proof.
  intros (Hm & Ht & Hs).
  destruct (verify_inn_cache_cases now later body up st)
    as [H|[[_ H]|(data & c & r & _ & H)]]; rewrite H.
  - now repeat split.
  - destruct (get_config now (obj_lookup "inn" body) (cache st)) as [H1 H2].
    pose proof (size_get now (obj_lookup "inn" body) (cache st)).
    unfold cache_inv. rewrite H1, H2. repeat split; auto. lia.
  - unfold cache_inv. repeat split; auto.
    rewrite <- Hm. apply size_set; rewrite Hm; auto.
    unfold CACHE_MAX. lia.
Qed.

Lemma reachable_cache_inv (st : server) :
  reachable g st -> cache_inv (cache st).
Proof.
  induction 1 as [|st now later body up _ IH].
  - unfold cache_inv. simpl. repeat split. unfold size, CACHE_MAX. simpl. lia.
  - now apply cache_inv_step.
Qed.

(** One request moves the entry of a string key by at most one rank
    towards the eviction end, and does not evict it before the last
    rank. *)
Lemma position_step (s : string) (now later : Z) body up st (i : nat) :
  cache_inv (cache st) ->
  position (JStr s) (lru_entries (cache st)) = Some i ->
  (S i < CACHE_MAX)%nat ->
  exists j,
    position (JStr s)
      (lru_entries (cache (snd (verify_inn g now later body up st)))) = Some j /\
    (j <= S i)%nat.
Proof.
  intros (Hmax & _ & _) Hp Hlt.
  assert (Hdec : JStr s = obj_lookup "inn" body \/
                 JStr s <> obj_lookup "inn" body).
  { destruct (obj_lookup "inn" body) as [| | | |s'| |];
      try (right; discriminate).
    destruct (string_dec s s') as [->|Hne]; [now left|right; congruence]. }
  destruct (verify_inn_cache_cases now later body up st)
    as [Hc|[[Hh Hc]|(data & c & r & _ & Hc)]]; rewrite Hc.
  - exists i. split; [exact Hp|lia].
  - destruct Hdec as [Heq|Hne].
    + rewrite <- Heq in *.
      exists O. split; [now apply position_get_same|lia].
    + now apply position_get_other.
  - destruct Hdec as [Heq|Hne].
    + rewrite <- Heq in *.
      exists O. split; [apply position_set_same, key_eq_str|lia].
    + apply position_set_other; auto. now rewrite Hmax.
Qed.

Lemma position_serve (s : string) (reqs : list request) (st : server)
  (i : nat) :
  cache_inv (cache st) ->
  position (JStr s) (lru_entries (cache st)) = Some i ->
  (i + List.length reqs < CACHE_MAX)%nat ->
  exists j,
    position (JStr s) (lru_entries (cache (serve g reqs st))) = Some j /\
    (j <= i + List.length reqs)%nat.
Proof.
  revert st i. induction reqs as [|r reqs IH]; simpl; intros st i Hinv Hp Hlt.
  - exists i. split; [exact Hp|lia].
  - unfold handle.
    destruct (position_step s (r_now r) (r_later r) (r_body r) (r_up r) st i
                Hinv Hp) as (j & Hj & Hle); [lia|].
    destruct (IH _ j (cache_inv_step _ _ _ _ _ Hinv) Hj) as (j' & Hj' & Hle');
      [lia|].
    exists j'. split; [exact Hj'|lia].
Qed.

Lemma reachable_serve (reqs : list request) (st : server) :
  reachable g st -> reachable g (serve g reqs st).
Proof.
  revert st. induction reqs as [|r reqs IH]; simpl; intros st H; [exact H|].
  apply IH. unfold handle. now constructor.
Qed.

End Steps.

(** *** Reads and short-circuit operators *)

Lemma bind_ok {A B} (c : exec A) (k : A -> exec B) (b : B) :
  bind c k = Ok b -> exists a, c = Ok a /\ k a = Ok b.
Proof. destruct c as [a|e]; simpl; [eauto|discriminate]. Qed.

Lemma get_prop_member (v : jsval) (name : string) :
  get_prop v name =
  if nullish v then Throw (cannot_read v name) else Ok (member v name).
Proof.
  unfold member. destruct v; simpl; try reflexivity;
    destruct (String.eqb name "length"); reflexivity.
Qed.

Lemma get_path2_member (v : jsval) (a b : string) :
  get_path v [a; b] =
  if nullish v then Throw (cannot_read v a)
  else if nullish (member v a) then Throw (cannot_read (member v a) b)
  else Ok (member (member v a) b).
Proof.
  simpl. rewrite get_prop_member. destruct (nullish v); simpl; [reflexivity|].
  rewrite get_prop_member. now destruct (nullish (member v a)).
Qed.

Lemma or_else_ok (x : jsval) (b : exec jsval) :
  or_else (Ok x) b = if truthy x then Ok x else b.
Proof. reflexivity. Qed.

Lemma or_else_chain (a b c d : jsval) :
  or_else (or_else (or_else (Ok a) (Ok b)) (Ok c)) (Ok d) =
  Ok (if truthy a then a else if truthy b then b
      else if truthy c then c else d).
Proof.
  unfold or_else, bind.
  destruct (truthy a) eqn:Ha; [now rewrite !Ha|].
  destruct (truthy b) eqn:Hb; [now rewrite !Hb|].
  now destruct (truthy c).
Qed.

(** The shape of every result built for a found candidate. *)
Lemma company_result_inv (cd : jsval) (fields : list (string * jsval)) :
  company_result cd = Ok fields ->
  exists name ogrn address okved s,
    or_else (or_else (or_else
      (get_path cd ["name"; "full_with_opf"])
      (get_path cd ["name"; "short_with_opf"]))
      (get_path cd ["name"; "full"]))
      (get_path cd ["name"; "short"]) = Ok name /\
    or_else (get_prop cd "ogrn") (get_prop cd "ogrnip") = Ok ogrn /\
    fields = found_fields name ogrn address okved s.
Proof.
  unfold company_result. intros H.
  apply bind_ok in H. destruct H as (name & Hname & H).
  apply bind_ok in H. destruct H as (ogrn & Hogrn & H).
  apply bind_ok in H. destruct H as (address & _ & H).
  apply bind_ok in H. destruct H as (okved & _ & H).
  apply bind_ok in H. destruct H as (state & Hstate & H).
  apply bind_ok in Hstate. destruct Hstate as (status & _ & Hstate).
  destruct status; try discriminate. inversion Hstate; subst state; clear Hstate.
  exists name, ogrn, address, okved, (lower_string s).
  repeat split; try assumption.
  unfold strict_neq_str in H. unfold found_fields.
  destruct (String.eqb (lower_string s) "active"); simpl in H;
    inversion H; reflexivity.
Qed.

Lemma found_result_invariant (name ogrn address okved : jsval) (s : string) :
  result_invariant (JObj (found_fields name ogrn address okved s)).
Proof.
  eexists. split; [reflexivity|]. unfold found_fields.
  destruct (String.eqb s "active") eqn:Hs; cbn; (split; [|split]).
  - split; [|reflexivity]. intros _. eexists. split; [reflexivity|].
    cbn. apply String.eqb_eq in Hs. now subst.
  - intros cf Hcf Hstate. inversion Hcf; subst cf. cbn in Hstate.
    apply String.eqb_eq in Hs. subst s. now elim Hstate.
  - split; discriminate.
  - split; [discriminate|]. intros (cf & Hcf & Hstate).
    inversion Hcf; subst cf. cbn in Hstate. inversion Hstate; subst s.
    discriminate.
  - intros cf _ _. split; reflexivity.
  - split; discriminate.
Qed.

Lemma not_found_result_invariant :
  result_invariant (JObj not_found_result).
Proof.
  eexists. split; [reflexivity|]. cbn. split; [|split].
  - split; [discriminate|]. intros (cf & Hcf & _). discriminate.
  - intros cf Hcf. discriminate.
  - split; reflexivity.
Qed.

Section Results.

Variable g : string -> bool.

(** The two outcomes of a normalisation that does not throw. *)
Lemma normalize_cases (data : jsval) (c : Z) (r : jsval) :
  normalize g data = Ok (c, r) ->
  (has_suggestions g data = Ok true /\ c = 200 /\
   exists name ogrn address okved s,
     r = JObj (found_fields name ogrn address okved s)) \/
  (has_suggestions g data = Ok false /\ c = 404 /\
   r = JObj not_found_result).
Proof.
  unfold normalize. intros Hn. apply bind_ok in Hn.
  destruct Hn as (found & Hfound & Hn). rewrite Hfound. destruct found.
  - left. apply bind_ok in Hn. destruct Hn as (cd & _ & Hn).
    apply bind_ok in Hn. destruct Hn as (fields & Hres & Hn).
    inversion Hn; subst; clear Hn.
    apply company_result_inv in Hres.
    destruct Hres as (name & ogrn & address & okved & s & _ & _ & ->).
    repeat split. now exists name, ogrn, address, okved, s.
  - right. inversion Hn. repeat split.
Qed.

Lemma normalize_result_invariant (data : jsval) (c : Z) (r : jsval) :
  normalize g data = Ok (c, r) -> result_invariant r.
Proof.
  intros Hn. destruct (normalize_cases data c r Hn)
    as [(_ & _ & name & ogrn & address & okved & s & ->)|(_ & _ & ->)].
  - apply found_result_invariant.
  - apply not_found_result_invariant.
Qed.

(** Everything the cache holds was produced by the normalisation, so it
    satisfies the invariant; hence so does everything served from it. *)
Lemma reachable_cached_results (st : server) :
  reachable g st ->
  forall e, In e (lru_entries (cache st)) -> result_invariant (e_value e).
Proof.
  induction 1 as [|st now later body up _ IH]; [intros e []|].
  intros e He.
  destruct (verify_inn_cache_cases g now later body up st)
    as [Hc|[[Hh Hc]|(data & c & r & Hn & Hc)]]; rewrite Hc in He.
  - now apply IH.
  - apply IH. apply has_get in Hh. destruct Hh as (e0 & Hf & Hg).
    rewrite Hg in He. simpl in He. destruct He as [<-|He].
    + now apply find_entry_key in Hf.
    + now apply In_remove_key in He.
  - unfold Lru.set in He. simpl in He. destruct He as [<-|He].
    + simpl. now apply normalize_result_invariant with (data := data) (c := c).
    + apply IH. apply In_remove_key with (k := obj_lookup "inn" body).
      destruct (lru_max (cache st) <=? _)%nat;
        [now apply In_removelast|exact He].
Qed.

Lemma served_result_invariant (now later : Z) body up (st : server) :
  reachable g st ->
  let resp := fst (verify_inn g now later body up st) in
  (exists m, payload resp = message_only m) \/
  (exists m d, payload resp = message_details m d) \/
  result_invariant (payload resp).
Proof.
  intros Hreach resp. subst resp. unfold verify_inn.
  destruct (validate_inn (obj_lookup "inn" body)) as [m|]; [left; now exists m|].
  destruct (Lru.has now (obj_lookup "inn" body) (cache st)) eqn:Hh.
  - right; right. apply has_get in Hh. destruct Hh as (e & Hf & ->). simpl.
    apply (reachable_cached_results st Hreach).
    now apply find_entry_key in Hf.
  - unfold answer_from_upstream.
    destruct up as [e|status text json]; [right; left; now eexists _, _|].
    destruct (response_ok status); simpl; [|right; left; now eexists _, _].
    destruct json as [data|e]; simpl; [|right; left; now eexists _, _].
    rewrite answer_from_data_normalize.
    destruct (normalize g data) as [[c r]|e] eqn:Hn; simpl;
      [|right; left; now eexists _, _].
    right; right. now apply normalize_result_invariant with (data := data) (c := c).
Qed.

End Results.

End ServerFacts.

(* ================================================================== *)
(** ** The normalised result *)
(* ================================================================== *)

Module ResultProps.
Import Js Lru Server LruFacts ServerFacts Samples.

(** C1.  Every result the handler builds from a provider reply (and then
    stores and sends) is an object whose [status] is ["success"] exactly
    when it carries a [company] whose [state] is ["active"]; a company
    whose state is not ["active"] comes with status ["warning"] and the
    "found but not active" message; a reply with a candidate always yields
    a [company]; a reply without candidates yields status ["error"] and an
    object without a [company] member. *)
Theorem result_status_invariant (g : string -> bool) (now : Z)
  (inn data : jsval) (st st' : server) (resp : http_response)
  (H : answer_from_data g now inn data st = Ok (resp, st')) :
  exists fields,
    payload resp = JObj fields /\
    (obj_lookup "status" fields = JStr "success" <->
     exists cf, obj_lookup "company" fields = JObj cf /\
                obj_lookup "state" cf = JStr "active") /\
    (forall cf, obj_lookup "company" fields = JObj cf ->
                obj_lookup "state" cf <> JStr "active" ->
                obj_lookup "status" fields = JStr "warning" /\
                obj_lookup "message" fields = JStr MSG_INACTIVE) /\
    (has_suggestions g data = Ok true ->
     exists cf, obj_lookup "company" fields = JObj cf) /\
    (has_suggestions g data = Ok false ->
     obj_lookup "status" fields = JStr "error" /\
     has_field "company" fields = false).
Proof.
  rewrite answer_from_data_normalize in H.
  apply bind_ok in H. destruct H as ([c r] & Hn & H).
  inversion H; subst resp st'; clear H. simpl.
  destruct (normalize_cases g data c r Hn)
    as [(Hs & _ & name & ogrn & address & okved & s & ->)|(Hs & _ & ->)];
    rewrite Hs.
  - destruct (found_result_invariant name ogrn address okved s)
      as (fields & Hf & Hsuccess & Hwarning & _).
    inversion Hf; subst fields; clear Hf.
    eexists. split; [reflexivity|]. split; [exact Hsuccess|].
    split; [exact Hwarning|].
    split; [|discriminate]. intros _. eexists. reflexivity.
  - destruct not_found_result_invariant
      as (fields & Hf & Hsuccess & Hwarning & _).
    inversion Hf; subst fields; clear Hf.
    eexists. split; [reflexivity|]. split; [exact Hsuccess|].
    split; [exact Hwarning|].
    split; [discriminate|]. intros _. split; reflexivity.
Qed.

Lemma result_status_invariant_witness :
  exists fields,
    payload (mkResponse 200 (JObj
      [("status", JStr "warning"); ("message", JStr MSG_INACTIVE);
       ("company", JObj [("name", JStr "OOO Romashka");
                         ("ogrn", JStr "304500116000157");
                         ("address", JStr "Moscow");
                         ("okved", JStr "62.01");
                         ("state", JStr "liquidating")])])) = JObj fields /\
    (obj_lookup "status" fields = JStr "success" <->
     exists cf, obj_lookup "company" fields = JObj cf /\
                obj_lookup "state" cf = JStr "active") /\
    (forall cf, obj_lookup "company" fields = JObj cf ->
                obj_lookup "state" cf <> JStr "active" ->
                obj_lookup "status" fields = JStr "warning" /\
                obj_lookup "message" fields = JStr MSG_INACTIVE) /\
    (has_suggestions digits_gt0 liquidating_reply = Ok true ->
     exists cf, obj_lookup "company" fields = JObj cf) /\
    (has_suggestions digits_gt0 liquidating_reply = Ok false ->
     obj_lookup "status" fields = JStr "error" /\
     has_field "company" fields = false).
Proof.
  eapply (result_status_invariant digits_gt0 5 (JStr "7700000000")
            liquidating_reply init_server).
  vm_compute. reflexivity.
Defined.

(** C8.  For every found candidate, the [name] of the normalised company
    is the first non-empty (truthy) value among [name.full_with_opf],
    [name.short_with_opf], [name.full] and [name.short], in that order (and
    the value of [name.short] when all four are empty); its [ogrn] is the
    candidate's [ogrn] when that one is present and non-empty, and the
    candidate's [ogrnip] when [ogrn] is absent (or empty). *)
Theorem name_and_ogrn_resolution (cd : jsval)
  (fields : list (string * jsval))
  (H : company_result cd = Ok fields) :
  let names := member cd "name" in
  let candidates :=
    [member names "full_with_opf"; member names "short_with_opf";
     member names "full"; member names "short"] in
  exists cf,
    obj_lookup "company" fields = JObj cf /\
    (forall v, first_nonempty candidates = Some v ->
               obj_lookup "name" cf = v) /\
    (first_nonempty candidates = None ->
     obj_lookup "name" cf = member names "short") /\
    (truthy (member cd "ogrn") = true ->
     obj_lookup "ogrn" cf = member cd "ogrn") /\
    (truthy (member cd "ogrn") = false ->
     obj_lookup "ogrn" cf = member cd "ogrnip").
Proof.
  intros names candidates. subst candidates names.
  apply company_result_inv in H.
  destruct H as (name & ogrn & address & okved & s & Hname & Hogrn & ->).
  unfold found_fields.
  rewrite !get_path2_member in Hname. rewrite !get_prop_member in Hogrn.
  destruct (nullish cd); [discriminate|].
  destruct (nullish (member cd "name")); [discriminate|].
  rewrite or_else_ok in Hogrn.
  rewrite or_else_chain in Hname. inversion Hname; subst name; clear Hname.
  assert (Ho : ogrn = if truthy (member cd "ogrn") then member cd "ogrn"
                      else member cd "ogrnip").
  { destruct (truthy (member cd "ogrn")); congruence. }
  subst ogrn. clear Hogrn.
  eexists. split; [reflexivity|].
  cbn [obj_lookup String.eqb Ascii.eqb Bool.eqb].
  unfold first_nonempty, find.
  assert (Hogrn : forall b, truthy (member cd "ogrn") = b ->
            match (if truthy (member cd "ogrn") then member cd "ogrn"
                   else member cd "ogrnip") with
            | JUndefined => JUndefined
            | found => found
            end = if b then member cd "ogrn" else member cd "ogrnip").
  { intros b ->. now destruct (if b then _ else _). }
  destruct (truthy (member (member cd "name") "full_with_opf")).
  { repeat split; intros; try congruence; exact (Hogrn _ H). }
  destruct (truthy (member (member cd "name") "short_with_opf")).
  { repeat split; intros; try congruence; exact (Hogrn _ H). }
  destruct (truthy (member (member cd "name") "full")).
  { repeat split; intros; try congruence; exact (Hogrn _ H). }
  destruct (truthy (member (member cd "name") "short"));
    repeat split; intros; try congruence; exact (Hogrn _ H).
Qed.

Lemma name_and_ogrn_resolution_witness :
  let cd := member (party romashka_names JNull "LIQUIDATING") "data" in
  exists cf,
    JObj [("name", JStr "OOO Romashka"); ("ogrn", JStr "304500116000157");
          ("address", JStr "Moscow"); ("okved", JStr "62.01");
          ("state", JStr "liquidating")] = JObj cf /\
    obj_lookup "name" cf = JStr "OOO Romashka" /\
    obj_lookup "ogrn" cf = member cd "ogrnip".
Proof.
  intros cd.
  destruct (name_and_ogrn_resolution cd
              [("status", JStr "warning"); ("message", JStr MSG_INACTIVE);
               ("company",
                JObj [("name", JStr "OOO Romashka");
                      ("ogrn", JStr "304500116000157");
                      ("address", JStr "Moscow"); ("okved", JStr "62.01");
                      ("state", JStr "liquidating")])]
              eq_refl) as (cf & Hcf & Hn & _ & _ & Ho).
  exists cf. split; [exact Hcf|]. split.
  - apply Hn. reflexivity.
  - apply Ho. reflexivity.
Defined.

End ResultProps.

(* ================================================================== *)
(** ** The guards on the identifier *)
(* ================================================================== *)

Module ValidatorProps.
Import Js Lru Server LruFacts ServerFacts Samples.

Lemma validate_inn_str (s : string) :
  validate_inn (JStr s) = None <->
  match_digits 10 s || match_digits 12 s = true.
Proof.
  unfold validate_inn, inn_regex_test. cbn [to_string truthy].
  destruct (String.eqb_spec s "") as [->|Hne]; cbn [negb].
  - split; discriminate.
  - destruct (match_digits 10 s || match_digits 12 s); cbn [negb];
      split; congruence.
Qed.

(** C4, as the specification states it, fails: an identifier with a
    leading blank matches the pattern once trimmed, and the handler
    answers 400 all the same. *)
Lemma validation_does_not_trim :
  spec_validate " 7700000000" = true /\
  verify_inn digits_gt0 0 0 (inn_body (JStr " 7700000000"))
    (Replied 200 "" (Ok active_reply)) init_server =
  (mkResponse 400 (message_only MSG_FORMAT), init_server).
Proof. split; reflexivity. Qed.

(** C4, amended.  A string [inn] passes the guards exactly when the
    string itself, untrimmed, matches [^\d{10}$] or [^\d{12}$]; when it
    does not, the answer is 400 with a validation message and the server
    state is untouched: no cache access, no entry created, no upstream
    call. *)
Theorem validation_exact_pattern (g : string -> bool) (s : string)
  (now later : Z) (body : list (string * jsval)) (up : fetch_outcome)
  (st : server)
  (Hinn : obj_lookup "inn" body = JStr s) :
  (validate_inn (JStr s) = None <->
   match_digits 10 s || match_digits 12 s = true) /\
  (match_digits 10 s || match_digits 12 s = false ->
   exists m,
     (m = MSG_MISSING \/ m = MSG_FORMAT) /\
     verify_inn g now later body up st =
     (mkResponse 400 (message_only m), st)).
Proof.
  split; [apply validate_inn_str|].
  intros Hno.
  destruct (validate_inn (JStr s)) as [m|] eqn:Hv.
  - exists m. split.
    + unfold validate_inn in Hv.
      destruct (negb (truthy (JStr s))); [inversion Hv; auto|].
      destruct (negb (inn_regex_test (JStr s))); [inversion Hv; auto|].
      discriminate.
    + apply verify_inn_rejected. now rewrite Hinn.
  - apply validate_inn_str in Hv. congruence.
Qed.

Lemma validation_exact_pattern_witness :
  obj_lookup "inn" (inn_body (JStr "123")) = JStr "123" /\
  exists m,
    (m = MSG_MISSING \/ m = MSG_FORMAT) /\
    verify_inn digits_gt0 0 0 (inn_body (JStr "123"))
      (Replied 200 "" (Ok active_reply)) init_server =
    (mkResponse 400 (message_only m), init_server).
Proof.
  split; [reflexivity|].
  apply (validation_exact_pattern digits_gt0 "123" 0 0
           (inn_body (JStr "123")) (Replied 200 "" (Ok active_reply))
           init_server eq_refl).
  reflexivity.
Defined.

(** Numbers at the edges of the 10- and 12-digit ranges, and next to
    them. *)
Example numeric_inn_edges :
  map (fun z => inn_regex_test (JNum z))
    [999999999; 1000000000; 9999999999; 10000000000;
     99999999999; 100000000000; 999999999999; 1000000000000; -1000000000]
  = [false; true; true; false; false; true; true; false; false].
Proof. reflexivity. Qed.

(** An array holding one identifier passes the guards as well. *)
Example array_inn_passes :
  validate_inn (JArr [JStr "7700000000"]) = None /\
  validate_inn (JArr [JStr "7700000000"; JNull]) = Some MSG_FORMAT /\
  validate_inn (JObj [("inn", JStr "7700000000")]) = Some MSG_FORMAT /\
  validate_inn (JNum 0) = Some MSG_MISSING /\
  validate_inn JUndefined = Some MSG_MISSING.
Proof. repeat split. Qed.

(** C9.  A JSON number whose decimal rendering has 10 or 12 digits passes
    the guards (the pattern test works on [String(inn)]); the handler then
    consults the cache under the number itself, and on a miss sends the
    number upstream and stores the result under the number. *)
Theorem numeric_inn_accepted (g : string -> bool) (z : Z) (now later : Z)
  (body : list (string * jsval)) (up : fetch_outcome) (st : server)
  (Hinn : obj_lookup "inn" body = JNum z)
  (Hdigits : inn_regex_test (JNum z) = true) :
  validate_inn (JNum z) = None /\
  (Lru.has now (JNum z) (cache st) = true ->
   verify_inn g now later body up st =
   (mkResponse 200 (fst (Lru.get now (JNum z) (cache st))),
    with_cache st (snd (Lru.get now (JNum z) (cache st))))) /\
  (Lru.has now (JNum z) (cache st) = false ->
   upstream_queries (snd (verify_inn g now later body up st)) =
     JNum z :: upstream_queries st /\
   forall status text data c r,
     up = Replied status text (Ok data) ->
     response_ok status = true ->
     normalize g data = Ok (c, r) ->
     fst (verify_inn g now later body up st) = mkResponse c r /\
     hd_error (lru_entries (cache (snd (verify_inn g now later body up st))))
       = Some (mkEntry (JNum z) r later)).
Proof.
  assert (Hv : validate_inn (JNum z) = None).
  { unfold validate_inn. rewrite Hdigits. cbn [truthy negb].
    destruct (Z.eqb_spec z 0) as [->|_]; [discriminate|reflexivity]. }
  split; [exact Hv|]. rewrite <- Hinn in Hv |- *. split.
  - intros Hh. now apply verify_inn_hit.
  - intros Hm. split.
    + rewrite (verify_inn_miss _ _ _ _ _ _ Hv Hm).
      unfold answer_from_upstream.
      destruct up as [e|status text json]; [reflexivity|].
      destruct (response_ok status); simpl; [|reflexivity].
      destruct json as [data|e]; simpl; [|reflexivity].
      rewrite answer_from_data_normalize.
      destruct (normalize g data) as [[c r]|e]; reflexivity.
    + intros status text data c r -> Hok Hn.
      rewrite (verify_inn_miss_normalized _ _ _ _ _ _ _ _ _ _ Hv Hm Hok Hn).
      split; reflexivity.
Qed.

Lemma numeric_inn_accepted_witness :
  validate_inn (JNum 7700000000) = None /\
  upstream_queries
    (snd (verify_inn digits_gt0 0 5 (inn_body (JNum 7700000000))
            (Replied 200 "" (Ok active_reply)) init_server)) =
  [JNum 7700000000].
Proof.
  destruct (numeric_inn_accepted digits_gt0 7700000000 0 5
              (inn_body (JNum 7700000000))
              (Replied 200 "" (Ok active_reply)) init_server
              eq_refl eq_refl) as (Hv & _ & Hmiss).
  split; [exact Hv|]. apply Hmiss. reflexivity.
Defined.

End ValidatorProps.

(* ================================================================== *)
(** ** The cache behind the handler *)
(* ================================================================== *)

Module CacheProps.
Import Js Lru Server LruFacts ServerFacts Samples.

(** The specification's scenario: capacity 2, insert A and B, touch A,
    insert C; B is evicted, A is not. *)
Example lru_capacity_two :
  let a := JStr "A" in
  let b := JStr "B" in
  let c := JStr "C" in
  let c0 := Lru.create 2 1000 in
  let c1 := Lru.set 2 b JNull (Lru.set 1 a JNull c0) in
  let c2 := snd (Lru.get 3 a c1) in
  let c3 := Lru.set 4 c JNull c2 in
  map e_key (lru_entries c3) = [c; a] /\
  Lru.has 5 b c3 = false /\ Lru.has 5 a c3 = true.
Proof. repeat split. Qed.

(** C7.  In every state the server can reach, the cache holds at most 100
    entries.  Storing a key that is not in a full cache drops the entry at
    the least-recently-accessed end and keeps all the others; a [get] hit
    and a [set] both move their entry to the most-recently-accessed end;
    an entry that is at the most-recently-accessed end is therefore still
    in the cache after any 99 further requests; and an entry whose age has
    reached the TTL of one hour is absent for [has] and [get]. *)
Theorem cache_capacity_lru_ttl (g : string -> bool) (st : server)
  (H : reachable g st) :
  let c := cache st in
  (size c <= 100)%nat /\
  (forall now k v,
     find_entry k (lru_entries c) = None -> size c = 100%nat ->
     lru_entries (Lru.set now k v c) =
       mkEntry k v now :: removelast (lru_entries c) /\
     size (Lru.set now k v c) = 100%nat) /\
  (forall now k e,
     find_entry k (lru_entries c) = Some e -> fresh c now e = true ->
     Lru.get now k c =
       (e_value e, with_entries c (e :: remove_key k (lru_entries c)))) /\
  (forall now k v,
     hd_error (lru_entries (Lru.set now k v c)) = Some (mkEntry k v now)) /\
  (forall s reqs,
     position (JStr s) (lru_entries c) = Some O ->
     (List.length reqs < 100)%nat ->
     find_entry (JStr s) (lru_entries (cache (serve g reqs st))) <> None) /\
  (forall now k e,
     find_entry k (lru_entries c) = Some e ->
     1000 * 60 * 60 <= now - e_inserted e ->
     Lru.has now k c = false /\ fst (Lru.get now k c) = JUndefined).
Proof.
  intros c. subst c.
  pose proof (reachable_cache_inv g st H) as Hinv.
  destruct Hinv as (Hmax & Httl & Hsize).
  split; [exact Hsize|]. split; [|split; [|split; [|split]]].
  - intros now k v Hnone Hfull. unfold Lru.set, size in *. simpl.
    rewrite (remove_key_absent _ _ Hnone), Hmax, Hfull. simpl.
    split; [reflexivity|].
    destruct (lru_entries (cache st)) as [|e l] eqn:Hl; [discriminate|].
    pose proof (app_removelast_last e (l := e :: l)) as Happ.
    assert (Hlen : List.length (e :: l) =
                   List.length (removelast (e :: l) ++ [last (e :: l) e])).
    { rewrite <- Happ; [reflexivity|discriminate]. }
    rewrite length_app in Hlen. simpl in Hlen, Hfull |- *. lia.
  - intros now k e Hf Hfresh. unfold Lru.get. now rewrite Hf, Hfresh.
  - reflexivity.
  - intros s reqs Hp Hlen.
    destruct (position_serve g s reqs st O (reachable_cache_inv g st H) Hp)
      as (j & Hj & _); [unfold CACHE_MAX; lia|].
    now apply position_found in Hj.
  - intros now k e Hf Hold.
    assert (Hstale : fresh (cache st) now e = false).
    { unfold fresh. rewrite Httl. apply Z.ltb_ge. unfold CACHE_TTL. lia. }
    unfold Lru.has, Lru.get. rewrite Hf, Hstale. split; reflexivity.
Qed.

Lemma cache_capacity_lru_ttl_witness :
  let st := serve digits_gt0 (distinct_asks 100) init_server in
  let c := cache st in
  size c = 100%nat /\
  map e_key (lru_entries (Lru.set 1 (JStr "7800000000") JNull c)) =
    JStr "7800000000" :: removelast (map e_key (lru_entries c)) /\
  Lru.has 3600000 (JStr "7700000042") c = false.
Proof.
  intros st c.
  destruct (cache_capacity_lru_ttl digits_gt0 st
              (reachable_serve digits_gt0 (distinct_asks 100) init_server
                 (reach_init digits_gt0)))
    as (_ & Hevict & _ & _ & _ & Httl).
  split; [vm_compute; reflexivity|]. split.
  - destruct (Hevict 1 (JStr "7800000000") JNull) as [He _];
      [vm_compute; reflexivity|vm_compute; reflexivity|].
    fold c in He. rewrite He. vm_compute. reflexivity.
  - apply (Httl 3600000 (JStr "7700000042")
             (mkEntry (JStr "7700000042") (JObj not_found_result) 0)).
    + vm_compute. reflexivity.
    + vm_compute. discriminate.
Defined.

(** A run through the handler: 100 distinct identifiers fill the cache;
    asking again for the oldest one is a hit that refreshes it; the 101st
    identifier then evicts the second oldest, not the oldest. *)
Example server_evicts_least_recent :
  let full := serve digits_gt0 (distinct_asks 100) init_server in
  let touched :=
    snd (handle digits_gt0 (ask 1 (JStr "7700000099") empty_reply) full) in
  let after :=
    snd (handle digits_gt0 (ask 2 (JStr "7800000000") empty_reply) touched) in
  size (cache after) = 100%nat /\
  upstream_queries touched = upstream_queries full /\
  Lru.has 3 (JStr "7700000099") (cache after) = true /\
  Lru.has 3 (JStr "7700000098") (cache touched) = true /\
  Lru.has 3 (JStr "7700000098") (cache after) = false.
Proof. vm_compute. repeat split. Qed.

(** C10.  One request, with identifier [inn], leaves every other key of
    the cache alone: such a key is afterwards either gone or bound to the
    entry it had before; whatever [has] and [get] report for it afterwards
    they reported before; and every entry of the cache afterwards is an
    entry it held before or the one just stored under [inn]. *)
Theorem request_frame (g : string -> bool) (now later : Z)
  (body : list (string * jsval)) (up : fetch_outcome) (st : server)
  (k' : jsval)
  (Hother : k' <> obj_lookup "inn" body) :
  let st' := snd (verify_inn g now later body up st) in
  (find_entry k' (lru_entries (cache st')) = None \/
   find_entry k' (lru_entries (cache st')) =
   find_entry k' (lru_entries (cache st))) /\
  (forall t, Lru.has t k' (cache st') = true ->
             Lru.has t k' (cache st) = true /\
             fst (Lru.get t k' (cache st')) = fst (Lru.get t k' (cache st))) /\
  (forall e, In e (lru_entries (cache st')) ->
             In e (lru_entries (cache st)) \/
             (e_key e = obj_lookup "inn" body /\ e_inserted e = later)).
Proof.
  intros st'. subst st'.
  set (c' := cache (snd (verify_inn g now later body up st))).
  assert (Hfind : find_entry k' (lru_entries c') = None \/
                  find_entry k' (lru_entries c') =
                  find_entry k' (lru_entries (cache st))).
  { subst c'.
    destruct (verify_inn_cache_cases g now later body up st)
      as [Hc|[[_ Hc]|(data & c & r & _ & Hc)]]; rewrite Hc.
    - now right.
    - right. now apply find_entry_get_other.
    - now apply find_entry_set_other. }
  assert (Httl : lru_ttl c' = lru_ttl (cache st)).
  { subst c'.
    destruct (verify_inn_cache_cases g now later body up st)
      as [Hc|[[_ Hc]|(data & c & r & _ & Hc)]]; rewrite Hc.
    - reflexivity.
    - apply get_config.
    - reflexivity. }
  split; [exact Hfind|]. split.
  - intros t Hh. unfold Lru.has, Lru.get, fresh in *. rewrite Httl in *.
    destruct Hfind as [Hf|Hf]; rewrite Hf in *; [discriminate|].
    destruct (find_entry k' (lru_entries (cache st))) as [e|];
      [|discriminate].
    split; [exact Hh|]. rewrite Hh. reflexivity.
  - intros e He. subst c'.
    destruct (verify_inn_cache_cases g now later body up st)
      as [Hc|[[Hh Hc]|(data & c & r & _ & Hc)]]; rewrite Hc in He.
    + now left.
    + left. apply has_get in Hh. destruct Hh as (e0 & Hf & Hg).
      rewrite Hg in He. simpl in He.
      destruct He as [<-|He].
      * now apply find_entry_key in Hf.
      * now apply In_remove_key in He.
    + unfold Lru.set in He. simpl in He. destruct He as [<-|He].
      * right. split; reflexivity.
      * left. apply In_remove_key with (k := obj_lookup "inn" body).
        destruct (lru_max (cache st) <=? _)%nat;
          [now apply In_removelast|exact He].
Qed.

Lemma request_frame_witness :
  let st := serve digits_gt0 (distinct_asks 3) init_server in
  let st' := snd (handle digits_gt0
                    (ask 9 (JStr "7700000001") active_reply) st) in
  JStr "7700000002" <> JStr "7700000001" /\
  (find_entry (JStr "7700000002") (lru_entries (cache st')) = None \/
   find_entry (JStr "7700000002") (lru_entries (cache st')) =
   find_entry (JStr "7700000002") (lru_entries (cache st))).
Proof.
  intros st st'.
  assert (Hne : JStr "7700000002" <> JStr "7700000001") by discriminate.
  split; [exact Hne|].
  exact (proj1 (request_frame digits_gt0 9 9
                  (inn_body (JStr "7700000001"))
                  (Replied 200 "" (Ok active_reply)) st
                  (JStr "7700000002") Hne)).
Defined.

End CacheProps.

(* ================================================================== *)
(** ** The service: miss, store, hit *)
(* ================================================================== *)

Module ServiceProps.
Import Js Lru Server LruFacts ServerFacts Samples.

(** A hit is always answered with code 200, whatever was cached. *)
Lemma hit_answers_200 (g : string -> bool) (now later : Z)
  (body : list (string * jsval)) (up : fetch_outcome) (st : server) :
  validate_inn (obj_lookup "inn" body) = None ->
  Lru.has now (obj_lookup "inn" body) (cache st) = true ->
  code (fst (verify_inn g now later body up st)) = 200 /\
  upstream_queries (snd (verify_inn g now later body up st)) =
  upstream_queries st.
Proof.
  intros Hv Hh. rewrite (verify_inn_hit g _ _ _ _ _ Hv Hh). split; reflexivity.
Qed.

(** The request that follows a stored result, within the TTL. *)
Lemma verify_inn_after_store (g : string -> bool) (s : string)
  (now2 later later2 : Z) (body : list (string * jsval))
  (up2 : fetch_outcome) (r : jsval) (c : lru) (qs : list jsval) :
  obj_lookup "inn" body = JStr s ->
  validate_inn (JStr s) = None ->
  now2 - later < lru_ttl c ->
  fst (verify_inn g now2 later2 body up2
         {| cache := Lru.set later (JStr s) r c; upstream_queries := qs |})
    = mkResponse 200 r /\
  upstream_queries
    (snd (verify_inn g now2 later2 body up2
            {| cache := Lru.set later (JStr s) r c; upstream_queries := qs |}))
    = qs.
Proof.
  intros Hinn Hv Hwin.
  destruct (has_get_after_set later now2 (JStr s) r c (key_eq_str s) Hwin)
    as [Hh Hg].
  set (st1 := {| cache := Lru.set later (JStr s) r c;
                 upstream_queries := qs |}).
  assert (Hv' : validate_inn (obj_lookup "inn" body) = None)
    by now rewrite Hinn.
  assert (Hh' : Lru.has now2 (obj_lookup "inn" body) (cache st1) = true)
    by now rewrite Hinn.
  rewrite (verify_inn_hit g now2 later2 body up2 st1 Hv' Hh').
  rewrite Hinn. simpl. rewrite Hg. split; reflexivity.
Qed.

(** C6.  After a miss that the provider answers with a body that
    normalises to a result [r] -- whatever its status, the not-found
    result included -- the handler sends [r] and the cache holds [r] under
    the identifier, stamped with the time of storing; until the TTL has
    passed, [has] finds it and [get] returns it. *)
Theorem result_cached_any_status (g : string -> bool) (s : string)
  (now later : Z) (body : list (string * jsval)) (st : server)
  (status : Z) (text : string) (data : jsval) (c : Z) (r : jsval)
  (Hreach : reachable g st)
  (Hinn : obj_lookup "inn" body = JStr s)
  (Hvalid : validate_inn (JStr s) = None)
  (Hmiss : Lru.has now (JStr s) (cache st) = false)
  (Hok : response_ok status = true)
  (Hnorm : normalize g data = Ok (c, r)) :
  let res := verify_inn g now later body (Replied status text (Ok data)) st in
  fst res = mkResponse c r /\
  find_entry (JStr s) (lru_entries (cache (snd res))) =
    Some (mkEntry (JStr s) r later) /\
  (forall t, t - later < CACHE_TTL ->
             Lru.has t (JStr s) (cache (snd res)) = true /\
             fst (Lru.get t (JStr s) (cache (snd res))) = r) /\
  (has_suggestions g data = Ok false ->
   c = 404 /\ r = JObj not_found_result).
Proof.
  intros res. subst res.
  destruct (reachable_cache_inv g st Hreach) as (_ & Httl & _).
  rewrite <- Hinn in Hvalid, Hmiss.
  rewrite (verify_inn_miss_normalized g _ _ _ _ _ _ _ _ _
             Hvalid Hmiss Hok Hnorm).
  rewrite Hinn. cbn [fst snd cache]. split; [reflexivity|]. split; [|split].
  - apply find_entry_set_same, key_eq_str.
  - intros t Ht. apply has_get_after_set; [apply key_eq_str|].
    now rewrite Httl.
  - intros Hnone. unfold normalize in Hnorm. rewrite Hnone in Hnorm.
    simpl in Hnorm. inversion Hnorm. split; reflexivity.
Qed.

Lemma result_cached_any_status_witness :
  let res := verify_inn digits_gt0 0 5 (inn_body (JStr "7700000000"))
               (Replied 200 "" (Ok empty_reply)) init_server in
  fst res = mkResponse 404 (JObj not_found_result) /\
  find_entry (JStr "7700000000") (lru_entries (cache (snd res))) =
    Some (mkEntry (JStr "7700000000") (JObj not_found_result) 5).
Proof.
  intros res.
  destruct (result_cached_any_status digits_gt0 "7700000000" 0 5
              (inn_body (JStr "7700000000")) init_server 200 "" empty_reply
              404 (JObj not_found_result)
              (reach_init digits_gt0) eq_refl eq_refl eq_refl eq_refl eq_refl)
    as (Hresp & Hfind & _).
  split; [exact Hresp|exact Hfind].
Defined.

(** C2.  A valid identifier misses, the provider answers and the answer
    normalises (found or not found); the next request for the same
    identifier, as long as the stored entry is younger than the TTL, is
    answered from the cache with the same result, whatever the provider
    would do, and sends nothing upstream: one upstream call over the two
    requests. *)
Theorem second_call_is_cache_hit (g : string -> bool) (s : string)
  (now later now2 later2 : Z) (body : list (string * jsval)) (st : server)
  (status : Z) (text : string) (data : jsval) (c : Z) (r : jsval)
  (up2 : fetch_outcome)
  (Hreach : reachable g st)
  (Hinn : obj_lookup "inn" body = JStr s)
  (Hvalid : validate_inn (JStr s) = None)
  (Hmiss : Lru.has now (JStr s) (cache st) = false)
  (Hok : response_ok status = true)
  (Hnorm : normalize g data = Ok (c, r))
  (Hwin : now2 - later < CACHE_TTL) :
  let first := verify_inn g now later body (Replied status text (Ok data)) st in
  let second := verify_inn g now2 later2 body up2 (snd first) in
  payload (fst first) = r /\
  payload (fst second) = r /\
  upstream_queries (snd first) = JStr s :: upstream_queries st /\
  upstream_queries (snd second) = upstream_queries (snd first).
Proof.
  intros first second. subst second first.
  destruct (reachable_cache_inv g st Hreach) as (_ & Httl & _).
  pose proof Hvalid as Hv. pose proof Hmiss as Hm.
  rewrite <- Hinn in Hv, Hm.
  rewrite (verify_inn_miss_normalized g _ _ _ _ _ _ _ _ _ Hv Hm Hok Hnorm).
  rewrite Hinn. cbn [fst snd payload upstream_queries].
  rewrite <- Httl in Hwin.
  destruct (verify_inn_after_store g s now2 later later2 body up2 r
              (cache st) (JStr s :: upstream_queries st) Hinn Hvalid Hwin)
    as [H1 H2].
  rewrite H1, H2. repeat split.
Qed.

Lemma second_call_is_cache_hit_witness :
  let first := verify_inn digits_gt0 0 5 (inn_body (JStr "7700000000"))
                 (Replied 200 "" (Ok active_reply)) init_server in
  let second := verify_inn digits_gt0 3600004 3600009
                  (inn_body (JStr "7700000000"))
                  (Rejected (FetchError "network down")) (snd first) in
  payload (fst second) = payload (fst first) /\
  upstream_queries (snd second) = [JStr "7700000000"].
Proof.
  intros first second.
  destruct (second_call_is_cache_hit digits_gt0 "7700000000" 0 5
              3600004 3600009 (inn_body (JStr "7700000000")) init_server
              200 "" active_reply 200
              (payload (fst first))
              (Rejected (FetchError "network down"))
              (reach_init digits_gt0) eq_refl eq_refl eq_refl eq_refl
              eq_refl eq_refl)
    as (H1 & H2 & H3 & H4).
  fold first in H1, H2, H3, H4. fold second in H2, H4.
  split; [congruence|]. rewrite H4, H3. reflexivity.
Defined.

(** C3.  What the handler does for an identifier the registry does not
    know: the request that misses the cache is answered 404 with the
    not-found result; the same request repeated while the entry is younger
    than the TTL is answered from the cache with the same body and with
    code 200, not 404. *)
Theorem cached_not_found_answers_200 (g : string -> bool) (s : string)
  (now later now2 later2 : Z) (body : list (string * jsval)) (st : server)
  (status : Z) (text : string) (data : jsval) (up2 : fetch_outcome)
  (Hreach : reachable g st)
  (Hinn : obj_lookup "inn" body = JStr s)
  (Hvalid : validate_inn (JStr s) = None)
  (Hmiss : Lru.has now (JStr s) (cache st) = false)
  (Hok : response_ok status = true)
  (Hnone : has_suggestions g data = Ok false)
  (Hwin : now2 - later < CACHE_TTL) :
  let first := verify_inn g now later body (Replied status text (Ok data)) st in
  let second := verify_inn g now2 later2 body up2 (snd first) in
  fst first = mkResponse 404 (JObj not_found_result) /\
  fst second = mkResponse 200 (JObj not_found_result).
Proof.
  intros first second. subst second first.
  destruct (reachable_cache_inv g st Hreach) as (_ & Httl & _).
  assert (Hnorm : normalize g data = Ok (404, JObj not_found_result)).
  { unfold normalize. now rewrite Hnone. }
  pose proof Hvalid as Hv. pose proof Hmiss as Hm.
  rewrite <- Hinn in Hv, Hm.
  rewrite (verify_inn_miss_normalized g _ _ _ _ _ _ _ _ _ Hv Hm Hok Hnorm).
  rewrite Hinn. cbn [fst snd]. split; [reflexivity|].
  rewrite <- Httl in Hwin.
  apply (verify_inn_after_store g s now2 later later2 body up2
           (JObj not_found_result) (cache st)
           (JStr s :: upstream_queries st) Hinn Hvalid Hwin).
Qed.

Lemma cached_not_found_answers_200_witness :
  let first := verify_inn digits_gt0 0 5 (inn_body (JStr "7700000000"))
                 (Replied 200 "" (Ok empty_reply)) init_server in
  let second := verify_inn digits_gt0 10 15 (inn_body (JStr "7700000000"))
                  (Replied 200 "" (Ok empty_reply)) (snd first) in
  code (fst first) = 404 /\ code (fst second) = 200 /\
  payload (fst second) = payload (fst first).
Proof.
  intros first second.
  destruct (cached_not_found_answers_200 digits_gt0 "7700000000" 0 5 10 15
              (inn_body (JStr "7700000000")) init_server 200 "" empty_reply
              (Replied 200 "" (Ok empty_reply))
              (reach_init digits_gt0) eq_refl eq_refl eq_refl eq_refl
              eq_refl eq_refl)
    as (H1 & H2).
  fold first in H1, H2. fold second in H2.
  rewrite H1, H2. repeat split.
Defined.

(** C5, as the specification states it, fails: a provider reply with a
    status outside 2xx is passed on with that very status, which need not
    be in the 5xx class. *)
Lemma upstream_status_passed_through :
  let r := verify_inn digits_gt0 0 5 (inn_body (JStr "7700000000"))
             (Replied 403 "Forbidden" (Throw (SyntaxError "Unexpected token")))
             init_server in
  transport_failure digits_gt0
    (Replied 403 "Forbidden" (Throw (SyntaxError "Unexpected token"))) = true /\
  code (fst r) = 403 /\
  ~ (500 <= code (fst r) <= 599).
Proof.
  cbv zeta. split; [reflexivity|]. split; [reflexivity|].
  intros [H _]. apply H. reflexivity.
Qed.

(** C5, amended.  When a valid identifier misses the cache and the
    provider cannot be used, the cache is left exactly as it was; the
    answer is an error object with [message] and [details]: with the
    provider's own status and body text when the provider replied outside
    2xx, with code 500 and the error's message when [fetch] rejected or
    the body could not be parsed or normalised; and any request for the
    same identifier at a later clock reading calls the provider again. *)
Theorem transport_failure_not_cached (g : string -> bool) (s : string)
  (now later : Z) (body : list (string * jsval)) (st : server)
  (up : fetch_outcome)
  (Hinn : obj_lookup "inn" body = JStr s)
  (Hvalid : validate_inn (JStr s) = None)
  (Hmiss : Lru.has now (JStr s) (cache st) = false)
  (Hfail : transport_failure g up = true) :
  let res := verify_inn g now later body up st in
  cache (snd res) = cache st /\
  upstream_queries (snd res) = JStr s :: upstream_queries st /\
  match up with
  | Rejected e =>
      fst res = mkResponse 500 (message_details MSG_INTERNAL (error_message e))
  | Replied status text _ =>
      if response_ok status
      then exists e,
             fst res =
             mkResponse 500 (message_details MSG_INTERNAL (error_message e))
      else fst res = mkResponse status (message_details MSG_UPSTREAM text)
  end /\
  (forall now2 later2 up2,
     now <= now2 ->
     upstream_queries (snd (verify_inn g now2 later2 body up2 (snd res))) =
     JStr s :: JStr s :: upstream_queries st).
Proof.
  intros res.
  pose proof Hvalid as Hv. pose proof Hmiss as Hm.
  rewrite <- Hinn in Hv, Hm.
  assert (Hres :
    res = match up with
          | Replied status text _ =>
              if response_ok status
              then (mkResponse 500
                      (message_details MSG_INTERNAL
                         (error_message
                            match up with
                            | Replied _ _ (Throw e) => e
                            | Replied _ _ (Ok data) =>
                                match normalize g data with
                                | Throw e => e
                                | Ok _ => TypeError ""
                                end
                            | Rejected e => e
                            end)),
                    sent_upstream (JStr s) st)
              else (mkResponse status (message_details MSG_UPSTREAM text),
                    sent_upstream (JStr s) st)
          | Rejected e =>
              (mkResponse 500 (message_details MSG_INTERNAL (error_message e)),
               sent_upstream (JStr s) st)
          end).
  { subst res. rewrite (verify_inn_miss g _ _ _ _ _ Hv Hm), Hinn.
    unfold answer_from_upstream.
    destruct up as [e|status text json]; [reflexivity|].
    simpl in Hfail. destruct (response_ok status); simpl in *; [|reflexivity].
    destruct json as [data|e]; simpl; [|reflexivity].
    rewrite answer_from_data_normalize.
    destruct (normalize g data) as [[c r]|e]; [discriminate|reflexivity]. }
  assert (Hcache : cache (snd res) = cache st).
  { rewrite Hres. destruct up as [e|status text json]; [reflexivity|].
    now destruct (response_ok status). }
  assert (Hlog : upstream_queries (snd res) = JStr s :: upstream_queries st).
  { rewrite Hres. destruct up as [e|status text json]; [reflexivity|].
    now destruct (response_ok status). }
  split; [exact Hcache|]. split; [exact Hlog|]. split.
  - rewrite Hres. destruct up as [e|status text json]; [reflexivity|].
    destruct (response_ok status); [eexists|]; reflexivity.
  - intros now2 later2 up2 Hle.
    assert (Hm2 : Lru.has now2 (obj_lookup "inn" body) (cache (snd res))
                  = false).
    { rewrite Hcache. now apply has_false_later with (now := now). }
    destruct (verify_inn_queries g now2 later2 body up2 (snd res)) as [Hq|Hq].
    + exfalso. revert Hq. unfold verify_inn. rewrite Hv, Hm2.
      unfold answer_from_upstream.
      assert (Hneq : forall (q : jsval) (l : list jsval), q :: l <> l).
      { intros q l Hql. apply (f_equal (@List.length jsval)) in Hql.
        simpl in Hql. lia. }
      destruct up2 as [e|status text json]; [apply Hneq|].
      destruct (response_ok status); simpl; [|apply Hneq].
      destruct json as [data|e]; simpl; [|apply Hneq].
      rewrite answer_from_data_normalize.
      destruct (normalize g data) as [[c r]|e]; apply Hneq.
    + rewrite Hq, Hlog, Hinn. reflexivity.
Qed.

Lemma transport_failure_not_cached_witness :
  let res := verify_inn digits_gt0 0 5 (inn_body (JStr "7700000000"))
               (Replied 403 "Forbidden" (Throw (SyntaxError "Unexpected token")))
               init_server in
  cache (snd res) = new_cache /\
  fst res = mkResponse 403 (message_details MSG_UPSTREAM "Forbidden") /\
  upstream_queries
    (snd (verify_inn digits_gt0 7 9 (inn_body (JStr "7700000000"))
            (Replied 200 "" (Ok active_reply)) (snd res))) =
  [JStr "7700000000"; JStr "7700000000"].
Proof.
  intros res.
  destruct (transport_failure_not_cached digits_gt0 "7700000000" 0 5
              (inn_body (JStr "7700000000")) init_server
              (Replied 403 "Forbidden" (Throw (SyntaxError "Unexpected token")))
              eq_refl eq_refl eq_refl eq_refl)
    as (Hc & _ & Hcode & Hnext).
  fold res in Hc, Hcode, Hnext.
  split; [exact Hc|]. split; [exact Hcode|].
  apply Hnext. lia.
Defined.

End ServiceProps.

(* ================================================================== *)
(** ** More on the normalisation *)
(* ================================================================== *)

Module NormalizerExtra.
Import Js Lru Server Resolution LruFacts ServerFacts Samples.

Lemma truthy_not_nullish (v : jsval) :
  truthy v = true -> nullish v = false.
Proof. destruct v; simpl; congruence. Qed.

Lemma get_index_item0 (v : jsval) :
  get_index v 0 =
  if nullish v then Throw (cannot_read v "0") else Ok (item0 v).
Proof.
  unfold item0. destruct v; simpl; try reflexivity.
  destruct s; reflexivity.
Qed.

(** The [okved] chain never throws on a candidate that is an object. *)
Lemma okved_chain (cd : jsval) :
  nullish cd = false ->
  or_else (get_prop cd "okved")
    (and_then (and_then
       (get_prop cd "okveds")
       (okveds <- get_prop cd "okveds" ;; get_index okveds 0))
       (okveds <- get_prop cd "okveds" ;;
        first <- get_index okveds 0 ;;
        get_prop first "name")) = Ok (okved_value cd).
Proof.
  intros Hcd. unfold okved_value, or_else, and_then.
  rewrite !get_prop_member, Hcd. cbn [bind].
  destruct (truthy (member cd "okved")); [reflexivity|].
  destruct (truthy (member cd "okveds")) eqn:Hs; cbn [bind];
    [|now rewrite Hs].
  rewrite !get_index_item0, (truthy_not_nullish _ Hs). cbn [bind].
  destruct (truthy (item0 (member cd "okveds"))) eqn:H0; [|reflexivity].
  rewrite get_prop_member, (truthy_not_nullish _ H0). reflexivity.
Qed.

(** The result of a candidate with all the members the literal reads. *)
Lemma company_result_ok (cd : jsval) (s : string) :
  nullish cd = false ->
  nullish (member cd "name") = false ->
  nullish (member cd "address") = false ->
  nullish (member cd "state") = false ->
  member (member cd "state") "status" = JStr s ->
  company_result cd =
  Ok (found_fields (name_value cd) (ogrn_value cd)
        (member (member cd "address") "value") (okved_value cd)
        (lower_string s)).
Proof.
  intros Hcd Hname Haddr Hstate Hstatus. unfold company_result.
  rewrite !get_path2_member, Hcd, Hname, Haddr, Hstate, or_else_chain.
  rewrite (okved_chain cd Hcd).
  rewrite !get_prop_member, Hcd, or_else_ok, Hstatus.
  cbn [bind to_lower_case]. unfold strict_neq_str, found_fields.
  fold (name_value cd).
  replace (if truthy (member cd "ogrn") then Ok (member cd "ogrn")
           else Ok (member cd "ogrnip")) with (Ok (ogrn_value cd))
    by (unfold ogrn_value; now destruct (truthy (member cd "ogrn"))).
  cbn [bind].
  destruct (String.eqb (lower_string s) "active"); reflexivity.
Qed.

(** What a candidate must have for the literal to be built. *)
Lemma company_result_needs (cd : jsval) (fields : list (string * jsval)) :
  company_result cd = Ok fields ->
  nullish cd = false /\
  nullish (member cd "name") = false /\
  nullish (member cd "address") = false /\
  nullish (member cd "state") = false /\
  exists s, member (member cd "state") "status" = JStr s.
Proof.
  intros H. unfold company_result in H.
  apply bind_ok in H. destruct H as (name & Hname & H).
  apply bind_ok in H. destruct H as (ogrn & _ & H).
  apply bind_ok in H. destruct H as (address & Haddr & H).
  apply bind_ok in H. destruct H as (okved & _ & H).
  apply bind_ok in H. destruct H as (state & Hstate & _).
  rewrite !get_path2_member in Hname. rewrite get_path2_member in Haddr.
  apply bind_ok in Hstate. destruct Hstate as (status & Hst & Hlow).
  rewrite get_path2_member in Hst.
  destruct (nullish cd); [discriminate|].
  destruct (nullish (member cd "name")); [discriminate|].
  destruct (nullish (member cd "address")); [discriminate|].
  destruct (nullish (member cd "state")); [discriminate|].
  repeat split. inversion Hst; subst status.
  destruct (member (member cd "state") "status"); try discriminate.
  now eexists.
Qed.

(** X1.  The result literal can be built exactly for a candidate that is
    an object with [name], [address] and [state] objects and a string
    [state.status]; for every other candidate a read throws (and the
    handler answers 500). *)
Theorem company_result_succeeds_iff (cd : jsval) :
  (exists fields, company_result cd = Ok fields) <->
  (nullish cd = false /\
   nullish (member cd "name") = false /\
   nullish (member cd "address") = false /\
   nullish (member cd "state") = false /\
   exists s, member (member cd "state") "status" = JStr s).
Proof.
  split.
  - intros [fields H]. now apply company_result_needs with (fields := fields).
  - intros (Hcd & Hname & Haddr & Hstate & s & Hs).
    eexists. now apply company_result_ok with (s := s).
Qed.


Lemma company_result_succeeds_iff_witness :
  (exists fields,
     company_result
       (JObj [("name", JObj []); ("address", JObj []);
              ("state", JObj [("status", JStr "ACTIVE")])]) = Ok fields) /\
  ~ (exists fields,
       company_result
         (JObj [("name", JNull); ("address", JObj []);
                ("state", JObj [("status", JStr "ACTIVE")])]) = Ok fields) /\
  ~ (exists fields,
       company_result
         (JObj [("name", JObj []); ("address", JObj []);
                ("state", JObj [("status", JNum 1)])]) = Ok fields).
Proof.
  split; [|split].
  - apply company_result_succeeds_iff. repeat split. now exists "ACTIVE".
  - intros H. apply company_result_succeeds_iff in H.
    destruct H as (_ & Hname & _). discriminate.
  - intros H. apply company_result_succeeds_iff in H.
    destruct H as (_ & _ & _ & _ & s & Hs). discriminate.
Defined.


End NormalizerExtra.

(* ================================================================== *)
(** ** More on the handler *)
(* ================================================================== *)

Module HandlerExtra.
Import Js Lru Server Resolution LruFacts ServerFacts Samples NormalizerExtra.

Lemma member_nullish (v : jsval) (name : string) :
  nullish v = true -> member v name = JUndefined.
Proof. unfold member. destruct v; simpl; congruence. Qed.

(** Normalising a reply whose [suggestions] is a non-empty array. *)
Lemma normalize_array (g : string -> bool) (data x : jsval)
  (rest : list jsval) :
  member data "suggestions" = JArr (x :: rest) ->
  normalize g data =
  (cd <- get_prop x "data" ;;
   fields <- company_result cd ;;
   Ok (200, JObj fields)).
Proof.
  intros Hs.
  assert (Hd : nullish data = false).
  { destruct (nullish data) eqn:Hn; [|reflexivity].
    rewrite (member_nullish data "suggestions" Hn) in Hs. discriminate. }
  unfold normalize, has_suggestions.
  rewrite !get_prop_member, Hd. cbn [bind]. rewrite Hs.
  cbn [truthy get_prop String.eqb Ascii.eqb Bool.eqb bind js_gt0
       get_index nth List.length].
  replace (0 <? Z.of_nat (S (List.length rest))) with true
    by (symmetry; apply Z.ltb_lt; lia).
  now rewrite ?get_prop_member.
Qed.

(** X3.  Only the first candidate counts: two replies whose [suggestions]
    arrays start with the same element normalise to the same outcome,
    whatever follows it. *)
Theorem normalize_first_candidate (g : string -> bool)
  (data data' x : jsval) (rest rest' : list jsval)
  (Hs : member data "suggestions" = JArr (x :: rest))
  (Hs' : member data' "suggestions" = JArr (x :: rest')) :
  normalize g data = normalize g data'.
Proof.
  now rewrite (normalize_array g data x rest Hs),
              (normalize_array g data' x rest' Hs').
Qed.

Lemma normalize_first_candidate_witness :
  normalize digits_gt0
    (JObj [("suggestions",
            JArr [party romashka_names JNull "LIQUIDATING";
                  party romashka_names (JStr "1027700000000") "ACTIVE"])]) =
  normalize digits_gt0 liquidating_reply.
Proof.
  apply (normalize_first_candidate digits_gt0 _ _
           (party romashka_names JNull "LIQUIDATING")
           [party romashka_names (JStr "1027700000000") "ACTIVE"] []);
    reflexivity.
Defined.

(** X4.  The answers of the handler, by status code: 400 with a bare
    validation message and the state untouched; 200 (a hit, or a found
    candidate); 404 with the not-found result; 500 with the internal
    message and the error's text; or the provider's own non-2xx status
    with the upstream message and the provider's body text.  The handler
    sets no other code. *)
Theorem response_code_table (g : string -> bool) (now later : Z)
  (body : list (string * jsval)) (up : fetch_outcome) (st : server) :
  let res := verify_inn g now later body up st in
  (code (fst res) = 400 /\ snd res = st /\
   (payload (fst res) = message_only MSG_MISSING \/
    payload (fst res) = message_only MSG_FORMAT)) \/
  (code (fst res) = 200 /\
   (Lru.has now (obj_lookup "inn" body) (cache st) = true \/
    exists name ogrn address okved s,
      payload (fst res) = JObj (found_fields name ogrn address okved s))) \/
  (code (fst res) = 404 /\ payload (fst res) = JObj not_found_result) \/
  (code (fst res) = 500 /\
   exists e, payload (fst res) =
             message_details MSG_INTERNAL (error_message e)) \/
  (exists status text json,
     up = Replied status text json /\ response_ok status = false /\
     fst res = mkResponse status (message_details MSG_UPSTREAM text)).
Proof.
  intros res. subst res. unfold verify_inn.
  destruct (validate_inn (obj_lookup "inn" body)) as [m|] eqn:Hv.
  { left. split; [reflexivity|]. split; [reflexivity|].
    unfold validate_inn in Hv.
    destruct (negb (truthy (obj_lookup "inn" body)));
      [inversion Hv; now left|].
    destruct (negb (inn_regex_test (obj_lookup "inn" body)));
      [inversion Hv; now right|discriminate]. }
  right.
  destruct (Lru.has now (obj_lookup "inn" body) (cache st)) eqn:Hh.
  { left. destruct (Lru.get now (obj_lookup "inn" body) (cache st)).
    split; [reflexivity|now left]. }
  unfold answer_from_upstream.
  destruct up as [e|status text json].
  { right; right; left. split; [reflexivity|]. now exists e. }
  destruct (response_ok status) eqn:Hok; simpl.
  2:{ right; right; right. now exists status, text, json. }
  destruct json as [data|e]; simpl.
  2:{ right; right; left. split; [reflexivity|]. now exists e. }
  rewrite answer_from_data_normalize.
  destruct (normalize g data) as [[c r]|e] eqn:Hn; simpl.
  2:{ right; right; left. split; [reflexivity|]. now exists e. }
  destruct (normalize_cases g data c r Hn)
    as [(_ & -> & name & ogrn & address & okved & s & ->)|(_ & -> & ->)].
  - left. split; [reflexivity|]. right.
    now exists name, ogrn, address, okved, s.
  - right; left. split; reflexivity.
Qed.

(** What one request does to the cache and to the upstream log. *)
Lemma verify_inn_effect (g : string -> bool) (now later : Z)
  (body : list (string * jsval)) (up : fetch_outcome) (st : server) :
  let inn := obj_lookup "inn" body in
  let st' := snd (verify_inn g now later body up st) in
  (st' = st) \/
  (validate_inn inn = None /\ cache st' = cache st /\
   upstream_queries st' = inn :: upstream_queries st) \/
  (Lru.has now inn (cache st) = true /\
   cache st' = snd (Lru.get now inn (cache st)) /\
   upstream_queries st' = upstream_queries st) \/
  (exists data c r,
     validate_inn inn = None /\ normalize g data = Ok (c, r) /\
     cache st' = Lru.set later inn r (cache st) /\
     upstream_queries st' = inn :: upstream_queries st).
Proof.
  intros inn st'. subst st'. unfold verify_inn. fold inn.
  destruct (validate_inn inn) eqn:Hv; [now left|].
  destruct (Lru.has now inn (cache st)) eqn:Hh.
  { right; right; left. split; [reflexivity|].
    now destruct (Lru.get now inn (cache st)). }
  unfold answer_from_upstream.
  destruct up as [e|status text json]; [right; left; now repeat split|].
  destruct (response_ok status); simpl; [|right; left; now repeat split].
  destruct json as [data|e]; simpl; [|right; left; now repeat split].
  rewrite answer_from_data_normalize.
  destruct (normalize g data) as [[c r]|e] eqn:Hn; simpl;
    [|right; left; now repeat split].
  right; right; right. now exists data, c, r.
Qed.

Lemma normalize_known_result (g : string -> bool) (data : jsval) (c : Z)
  (r : jsval) :
  normalize g data = Ok (c, r) -> known_result r.
Proof.
  intros Hn. destruct (normalize_cases g data c r Hn)
    as [(_ & _ & name & ogrn & address & okved & s & ->)|(_ & _ & ->)].
  - right. now exists name, ogrn, address, okved, s.
  - now left.
Qed.

Lemma In_get_entries (now : Z) (k : jsval) (c : lru) (e : entry) :
  In e (lru_entries (snd (Lru.get now k c))) -> In e (lru_entries c).
Proof.
  unfold Lru.get. destruct (find_entry k (lru_entries c)) as [e0|] eqn:Hf;
    [|auto].
  destruct (fresh c now e0); simpl.
  - intros [<-|H]; [now apply find_entry_key in Hf|].
    now apply In_remove_key in H.
  - apply In_remove_key.
Qed.

Lemma In_set_entries (now : Z) (k v : jsval) (c : lru) (e : entry) :
  In e (lru_entries (Lru.set now k v c)) ->
  e = mkEntry k v now \/ In e (lru_entries c).
Proof.
  unfold Lru.set. simpl. intros [<-|H]; [now left|right].
  apply In_remove_key with (k := k).
  destruct (lru_max c <=? _)%nat; [now apply In_removelast|exact H].
Qed.

Lemma size_set_le_S (now : Z) (k v : jsval) (c : lru) :
  (size (Lru.set now k v c) <= S (size c))%nat.
Proof.
  unfold Lru.set, size. simpl.
  pose proof (length_remove_key k (lru_entries c)).
  pose proof (length_removelast_le (remove_key k (lru_entries c))).
  destruct (lru_max c <=? _)%nat; lia.
Qed.

(** Every entry of the cache is for a validated identifier that was sent
    upstream, and holds a result the handler built; everything sent
    upstream had passed the guards. *)
Lemma reachable_entries_ok (g : string -> bool) (st : server) :
  reachable g st ->
  (forall e, In e (lru_entries (cache st)) -> entry_ok st e) /\
  (forall q, In q (upstream_queries st) -> validate_inn q = None) /\
  (size (cache st) <= List.length (upstream_queries st))%nat.
Proof.
  induction 1 as [|st now later body up _ (IHe & IHq & IHs)].
  { split; [intros e []|]. split; [intros q []|]. unfold size. simpl. lia. }
  destruct (verify_inn_effect g now later body up st)
    as [Heq|[(Hv & Hc & Hq)|[(Hh & Hc & Hq)|(data & c & r & Hv & Hn & Hc & Hq)]]].
  - rewrite Heq. split; [exact IHe|split; [exact IHq|exact IHs]].
  - split; [|split].
    + intros e He. rewrite Hc in He. destruct (IHe e He) as (H1 & H2 & H3).
      repeat split; auto. rewrite Hq. now right.
    + intros q Hin. rewrite Hq in Hin. destruct Hin as [<-|Hin]; auto.
    + rewrite Hq. unfold size in *. rewrite Hc. simpl. lia.
  - split; [|split].
    + intros e He. rewrite Hc in He. apply In_get_entries in He.
      destruct (IHe e He) as (H1 & H2 & H3). repeat split; auto.
      now rewrite Hq.
    + intros q Hin. rewrite Hq in Hin. auto.
    + rewrite Hq, Hc.
      pose proof (size_get now (obj_lookup "inn" body) (cache st)). lia.
  - split; [|split].
    + intros e He. rewrite Hc in He. apply In_set_entries in He.
      destruct He as [->|He].
      * repeat split; simpl; [exact Hv|rewrite Hq; now left|].
        now apply normalize_known_result with (g := g) (data := data) (c := c).
      * destruct (IHe e He) as (H1 & H2 & H3). repeat split; auto.
        rewrite Hq. now right.
    + intros q Hin. rewrite Hq in Hin. destruct Hin as [<-|Hin]; auto.
    + rewrite Hq, Hc. simpl.
      pose proof (size_set_le_S later (obj_lookup "inn" body) r (cache st)).
      lia.
Qed.

(** X5.  In every state the server can reach: each cache entry is keyed
    by a value that passed the guards and was sent upstream, and holds a
    result the handler built (the not-found result or a found one);
    nothing was ever sent upstream that had not passed the guards; and the
    cache holds no more entries than upstream calls were made. *)
Theorem cache_holds_upstream_answers (g : string -> bool) (st : server)
  (H : reachable g st) :
  (forall e, In e (lru_entries (cache st)) ->
             validate_inn (e_key e) = None /\
             In (e_key e) (upstream_queries st) /\
             known_result (e_value e)) /\
  (forall q, In q (upstream_queries st) ->
             truthy q = true /\ inn_regex_test q = true) /\
  (size (cache st) <= List.length (upstream_queries st))%nat.
Proof.
  destruct (reachable_entries_ok g st H) as (He & Hq & Hs).
  split; [exact He|]. split; [|exact Hs].
  intros q Hin. specialize (Hq q Hin). unfold validate_inn in Hq.
  destruct (truthy q); [|discriminate].
  destruct (inn_regex_test q); [|discriminate]. split; reflexivity.
Qed.

Lemma cache_holds_upstream_answers_witness :
  let st := serve digits_gt0
              [ask 0 (JStr "7700000000") active_reply;
               mkRequest 1 2 (inn_body (JStr "12"))
                 (Replied 200 "" (Ok active_reply));
               mkRequest 3 4 (inn_body (JNum 770000000012))
                 (Rejected (FetchError "down"))]
              init_server in
  upstream_queries st = [JNum 770000000012; JStr "7700000000"] /\
  map e_key (lru_entries (cache st)) = [JStr "7700000000"] /\
  (size (cache st) <= List.length (upstream_queries st))%nat /\
  Forall (fun q => truthy q = true /\ inn_regex_test q = true)
    (upstream_queries st).
Proof.
  intros st.
  destruct (cache_holds_upstream_answers digits_gt0 st
              (reachable_serve digits_gt0 _ init_server
                 (reach_init digits_gt0)))
    as (_ & Hq & Hs).
  split; [reflexivity|]. split; [reflexivity|]. split; [exact Hs|].
  apply Forall_forall. exact Hq.
Defined.

Lemma known_messages_nonempty (m : string) :
  In m known_messages -> m <> "".
Proof.
  unfold known_messages. simpl.
  intros [<-|[<-|[<-|[<-|[<-|[<-|[<-|[]]]]]]]]; discriminate.
Qed.

Lemma known_result_message (r : jsval) :
  known_result r ->
  exists fields m,
    r = JObj fields /\ obj_lookup "message" fields = JStr m /\
    In m known_messages /\ result_invariant r.
Proof.
  intros [->|(name & ogrn & address & okved & s & ->)].
  - exists not_found_result, MSG_NOT_FOUND. split; [reflexivity|].
    split; [reflexivity|]. split; [|apply not_found_result_invariant].
    unfold known_messages. simpl. tauto.
  - eexists _, (if String.eqb s "active" then MSG_FOUND else MSG_INACTIVE).
    split; [reflexivity|]. split; [|split; [|apply found_result_invariant]].
    + unfold found_fields. now destruct (String.eqb s "active").
    + unfold known_messages. destruct (String.eqb s "active"); simpl; tauto.
Qed.

(** X6.  Every answer of the handler, fresh or served from the cache, is
    an object whose [message] is one of the handler's seven fixed,
    non-empty texts; and when the object has a [status] member it is a
    result that satisfies the status invariant. *)
Theorem every_answer_has_message (g : string -> bool) (now later : Z)
  (body : list (string * jsval)) (up : fetch_outcome) (st : server)
  (H : reachable g st) :
  let resp := fst (verify_inn g now later body up st) in
  exists fields m,
    payload resp = JObj fields /\
    obj_lookup "message" fields = JStr m /\
    In m known_messages /\ m <> "" /\
    (has_field "status" fields = true -> result_invariant (payload resp)).
Proof.
  intros resp.
  assert (Hmsg : forall m d,
            In m known_messages ->
            (payload resp = message_only m \/
             payload resp = message_details m d) ->
            exists fields m,
              payload resp = JObj fields /\
              obj_lookup "message" fields = JStr m /\
              In m known_messages /\ m <> "" /\
              (has_field "status" fields = true ->
               result_invariant (payload resp))).
  { intros m d Hin [Hp|Hp]; rewrite Hp; eexists _, m;
      (split; [reflexivity|]); (split; [reflexivity|]);
      (split; [exact Hin|]);
      (split; [now apply known_messages_nonempty|]); discriminate. }
  assert (Hres : known_result (payload resp) ->
            exists fields m,
              payload resp = JObj fields /\
              obj_lookup "message" fields = JStr m /\
              In m known_messages /\ m <> "" /\
              (has_field "status" fields = true ->
               result_invariant (payload resp))).
  { intros Hk. destruct (known_result_message _ Hk)
      as (fields & m & Hp & Hm & Hin & Hinv).
    exists fields, m. rewrite Hp in *. repeat split; auto.
    now apply known_messages_nonempty. }
  revert Hmsg Hres. subst resp. unfold verify_inn.
  destruct (validate_inn (obj_lookup "inn" body)) as [m|] eqn:Hv;
    cbn [fst payload]; intros Hmsg Hres.
  { apply (Hmsg m ""); [|now left]. unfold validate_inn in Hv.
    unfold known_messages.
    destruct (negb (truthy (obj_lookup "inn" body)));
      [inversion Hv; simpl; tauto|].
    destruct (negb (inn_regex_test (obj_lookup "inn" body)));
      [inversion Hv; simpl; tauto|discriminate]. }
  destruct (Lru.has now (obj_lookup "inn" body) (cache st)) eqn:Hh.
  { apply has_get in Hh. destruct Hh as (e & Hf & Hg).
    rewrite Hg in *. cbn [fst payload] in *. apply Hres.
    apply find_entry_key in Hf. destruct Hf as [_ Hin].
    now apply (proj1 (reachable_entries_ok g st H) e Hin). }
  revert Hmsg Hres. unfold answer_from_upstream.
  destruct up as [e|status text json]; cbn [fst payload].
  { intros Hmsg _. apply (Hmsg MSG_INTERNAL (error_message e));
      [unfold known_messages; simpl; tauto|now right]. }
  destruct (response_ok status); simpl.
  2:{ intros Hmsg _. apply (Hmsg MSG_UPSTREAM text);
        [unfold known_messages; simpl; tauto|now right]. }
  destruct json as [data|e]; simpl.
  2:{ intros Hmsg _. apply (Hmsg MSG_INTERNAL (error_message e));
        [unfold known_messages; simpl; tauto|now right]. }
  rewrite answer_from_data_normalize.
  destruct (normalize g data) as [[c r]|e] eqn:Hn; simpl.
  2:{ intros Hmsg _. apply (Hmsg MSG_INTERNAL (error_message e));
        [unfold known_messages; simpl; tauto|now right]. }
  intros _ Hres. apply Hres.
  now apply normalize_known_result with (g := g) (data := data) (c := c).
Qed.

Lemma every_answer_has_message_witness :
  let first := verify_inn digits_gt0 0 5 (inn_body (JStr "7700000000"))
                 (Replied 200 "" (Ok liquidating_reply)) init_server in
  let second := verify_inn digits_gt0 6 7 (inn_body (JStr "7700000000"))
                  (Rejected (FetchError "down")) (snd first) in
  exists fields m,
    payload (fst second) = JObj fields /\
    obj_lookup "message" fields = JStr m /\ m <> "" /\
    result_invariant (payload (fst second)).
Proof.
  intros first second.
  destruct (every_answer_has_message digits_gt0 6 7
              (inn_body (JStr "7700000000")) (Rejected (FetchError "down"))
              (snd first)
              (reach_request digits_gt0 init_server 0 5
                 (inn_body (JStr "7700000000"))
                 (Replied 200 "" (Ok liquidating_reply))
                 (reach_init digits_gt0)))
    as (fields & m & Hp & Hm & _ & Hne & Hinv).
  fold first in Hp, Hinv. fold second in Hp, Hinv.
  exists fields, m. repeat split; auto. apply Hinv.
  assert (Hf : payload (fst second) = JObj (found_fields
            (JStr "OOO Romashka") (JStr "304500116000157") (JStr "Moscow")
            (JStr "62.01") "liquidating")) by reflexivity.
  rewrite Hf in Hp. inversion Hp. reflexivity.
Defined.

(** X7.  Once the entry of an identifier is older than the TTL, a request
    for it goes upstream again; when the provider answers, the new result
    is sent, and it replaces the expired entry under a new time stamp
    without the cache growing. *)
Theorem expired_entry_refreshed (g : string -> bool) (s : string)
  (now later : Z) (body : list (string * jsval)) (st : server)
  (status : Z) (text : string) (data : jsval) (c : Z) (r : jsval)
  (e : entry)
  (Hreach : reachable g st)
  (Hinn : obj_lookup "inn" body = JStr s)
  (Hvalid : validate_inn (JStr s) = None)
  (Hfound : find_entry (JStr s) (lru_entries (cache st)) = Some e)
  (Hold : CACHE_TTL < now - e_inserted e)
  (Hok : response_ok status = true)
  (Hnorm : normalize g data = Ok (c, r)) :
  let res := verify_inn g now later body (Replied status text (Ok data)) st in
  fst res = mkResponse c r /\
  upstream_queries (snd res) = JStr s :: upstream_queries st /\
  find_entry (JStr s) (lru_entries (cache (snd res))) =
    Some (mkEntry (JStr s) r later) /\
  (size (cache (snd res)) <= size (cache st))%nat.
Proof.
  intros res. subst res.
  destruct (reachable_cache_inv g st Hreach) as (Hmax & Httl & Hsize).
  assert (Hmiss : Lru.has now (JStr s) (cache st) = false).
  { unfold Lru.has, fresh. rewrite Hfound, Httl. apply Z.ltb_ge. lia. }
  rewrite <- Hinn in Hvalid, Hmiss.
  rewrite (verify_inn_miss_normalized g _ _ _ _ _ _ _ _ _
             Hvalid Hmiss Hok Hnorm).
  rewrite Hinn. cbn [fst snd cache upstream_queries].
  split; [reflexivity|]. split; [reflexivity|].
  split; [apply find_entry_set_same, key_eq_str|].
  unfold Lru.set, size in *. simpl.
  pose proof (length_remove_found _ _ _ Hfound) as Hlen.
  destruct (Nat.leb_spec (lru_max (cache st))
              (List.length (remove_key (JStr s) (lru_entries (cache st)))));
    [|lia].
  rewrite Hmax in *. lia.
Qed.

Lemma expired_entry_refreshed_witness :
  let first := verify_inn digits_gt0 0 5 (inn_body (JStr "7700000000"))
                 (Replied 200 "" (Ok empty_reply)) init_server in
  let res := verify_inn digits_gt0 3600006 3600009
               (inn_body (JStr "7700000000"))
               (Replied 200 "" (Ok active_reply)) (snd first) in
  code (fst res) = 200 /\
  upstream_queries (snd res) = [JStr "7700000000"; JStr "7700000000"] /\
  size (cache (snd res)) = 1%nat.
Proof.
  intros first res.
  destruct (expired_entry_refreshed digits_gt0 "7700000000" 3600006 3600009
              (inn_body (JStr "7700000000")) (snd first) 200 "" active_reply
              200 (payload (fst res))
              (mkEntry (JStr "7700000000") (JObj not_found_result) 5)
              (reach_request digits_gt0 init_server 0 5
                 (inn_body (JStr "7700000000"))
                 (Replied 200 "" (Ok empty_reply)) (reach_init digits_gt0))
              eq_refl eq_refl eq_refl)
    as (Hresp & Hq & _ & Hsize);
    [reflexivity|reflexivity|reflexivity|].
  fold first in Hresp, Hq, Hsize. fold res in Hresp, Hq, Hsize.
  split; [now rewrite Hresp|]. split; [exact Hq|].
  assert (Hpos : size (cache (snd res)) <> O) by (vm_compute; discriminate).
  assert (Hone : size (cache (snd first)) = 1%nat) by reflexivity.
  lia.
Defined.

Lemma find_entry_array (items : list jsval) (l : list entry) :
  find_entry (JArr items) l = None.
Proof. induction l as [|e l IH]; simpl; auto. Qed.

(** X8.  An array that passes the guards (its rendering is 10 or 12
    digits) never hits the cache: whatever the state, each such request
    calls the provider, and what it stores is never found by a later
    request with an equal array. *)
Theorem array_inn_bypasses_cache (g : string -> bool)
  (items : list jsval) (now later : Z) (body : list (string * jsval))
  (up : fetch_outcome) (st : server)
  (Hinn : obj_lookup "inn" body = JArr items)
  (Hvalid : validate_inn (JArr items) = None) :
  let res := verify_inn g now later body up st in
  upstream_queries (snd res) = JArr items :: upstream_queries st /\
  forall now2 later2 up2,
    upstream_queries (snd (verify_inn g now2 later2 body up2 (snd res))) =
    JArr items :: JArr items :: upstream_queries st.
Proof.
  assert (Hstep : forall n l u st0,
            upstream_queries (snd (verify_inn g n l body u st0)) =
            JArr items :: upstream_queries st0).
  { intros n l u st0.
    assert (Hm : Lru.has n (obj_lookup "inn" body) (cache st0) = false).
    { unfold Lru.has. now rewrite Hinn, find_entry_array. }
    rewrite <- Hinn in Hvalid.
    destruct (verify_inn_effect g n l body u st0)
      as [Heq|[(_ & _ & Hq)|[(Hh & _)|(data & c & r & _ & _ & _ & Hq)]]].
    - exfalso. revert Heq. unfold verify_inn. rewrite Hvalid, Hm.
      assert (Hneq : forall st1 : server,
                upstream_queries st1 <>
                upstream_queries st0 -> st1 <> st0) by congruence.
      assert (Hgrow : forall q, q :: upstream_queries st0 <>
                                upstream_queries st0).
      { intros q Hq. apply (f_equal (@List.length jsval)) in Hq.
        simpl in Hq. lia. }
      unfold answer_from_upstream.
      destruct u as [e|status text json]; [apply Hneq, Hgrow|].
      destruct (response_ok status); simpl; [|apply Hneq, Hgrow].
      destruct json as [data|e]; simpl; [|apply Hneq, Hgrow].
      rewrite answer_from_data_normalize.
      destruct (normalize g data) as [[c r]|e]; apply Hneq, Hgrow.
    - now rewrite Hq, Hinn.
    - congruence.
    - now rewrite Hq, Hinn. }
  intros res. subst res. split; [apply Hstep|].
  intros now2 later2 up2. now rewrite !Hstep.
Qed.

Lemma array_inn_bypasses_cache_witness :
  let body := inn_body (JArr [JStr "7700000000"]) in
  let res := verify_inn digits_gt0 0 5 body
               (Replied 200 "" (Ok active_reply)) init_server in
  code (fst res) = 200 /\
  upstream_queries
    (snd (verify_inn digits_gt0 6 7 body
            (Replied 200 "" (Ok active_reply)) (snd res))) =
  [JArr [JStr "7700000000"]; JArr [JStr "7700000000"]].
Proof.
  intros body res. split; [reflexivity|].
  apply (proj2 (array_inn_bypasses_cache digits_gt0 [JStr "7700000000"]
                  0 5 body (Replied 200 "" (Ok active_reply)) init_server
                  eq_refl eq_refl)).
Defined.

End HandlerExtra.

(* ================================================================== *)
(** ** The client and the handler together *)
(* ================================================================== *)

Module ClientProps.
Import Js Lru Server Resolution Client LruFacts ServerFacts Samples
       NormalizerExtra HandlerExtra.

(** *** Trimming a string of digits *)

Lemma is_digit_range (c : ascii) :
  is_digit c = true -> (48 <= nat_of_ascii c <= 57)%nat.
Proof.
  unfold is_digit. intros H. apply andb_true_iff in H.
  destruct H as [H1 H2]. apply Nat.leb_le in H1, H2. lia.
Qed.

Lemma byte_is_digit (c : ascii) (n : nat) :
  is_digit c = true -> (n < 48 \/ 57 < n)%nat -> byte_is c n = false.
Proof.
  intros Hd Hn. apply is_digit_range in Hd. unfold byte_is.
  apply Nat.eqb_neq. lia.
Qed.

Lemma is_space_digit (c : ascii) : is_digit c = true -> is_space c = false.
Proof.
  intros Hd. apply is_digit_range in Hd. unfold is_space.
  apply orb_false_iff. split; [apply Nat.eqb_neq; lia|].
  apply andb_false_iff. right. apply Nat.leb_gt. lia.
Qed.

Lemma space2_digit (a b : ascii) :
  is_digit a = true \/ is_digit b = true -> space2 a b = false.
Proof.
  unfold space2. intros [H|H].
  - rewrite (byte_is_digit a 194 H) by lia. reflexivity.
  - rewrite (byte_is_digit b 160 H) by lia. apply andb_false_r.
Qed.

Lemma space3_first_digit (a b c : ascii) :
  is_digit a = true -> space3 a b c = false.
Proof.
  intros H. unfold space3.
  rewrite (byte_is_digit a 225 H), (byte_is_digit a 226 H),
          (byte_is_digit a 227 H), (byte_is_digit a 239 H) by lia.
  reflexivity.
Qed.

Lemma space3_last_digit (a b c : ascii) :
  is_digit c = true -> space3 a b c = false.
Proof.
  intros H. unfold space3.
  rewrite (byte_is_digit c 128 H), (byte_is_digit c 168 H),
          (byte_is_digit c 169 H), (byte_is_digit c 175 H),
          (byte_is_digit c 159 H), (byte_is_digit c 191 H) by lia.
  apply is_digit_range in H.
  replace ((128 <=? nat_of_ascii c)%nat) with false
    by (symmetry; apply Nat.leb_gt; lia).
  rewrite !andb_false_r. reflexivity.
Qed.

Lemma drop_spaces_digit (backwards : bool) (c : ascii) (r : string) :
  is_digit c = true ->
  drop_spaces backwards (String c r) = String c r.
Proof.
  intros H. cbn [drop_spaces]. rewrite (is_space_digit c H).
  destruct r as [|c2 r2]; [reflexivity|].
  replace (if backwards then space2 c2 c else space2 c c2) with false
    by (destruct backwards; symmetry; apply space2_digit; auto).
  destruct r2 as [|c3 r3]; [reflexivity|].
  replace (if backwards then space3 c3 c2 c else space3 c c2 c3) with false;
    [reflexivity|].
  destruct backwards; symmetry;
    [now apply space3_last_digit|now apply space3_first_digit].
Qed.

Lemma reverse_involutive (s : string) : reverse (reverse s) = s.
Proof.
  unfold reverse.
  rewrite list_ascii_of_string_of_list_ascii, rev_involutive.
  apply string_of_list_ascii_of_string.
Qed.

Lemma match_digits_all (n : nat) (s : string) :
  match_digits n s = true ->
  Forall (fun c => is_digit c = true) (list_ascii_of_string s).
Proof.
  revert s. induction n as [|n IH]; intros [|c r]; simpl; try discriminate.
  - constructor.
  - intros H. apply andb_true_iff in H. destruct H as [Hc Hr].
    constructor; auto.
Qed.

Lemma trim_digits (s : string) :
  Forall (fun c => is_digit c = true) (list_ascii_of_string s) ->
  trim s = s.
Proof.
  intros Hall. unfold trim.
  assert (Hfix : forall b t,
            Forall (fun c => is_digit c = true) (list_ascii_of_string t) ->
            drop_spaces b t = t).
  { intros b [|c r] Ht; [reflexivity|].
    apply drop_spaces_digit. simpl in Ht. now inversion Ht. }
  rewrite (Hfix false s Hall), Hfix; [apply reverse_involutive|].
  unfold reverse. rewrite list_ascii_of_string_of_list_ascii.
  now apply Forall_rev.
Qed.

Lemma click_guard_valid (raw inn : string) :
  click_guard raw = inr inn -> validate_inn (JStr inn) = None.
Proof.
  unfold click_guard.
  destruct (negb (truthy (JStr (trim raw)))) eqn:Ht; [discriminate|].
  destruct (negb (inn_regex_test (JStr (trim raw)))) eqn:Hr;
    [discriminate|].
  intros H. inversion H; subst inn. unfold validate_inn. now rewrite Ht, Hr.
Qed.

(** X9.  The client and the server check the identifier alike: whatever
    the click handler sends has passed the server's guards, so this
    client never receives the validation answer 400; and every string the
    server accepts is sent by the client unchanged. *)
Theorem client_and_server_guards_agree :
  (forall raw inn,
     click_guard raw = inr inn ->
     inn = trim raw /\ validate_inn (JStr inn) = None) /\
  (forall s, validate_inn (JStr s) = None -> click_guard s = inr s).
Proof.
  split.
  - intros raw inn. unfold click_guard.
    destruct (negb (truthy (JStr (trim raw)))) eqn:Ht; [discriminate|].
    destruct (negb (inn_regex_test (JStr (trim raw)))) eqn:Hr;
      [discriminate|].
    intros H. inversion H; subst inn. split; [reflexivity|].
    unfold validate_inn. now rewrite Ht, Hr.
  - intros s Hv. unfold click_guard.
    assert (Ht : trim s = s).
    { unfold validate_inn in Hv.
      destruct (negb (truthy (JStr s))); [discriminate|].
      destruct (inn_regex_test (JStr s)) eqn:Hr; [|discriminate].
      unfold inn_regex_test in Hr. cbn [to_string] in Hr.
      apply orb_true_iff in Hr. apply trim_digits.
      destruct Hr as [Hr|Hr]; now apply match_digits_all in Hr. }
    rewrite Ht. unfold validate_inn in Hv.
    destruct (negb (truthy (JStr s))); [discriminate|].
    destruct (negb (inn_regex_test (JStr s))); [discriminate|reflexivity].
Qed.

Lemma client_and_server_guards_agree_witness :
  click_guard "  7700000000 " = inr "7700000000" /\
  validate_inn (JStr "7700000000") = None /\
  click_guard "7707083893" = inr "7707083893".
Proof.
  destruct client_and_server_guards_agree as [Hsend Hback].
  split; [reflexivity|].
  destruct (Hsend "  7700000000 " "7700000000" eq_refl) as [_ Hv].
  split; [exact Hv|]. apply Hback. reflexivity.
Defined.

Lemma member_string_truthy (r : jsval) (name s : string) :
  member r name = JStr s -> truthy r = true /\ nullish r = false.
Proof.
  unfold member. destruct r; simpl; try discriminate; auto;
    destruct (String.eqb name "length"); discriminate.
Qed.

(** *** What [verifyInn] leaves alone *)

Lemma keeps_then {A B} (c : act A) (k : A -> act B) :
  keeps c -> (forall a, keeps (k a)) -> keeps (then_do c k).
Proof.
  intros Hc Hk u. unfold then_do. specialize (Hc u).
  destruct (c u) as [u' [a|]]; simpl in *; [|exact Hc].
  now rewrite Hk.
Qed.


Lemma keeps_read (c : exec jsval) : keeps (read c).
Proof. intros u. unfold read. now destruct c. Qed.

Lemma keeps_ret {A} (a : A) : keeps (ret a).
Proof. intros u. reflexivity. Qed.

Lemma keeps_throw {A} : keeps (@throw A).
Proof. intros u. reflexivity. Qed.

Lemma keeps_class_list_add (token : string) : keeps (class_list_add token).
Proof.
  intros u. unfold class_list_add.
  destruct (String.eqb token "" || has_dom_space token); [reflexivity|].
  now destruct (existsb (String.eqb token) (status_classes u)).
Qed.

Lemma keeps_write (f : ui -> ui) :
  (forall u, session (f u) = session u) -> keeps (write f).
Proof. intros Hf u. apply Hf. Qed.

Lemma keeps_if {A} (b : bool) (c d : act A) :
  keeps c -> keeps d -> keeps (if b then c else d).
Proof. now destruct b. Qed.

Ltac keeps_step :=
  first [ apply keeps_then; [|intro]
        | apply keeps_if
        | apply keeps_write; intros; reflexivity
        | apply keeps_read
        | apply keeps_ret
        | apply keeps_throw
        | apply keeps_class_list_add ].

Lemma keeps_show_company (company : jsval) : keeps (show_company company).
Proof. unfold show_company. repeat keeps_step. Qed.





(** *** What [verifyInn] returns *)

Lemma snd_then_write {B} (f : ui -> ui) (k : act B) (u : ui) :
  then_do (write f) (fun _ => k) u = k (f u).
Proof. reflexivity. Qed.

Lemma then_read_member {B} (v : jsval) (name : string)
  (k : jsval -> act B) (u : ui) :
  then_do (read (get_prop v name)) k u =
  if nullish v then (u, None) else k (member v name) u.
Proof.
  unfold then_do, read. rewrite get_prop_member. now destruct (nullish v).
Qed.

Lemma class_list_add_plain (token : string) (u : ui) :
  String.eqb token "" || has_dom_space token = false ->
  exists u', class_list_add token u = (u', Some tt).
Proof.
  intros H. unfold class_list_add. rewrite H.
  destruct (existsb (String.eqb token) (status_classes u)); eauto.
Qed.

Lemma show_network_error_returns (u : ui) :
  snd (show_network_error u) = Some JNull.
Proof.
  unfold show_network_error, then_do.
  destruct (class_list_add_plain "error" u eq_refl) as [u' ->].
  reflexivity.
Qed.

Lemma show_company_returns (company : jsval) (u : ui) :
  nullish company = false -> snd (show_company company u) = Some tt.
Proof.
  intros Hc. unfold show_company.
  repeat (rewrite then_read_member, Hc; cbv beta). reflexivity.
Qed.

Lemma show_result_returns (result : jsval) (u : ui) :
  snd (show_result result u) = None \/
  (snd (show_result result u) = Some result /\ nullish result = false).
Proof.
  remember (snd (show_result result u)) as o eqn:Ho. revert Ho.
  unfold show_result. rewrite then_read_member. cbv beta.
  destruct (nullish result) eqn:Hn; [intros ->; now left|].
  unfold then_do at 1.
  destruct (class_list_add (to_string (member result "status")) u)
    as [u1 [[]|]]; [|intros ->; now left].
  rewrite then_read_member, Hn. cbv beta.
  rewrite snd_then_write, then_read_member, Hn. cbv beta.
  intros ->. right. split; [|reflexivity]. unfold then_do.
  destruct (truthy (member result "company")) eqn:Hc.
  - pose proof (show_company_returns (member result "company")
                  (set_status_text (dom_string (member result "message")) u1)
                  (truthy_not_nullish _ Hc)) as Hs.
    destruct (show_company _ _) as [u2 o]. simpl in Hs. now subst o.
  - reflexivity.
Qed.

Lemma show_result_success (result : jsval) (u : ui) :
  member result "status" = JStr "success" ->
  snd (show_result result u) = Some result.
Proof.
  intros Hm. destruct (member_string_truthy _ _ _ Hm) as [_ Hn].
  unfold show_result. rewrite then_read_member, Hn, Hm. cbv beta.
  unfold then_do at 1.
  destruct (class_list_add_plain (to_string (JStr "success")) u eq_refl)
    as [u1 ->].
  rewrite then_read_member, Hn. cbv beta.
  rewrite snd_then_write, then_read_member, Hn. cbv beta.
  unfold then_do.
  destruct (truthy (member result "company")) eqn:Hc.
  - pose proof (show_company_returns (member result "company")
                  (set_status_text (dom_string (member result "message")) u1)
                  (truthy_not_nullish _ Hc)) as Hs.
    destruct (show_company _ _) as [u2 o]. simpl in Hs. now subst o.
  - reflexivity.
Qed.

Lemma show_failure_returns (result : jsval) (u : ui) :
  snd (show_failure result u) = None \/
  snd (show_failure result u) = Some JNull.
Proof.
  remember (snd (show_failure result u)) as o eqn:Ho. revert Ho.
  unfold show_failure, then_do.
  destruct (class_list_add_plain "error" u eq_refl) as [u' ->].
  unfold read, or_else. rewrite get_prop_member.
  destruct (nullish result); cbn [bind]; [intros ->; now left|].
  destruct (truthy (member result "message")); intros ->; now right.
Qed.

(** [verifyInn] never throws; it returns the parsed body of a 2xx reply
    whose [status] could be shown, and [null] in every other case. *)
Lemma verifyInn_returns (net : jsval -> net_outcome) (inn : string)
  (u : ui) :
  exists v,
    snd (verifyInn net inn u) = Some v /\
    (v = JNull \/
     exists status,
       net (JObj [("inn", JStr inn)]) = NetReplied status (Some v) /\
       response_ok status = true /\ nullish v = false) /\
    (forall status r,
       net (JObj [("inn", JStr inn)]) = NetReplied status (Some r) ->
       response_ok status = true ->
       member r "status" = JStr "success" -> v = r).
Proof.
  unfold verifyInn. rewrite !snd_then_write.
  set (u0 := set_company_display "none" _).
  unfold try_catch.
  assert (Hnull : forall u1,
            exists v, snd (show_network_error u1) = Some v /\ v = JNull).
  { intros u1. exists JNull. split; [apply show_network_error_returns|auto]. }
  destruct (net (JObj [("inn", JStr inn)])) as [|status [result|]] eqn:Hnet.
  - unfold throw. destruct (Hnull u0) as (v & Hv & ->).
    exists JNull. destruct (show_network_error u0); simpl in *.
    split; [exact Hv|]. split; [now left|]. intros; discriminate.
  - destruct (response_ok status) eqn:Hok.
    + destruct (show_result_returns result u0) as [Hr|[Hr Hn]].
      * pose proof (fun Hm => show_result_success result u0 Hm) as Hsucc.
        destruct (show_result result u0) as [u1 o]. simpl in *. subst o.
        destruct (Hnull u1) as (v & Hv & ->).
        destruct (show_network_error u1); simpl in *.
        exists JNull. split; [exact Hv|]. split; [now left|].
        intros st r Heq _ Hm. inversion Heq; subst.
        specialize (Hsucc Hm). discriminate.
      * destruct (show_result result u0) as [u1 o]. simpl in *. subst o.
        exists result. split; [reflexivity|].
        split; [right; now exists status|].
        intros st r Heq _ _. now inversion Heq.
    + destruct (show_failure_returns result u0) as [Hr|Hr];
        destruct (show_failure result u0) as [u1 o]; simpl in *; subst o.
      * destruct (Hnull u1) as (v & Hv & ->).
        destruct (show_network_error u1); simpl in *.
        exists JNull. split; [exact Hv|]. split; [now left|].
        intros st r Heq Hr. inversion Heq; subst. congruence.
      * exists JNull. split; [reflexivity|]. split; [now left|].
        intros st r Heq Hr. inversion Heq; subst. congruence.
  - unfold throw. destruct (Hnull u0) as (v & Hv & ->).
    exists JNull. destruct (show_network_error u0); simpl in *.
    split; [exact Hv|]. split; [now left|]. intros; discriminate.
Qed.

(** *** [verifyInn] on every reply *)






(** *** The verdict of the click handler *)

Lemma record_verdict_fst (v : jsval) (u : ui) :
  (member v "status" = JStr "success" ->
   fst (record_verdict v u) =
   set_dataset "true" (FnsJson (member v "company")) u) /\
  (member v "status" <> JStr "success" ->
   fst (record_verdict v u) = set_dataset "false" (FnsText "") u).
Proof.
  unfold record_verdict. split.
  - intros Hm. destruct (member_string_truthy _ _ _ Hm) as [Ht Hn].
    rewrite Ht, then_read_member, Hn, Hm. cbv beta.
    cbn [strict_neq_str String.eqb Ascii.eqb Bool.eqb negb].
    rewrite then_read_member, Hn. reflexivity.
  - intros Hm. destruct (truthy v) eqn:Ht; [|reflexivity].
    rewrite then_read_member, (truthy_not_nullish _ Ht). cbv beta.
    destruct (member v "status") as [| | | |s| |]; try reflexivity.
    cbn [strict_neq_str]. destruct (String.eqb_spec s "success") as [->|Hne];
      [now elim Hm|reflexivity].
Qed.





(** *** The client in front of the handler *)

Lemma on_verify_click_ext (net net' : jsval -> net_outcome)
  (raw inn : string) (u : ui) :
  click_guard raw = inr inn ->
  net (JObj [("inn", JStr inn)]) = net' (JObj [("inn", JStr inn)]) ->
  on_verify_click net raw u = on_verify_click net' raw u.
Proof.
  intros Hg Hnet. unfold on_verify_click, verifyInn. now rewrite Hg, Hnet.
Qed.

Lemma served_by_request (g : string -> bool) (now later : Z)
  (up : fetch_outcome) (st : server) (s : string) :
  served_by g now later up st (JObj [("inn", JStr s)]) =
  wire (fst (verify_inn g now later [("inn", JStr s)] up st)).
Proof. reflexivity. Qed.

(** X11.  An identifier the registry does not know looks the same on the
    page whether the answer is fresh (404) or served from the cache
    (200): the same classes, the same not-found text, no company panel,
    and the page is not marked verified. *)
Theorem not_found_looks_the_same (g : string -> bool) (raw s : string)
  (now later now2 later2 : Z) (st : server)
  (status : Z) (text : string) (data : jsval) (up2 : fetch_outcome)
  (u : ui)
  (Hguard : click_guard raw = inr s)
  (Hreach : reachable g st)
  (Hmiss : Lru.has now (JStr s) (cache st) = false)
  (Hok : response_ok status = true)
  (Hnone : has_suggestions g data = Ok false)
  (Hwin : now2 - later < CACHE_TTL) :
  let up := Replied status text (Ok data) in
  let first := verify_inn g now later [("inn", JStr s)] up st in
  let second := verify_inn g now2 later2 [("inn", JStr s)] up2 (snd first) in
  let page1 := fst (on_verify_click (served_by g now later up st) raw u) in
  let page2 :=
    fst (on_verify_click (served_by g now2 later2 up2 (snd first)) raw u) in
  code (fst first) = 404 /\ code (fst second) = 200 /\
  page1 = page2 /\
  status_classes page1 = ["verification-status-message"; "error"] /\
  status_text page1 = MSG_NOT_FOUND /\
  company_display page1 = "none" /\
  is_verified page1 = "false".
Proof.
  intros up first second page1 page2.
  pose proof (click_guard_valid raw s Hguard) as Hvalid.
  destruct (reachable_cache_inv g st Hreach) as (_ & Httl & _).
  assert (Hnorm : normalize g data = Ok (404, JObj not_found_result)).
  { unfold normalize. now rewrite Hnone. }
  assert (Hfirst : first =
            (mkResponse 404 (JObj not_found_result),
             {| cache := Lru.set later (JStr s) (JObj not_found_result)
                           (cache st);
                upstream_queries := JStr s :: upstream_queries st |})).
  { subst first up.
    now rewrite (verify_inn_miss_normalized g now later [("inn", JStr s)] st
                   status text data 404 (JObj not_found_result)). }
  assert (Hsecond : fst second = mkResponse 200 (JObj not_found_result)).
  { subst second. rewrite Hfirst. cbn [snd]. rewrite <- Httl in Hwin.
    now apply (ServiceProps.verify_inn_after_store g s now2 later later2
                 [("inn", JStr s)] up2 (JObj not_found_result) (cache st)). }
  assert (Hp1 : page1 =
            fst (on_verify_click
                   (fun _ => NetReplied 404 (Some (JObj not_found_result)))
                   raw u)).
  { subst page1. f_equal. apply on_verify_click_ext with (inn := s); auto.
    rewrite served_by_request. fold up. fold first. now rewrite Hfirst. }
  assert (Hp2 : page2 =
            fst (on_verify_click
                   (fun _ => NetReplied 200 (Some (JObj not_found_result)))
                   raw u)).
  { subst page2. f_equal. apply on_verify_click_ext with (inn := s); auto.
    rewrite served_by_request. fold second. now rewrite Hsecond. }
  split; [now rewrite Hfirst|]. split; [now rewrite Hsecond|].
  rewrite Hp1, Hp2. unfold on_verify_click. rewrite Hguard.
  repeat split.
Qed.

Lemma not_found_looks_the_same_witness :
  let up := Replied 200 "" (Ok empty_reply) in
  let first := verify_inn digits_gt0 0 5 [("inn", JStr "7700000000")] up
                 init_server in
  let page1 :=
    fst (on_verify_click (served_by digits_gt0 0 5 up init_server)
           "7700000000 " blank_ui) in
  let page2 :=
    fst (on_verify_click
           (served_by digits_gt0 8 9 (Rejected (FetchError "down"))
              (snd first))
           "7700000000 " blank_ui) in
  page1 = page2 /\ status_text page1 = MSG_NOT_FOUND.
Proof.
  intros up first page1 page2.
  destruct (not_found_looks_the_same digits_gt0 "7700000000 " "7700000000"
              0 5 8 9 init_server 200 "" empty_reply
              (Rejected (FetchError "down")) blank_ui
              eq_refl (reach_init digits_gt0) eq_refl eq_refl eq_refl
              eq_refl)
    as (_ & _ & Hsame & _ & Htext & _).
  split; [exact Hsame|exact Htext].
Defined.




(** The non-breaking space and the byte-order mark are trimmed too. *)
Example trim_unicode_space :
  trim (String (ascii_of_nat 194) (String (ascii_of_nat 160)
          ("7700000000" ++ String (ascii_of_nat 239)
             (String (ascii_of_nat 187) (String (ascii_of_nat 191) " ")))))
  = "7700000000".
Proof. reflexivity. Qed.

(** *** An edit while the reply is pending *)

Lemma steady_then {A B} (c : act A) (k : A -> act B) :
  steady c -> (forall a, steady (k a)) -> steady (then_do c k).
Proof.
  intros Hc Hk u u'. unfold then_do. specialize (Hc u u').
  destruct (c u) as [u1 [a|]], (c u') as [u1' [a'|]]; simpl in Hc;
    try discriminate; [|reflexivity].
  injection Hc as <-. apply Hk.
Qed.

Lemma steady_try {A} (c h : act A) :
  steady c -> steady h -> steady (try_catch c h).
Proof.
  intros Hc Hh u u'. unfold try_catch. specialize (Hc u u').
  destruct (c u) as [u1 [a|]], (c u') as [u1' [a'|]]; simpl in Hc;
    try discriminate; [exact Hc|apply Hh].
Qed.

Lemma steady_read (c : exec jsval) : steady (read c).
Proof. intros u u'. unfold read. now destruct c. Qed.

Lemma steady_ret {A} (a : A) : steady (ret a).
Proof. intros u u'. reflexivity. Qed.

Lemma steady_throw {A} : steady (@throw A).
Proof. intros u u'. reflexivity. Qed.

Lemma steady_write (f : ui -> ui) : steady (write f).
Proof. intros u u'. reflexivity. Qed.

Lemma steady_class_list_add (token : string) :
  steady (class_list_add token).
Proof.
  intros u u'. unfold class_list_add.
  destruct (String.eqb token "" || has_dom_space token); [reflexivity|].
  now destruct (existsb (String.eqb token) (status_classes u)),
               (existsb (String.eqb token) (status_classes u')).
Qed.

Lemma steady_if {A} (b : bool) (c d : act A) :
  steady c -> steady d -> steady (if b then c else d).
Proof. now destruct b. Qed.

Ltac steady_step :=
  first [ apply steady_then; [|intro]
        | apply steady_if
        | apply steady_write
        | apply steady_read
        | apply steady_ret
        | apply steady_throw
        | apply steady_class_list_add ].

Lemma steady_verifyInn_resume (net : jsval -> net_outcome) (inn : string) :
  steady (verifyInn_resume net inn).
Proof.
  unfold verifyInn_resume.
  apply steady_try;
    [|unfold show_network_error; repeat steady_step].
  destruct (net (JObj [("inn", JStr inn)])) as [|status [result|]];
    try apply steady_throw.
  destruct (response_ok status).
  - unfold show_result, show_company. repeat steady_step.
  - unfold show_failure. repeat steady_step.
Qed.

Lemma verifyInn_halves (net : jsval -> net_outcome) (inn : string)
  (u : ui) :
  verifyInn net inn u = verifyInn_resume net inn (fst (verifyInn_begin u)).
Proof. reflexivity. Qed.

Lemma verdict_of (v : jsval) (x y : ui) :
  is_verified (fst (record_verdict v x)) =
  is_verified (fst (record_verdict v y)) /\
  fns_data (fst (record_verdict v x)) =
  fns_data (fst (record_verdict v y)) /\
  progress_visible (fst (record_verdict v x)) = progress_visible x.
Proof.
  destruct (record_verdict_fst v x) as [Hyes Hno].
  destruct (record_verdict_fst v y) as [Hyes' Hno'].
  assert (Hdec : member v "status" = JStr "success" \/
                 member v "status" <> JStr "success").
  { destruct (member v "status") as [| | | |s| |];
      try (right; discriminate).
    destruct (string_dec s "success") as [->|Hne];
      [now left|right; congruence]. }
  destruct Hdec as [Hm|Hm].
  - rewrite (Hyes Hm), (Hyes' Hm). now repeat split.
  - rewrite (Hno Hm), (Hno' Hm). now repeat split.
Qed.

Lemma pending_run (net : jsval -> net_outcome) (raw inn : string)
  (meanwhile : ui -> ui) (u : ui) :
  click_guard raw = inr inn ->
  exists v x y,
    fst (on_verify_click net raw u) =
    fst (record_verdict v (set_progress false x)) /\
    fst (on_verify_click_pending net raw meanwhile u) =
    fst (record_verdict v (set_progress false y)).
Proof.
  intros H. unfold on_verify_click_pending, on_verify_click.
  rewrite H, !snd_then_write.
  set (u0 := set_progress true u).
  change (then_do verifyInn_begin
            (fun _ => then_do (write meanwhile)
               (fun _ => then_do (verifyInn_resume net inn)
                  (fun result => then_do (write (set_progress false))
                     (fun _ => record_verdict result)))) u0)
    with (then_do (verifyInn_resume net inn)
            (fun result => then_do (write (set_progress false))
               (fun _ => record_verdict result))
            (meanwhile (fst (verifyInn_begin u0)))).
  destruct (verifyInn_returns net inn u0) as (v & Hv & _).
  pose proof (steady_verifyInn_resume net inn
                (meanwhile (fst (verifyInn_begin u0)))
                (fst (verifyInn_begin u0))) as Hsame.
  rewrite <- verifyInn_halves, Hv in Hsame.
  unfold then_do at 1 3.
  destruct (verifyInn net inn u0) as [x o]. simpl in Hv. subst o.
  destruct (verifyInn_resume net inn (meanwhile (fst (verifyInn_begin u0))))
    as [y o]. simpl in Hsame. subst o.
  exists v, x, y. now rewrite !snd_then_write.
Qed.

(** X14.  The verdict of a click is the reply's, whatever other listeners
    write to the page while the reply is pending: the data set ends as it
    does when nothing runs in between.  So the [input] listener clears the
    verdict only when it runs after the click handler has finished; an
    edit of the field while the reply is pending is overwritten, and the
    page ends marked verified for a text that is no longer in the
    field. *)
Theorem edit_while_pending_keeps_verdict (net : jsval -> net_outcome)
  (raw inn : string) (meanwhile : ui -> ui) (u : ui)
  (H : click_guard raw = inr inn) :
  let done := fst (on_verify_click net raw u) in
  let raced := fst (on_verify_click_pending net raw meanwhile u) in
  on_verify_click_pending net raw (fun x => x) u = on_verify_click net raw u /\
  is_verified raced = is_verified done /\
  fns_data raced = fns_data done /\
  progress_visible raced = false /\
  is_verified (on_inn_input done) = "false" /\
  fns_data (on_inn_input done) = FnsText "".
Proof.
  intros done raced.
  split; [unfold on_verify_click_pending, on_verify_click;
          now destruct (click_guard raw)|].
  destruct (pending_run net raw inn meanwhile u H) as (v & x & y & Hd & Hr).
  fold done in Hd. fold raced in Hr. rewrite Hd, Hr.
  destruct (verdict_of v (set_progress false y) (set_progress false x))
    as (Hv1 & Hv2 & Hv3).
  split; [exact Hv1|]. split; [exact Hv2|]. split; [exact Hv3|].
  split; reflexivity.
Qed.

Lemma edit_while_pending_keeps_verdict_witness :
  let net := fun _ : jsval =>
    NetReplied 200 (Some (JObj [("status", JStr "success");
                                ("message", JStr "ok");
                                ("company",
                                 JObj [("name", JStr "A");
                                       ("state", JStr "active")])])) in
  let raced :=
    fst (on_verify_click_pending net "7700000000" on_inn_input blank_ui) in
  is_verified raced = "true" /\
  status_display raced = "none" /\
  company_display raced = "flex".
Proof.
  intros net raced.
  destruct (edit_while_pending_keeps_verdict net "7700000000" "7700000000"
              on_inn_input blank_ui eq_refl) as (_ & Hv & _).
  fold raced in Hv. split; [rewrite Hv; reflexivity|].
  split; reflexivity.
Defined.

End ClientProps.

(* ================================================================== *)
(** ** The user of the page and the favourites *)
(* ================================================================== *)

Module UsersProps.
Import Js Client Users.

(** *** Lists and arrays *)

Lemma includes_In (l : list string) (id : string) :
  includes l id = true <-> In id l.
Proof.
  unfold includes. rewrite existsb_exists. split.
  - intros (x & Hx & Heq). apply String.eqb_eq in Heq. now subst.
  - intros H. exists id. split; [exact H|apply String.eqb_refl].
Qed.

Lemma includes_false (l : list string) (id : string) :
  includes l id = false <-> ~ In id l.
Proof.
  rewrite <- includes_In. now destruct (includes l id).
Qed.

Lemma includes_pushed (l : list string) (id other : string) :
  includes (l ++ [id])%list other = includes l other || String.eqb other id.
Proof.
  unfold includes. rewrite existsb_app. simpl. now rewrite orb_false_r.
Qed.

Lemma includes_filtered (l : list string) (id other : string) :
  includes (filter (fun x => negb (String.eqb x id)) l) other =
  includes l other && negb (String.eqb other id).
Proof.
  unfold includes. induction l as [|x l IH]; [reflexivity|].
  simpl. destruct (String.eqb x id) eqn:Hx; simpl; rewrite IH.
  - apply String.eqb_eq in Hx. subst x.
    destruct (String.eqb other id); simpl; [|reflexivity].
    now rewrite andb_false_r.
  - destruct (String.eqb other x) eqn:Hox; simpl; [|reflexivity].
    apply String.eqb_eq in Hox. subst x. now rewrite Hx.
Qed.

Lemma nth_set_nth {A} (n : nat) (x d : A) (l : list A) :
  (n < List.length l)%nat -> nth n (set_nth n x l) d = x.
Proof.
  revert n. induction l as [|y l IH]; intros [|n] H; simpl in *;
    try lia; [reflexivity|]. apply IH. lia.
Qed.

Lemma Forall_set_nth {A} (P : A -> Prop) (n : nat) (x : A) (l : list A) :
  P x -> Forall P l -> Forall P (set_nth n x l).
Proof.
  intros Hx. revert n.
  induction l as [|y l IH]; intros n H; [destruct n; constructor|].
  inversion H; subst. destruct n; simpl; constructor; auto.
Qed.

Lemma array_at_pushed (r : array_ref) (id : string) (p : page) :
  valid_ref r p -> array_at r (push r id p) = (array_at r p ++ [id])%list.
Proof.
  destruct r as [| |n]; intros H; try reflexivity.
  unfold push. cbn [array_at set_array made]. now apply nth_set_nth.
Qed.

Lemma array_at_new (l : list string) (p : page) :
  array_at (fst (new_array l p)) (snd (new_array l p)) = l.
Proof.
  cbn [new_array fst snd array_at made].
  rewrite app_nth2, Nat.sub_diag by lia. reflexivity.
Qed.

Lemma array_at_saved (store_ok : bool) (u : user) (r : array_ref)
  (p : page) :
  array_at r (saveUserData store_ok u p) = array_at r p.
Proof. unfold saveUserData. now destruct store_ok, r. Qed.

Lemma currentUser_saved (store_ok : bool) (u : user) (p : page) :
  currentUser (saveUserData store_ok u p) = currentUser p.
Proof. unfold saveUserData. now destruct store_ok. Qed.

Lemma favourites_of_with (k : favourites) (r : array_ref) (u : user) :
  favourites_of k (with_favourites k r u) = Some r.
Proof. now destruct k. Qed.

Lemma add_favourite_spec (k : favourites) (ok ok' : bool)
  (id : string) (p : page) (u : user) (r : array_ref) :
  currentUser p = Some u -> favourites_of k u = Some r -> valid_ref r p ->
  exists p1,
    add_favourite k ok id p = Ok p1 /\
    is_favourite k id p1 = Ok (JBool true) /\
    add_favourite k ok' id p1 = Ok p1 /\
    forall other, other <> id ->
      is_favourite k other p1 = is_favourite k other p.
Proof.
  intros Hu Hr Hv. unfold add_favourite. rewrite Hu, Hr.
  destruct (includes (array_at r p) id) eqn:Hin.
  - exists p. unfold is_favourite. rewrite Hu, Hr, Hin. now repeat split.
  - exists (saveUserData ok u (push r id p)).
    assert (Hcur : currentUser (saveUserData ok u (push r id p)) = Some u).
    { rewrite currentUser_saved. now destruct r. }
    assert (Harr : array_at r (saveUserData ok u (push r id p)) =
                   (array_at r p ++ [id])%list).
    { rewrite array_at_saved. now apply array_at_pushed. }
    unfold is_favourite. rewrite Hcur, Hr, Harr, Hu, Hr.
    rewrite includes_pushed, String.eqb_refl, orb_true_r.
    split; [reflexivity|]. split; [reflexivity|].
    split; [reflexivity|].
    intros other Hne. rewrite includes_pushed.
    destruct (String.eqb_spec other id); [contradiction|].
    now rewrite orb_false_r.
Qed.

Lemma remove_favourite_spec (k : favourites) (ok : bool)
  (id : string) (p : page) (u : user) (r : array_ref) :
  currentUser p = Some u -> favourites_of k u = Some r ->
  exists p2,
    remove_favourite k ok id p = Ok p2 /\
    is_favourite k id p2 = Ok (JBool false) /\
    forall other, other <> id ->
      is_favourite k other p2 = is_favourite k other p.
Proof.
  intros Hu Hr. unfold remove_favourite. rewrite Hu, Hr.
  set (l := filter (fun x => negb (String.eqb x id)) (array_at r p)).
  pose proof (array_at_new l p) as Hnew.
  destruct (new_array l p) as [r' p1] eqn:Hna. cbn [fst snd] in Hnew.
  eexists. split; [reflexivity|].
  unfold is_favourite.
  rewrite currentUser_saved. cbn [set_currentUser currentUser].
  rewrite favourites_of_with, array_at_saved.
  assert (Harr : array_at r' (set_currentUser
                                (Some (with_favourites k r' u)) p1) = l).
  { rewrite <- Hnew. now destruct r'. }
  rewrite Harr, Hu, Hr. subst l. rewrite includes_filtered.
  rewrite String.eqb_refl, andb_false_r. split; [reflexivity|].
  intros other Hne. rewrite includes_filtered.
  destruct (String.eqb_spec other id); [contradiction|].
  now rewrite andb_true_r.
Qed.

(** X15.  The two lists behave as sets under the functions of the
    module, for a user who has the list: after [add] the element is a
    favourite, a second [add] writes nothing at all, after [remove] it is
    no favourite, and neither changes whether any other element is one. *)
Theorem favourites_add_remove (k : favourites) (ok ok' : bool)
  (id : string) (p : page) (u : user) (r : array_ref)
  (Hu : currentUser p = Some u)
  (Hr : favourites_of k u = Some r)
  (Hv : valid_ref r p) :
  (exists p1,
     add_favourite k ok id p = Ok p1 /\
     is_favourite k id p1 = Ok (JBool true) /\
     add_favourite k ok' id p1 = Ok p1 /\
     forall other, other <> id ->
       is_favourite k other p1 = is_favourite k other p) /\
  (exists p2,
     remove_favourite k ok id p = Ok p2 /\
     is_favourite k id p2 = Ok (JBool false) /\
     forall other, other <> id ->
       is_favourite k other p2 = is_favourite k other p).
Proof.
  split.
  - now apply add_favourite_spec with (u := u) (r := r).
  - now apply remove_favourite_spec with (u := u) (r := r).
Qed.

Lemma favourites_add_remove_witness :
  let p := init true true first_visit in
  exists p1,
    addFavoriteCategory true "cafes" p = Ok p1 /\
    isFavoriteCategory "cafes" p1 = Ok (JBool true) /\
    isFavoriteCategory "gyms" p1 = Ok (JBool false) /\
    storage p1 <> storage p.
Proof.
  intros p.
  destruct (favourites_add_remove Categories true true "cafes" p
              (mkUser (JStr "regular") JUndefined JUndefined
                 (Some (Made 0)) (Some (Made 1)))
              (Made 0) eq_refl eq_refl)
    as [(p1 & Hadd & Hin & _ & Hother) _]; [simpl; lia|].
  exists p1. split; [exact Hadd|]. split; [exact Hin|].
  split; [rewrite Hother by discriminate; reflexivity|].
  vm_compute in Hadd. injection Hadd as <-. discriminate.
Defined.

(** *** The arrays of the mock profile *)

Lemma mock_set_currentUser (k : favourites) (u : option user) (p : page) :
  array_at (mock_ref k) (set_currentUser u p) = array_at (mock_ref k) p.
Proof. now destruct k. Qed.

Lemma mock_new_array (k : favourites) (l : list string) (p : page) :
  array_at (mock_ref k) (snd (new_array l p)) = array_at (mock_ref k) p.
Proof. now destruct k. Qed.

Lemma mock_parse_array (k : favourites) (o : option (list string))
  (p : page) :
  array_at (mock_ref k) (snd (parse_array o p)) = array_at (mock_ref k) p.
Proof. destruct o as [l|]; [apply mock_new_array|reflexivity]. Qed.

Lemma mock_pushed (k : favourites) (r : array_ref) (x id : string)
  (p : page) :
  In id (array_at (mock_ref k) p) ->
  In id (array_at (mock_ref k) (push r x p)).
Proof.
  destruct k, r; cbn; intros H; auto; apply in_or_app; now left.
Qed.

Lemma mock_init (k : favourites) (readable store_ok : bool) (p : page) :
  array_at (mock_ref k) (init readable store_ok p) = array_at (mock_ref k) p.
Proof.
  unfold init, loadUserData.
  destruct readable; [destruct (storage p) as [item|]|].
  - destruct (saved_categories item), (saved_establishments item);
      now destruct k.
  - cbn [new_array]. rewrite array_at_saved. now destruct k.
  - cbn [new_array]. rewrite array_at_saved. now destruct k.
Qed.

Lemma mock_after (e : event) (k : favourites) (id : string) (p : page) :
  is_reload e = false ->
  In id (array_at (mock_ref k) p) ->
  In id (array_at (mock_ref k) (after e p)).
Proof.
  intros He Hin. destruct e as [rd ok| | | |rd ok|k' ok x|k' ok x|];
    try discriminate; cbn [after].
  - now rewrite mock_init.
  - unfold loginBusiness. now rewrite mock_set_currentUser.
  - unfold logoutBusiness. now rewrite mock_set_currentUser.
  - unfold registerBusiness. now rewrite mock_set_currentUser.
  - unfold updateBusinessProfile.
    destruct rd; rewrite ?array_at_saved, mock_set_currentUser; exact Hin.
  - unfold add_favourite.
    destruct (currentUser p) as [u|]; [|exact Hin].
    destruct (favourites_of k' u) as [r|]; [|exact Hin].
    destruct (includes (array_at r p) x); [exact Hin|].
    cbn [settle]. rewrite array_at_saved. now apply mock_pushed.
  - unfold remove_favourite.
    destruct (currentUser p) as [u|]; [|exact Hin].
    destruct (favourites_of k' u) as [r|]; [|exact Hin].
    cbn [new_array settle]. rewrite array_at_saved. now destruct k.
Qed.

Lemma mock_run (events : list event) (k : favourites) (id : string)
  (p : page) :
  forallb (fun e => negb (is_reload e)) events = true ->
  In id (array_at (mock_ref k) p) ->
  In id (array_at (mock_ref k) (run events p)).
Proof.
  revert p. induction events as [|e events IH]; intros p Hno Hin;
    [exact Hin|].
  cbn [forallb] in Hno. apply andb_prop in Hno as [He Hno].
  cbn [run fold_left]. apply IH; [exact Hno|].
  apply mock_after; [|exact Hin]. now destruct (is_reload e).
Qed.

Lemma login_favourite (k : favourites) (id : string) (p : page) :
  is_favourite k id (loginBusiness p) =
  Ok (JBool (includes (array_at (mock_ref k) p) id)).
Proof. now destruct k. Qed.

(** X16.  [loginBusiness] copies the mock profile by a spread, so the
    user shares the two arrays of favourites with it.  An element added
    after a login is pushed onto the array of the mock profile; [remove]
    takes it off the user's list (a new array) but not off that one.  So,
    whatever functions of the module run afterwards on the same page, the
    next login has the element as a favourite again. *)
Theorem removed_favourite_returns_at_login (k : favourites) (ok ok' : bool)
  (id : string) (p : page) (events : list event)
  (Hno : forallb (fun e => negb (is_reload e)) events = true) :
  let p1 := settle (loginBusiness p)
              (add_favourite k ok id (loginBusiness p)) in
  let p2 := settle p1 (remove_favourite k ok' id p1) in
  is_favourite k id p1 = Ok (JBool true) /\
  is_favourite k id p2 = Ok (JBool false) /\
  is_favourite k id (loginBusiness (run events p2)) = Ok (JBool true).
Proof.
  intros p1 p2.
  assert (Hmock : favourites_of k mock_copy = Some (mock_ref k))
    by now destruct k.
  assert (Hvalid : valid_ref (mock_ref k) (loginBusiness p))
    by now destruct k.
  destruct (add_favourite_spec k ok ok id (loginBusiness p) mock_copy
              (mock_ref k) eq_refl Hmock Hvalid)
    as (q1 & Hadd & Hin1 & _).
  assert (Hp1 : p1 = q1) by (subst p1; now rewrite Hadd).
  assert (Hcur : currentUser p1 = Some mock_copy).
  { subst p1. unfold add_favourite.
    cbn [loginBusiness set_currentUser currentUser]. rewrite Hmock.
    destruct (includes _ id); cbn [settle]; [reflexivity|].
    rewrite currentUser_saved. now destruct k. }
  destruct (remove_favourite_spec k ok' id p1 mock_copy (mock_ref k)
              Hcur Hmock) as (q2 & Hrem & Hin2 & _).
  assert (Hp2 : p2 = q2) by (subst p2; now rewrite Hrem).
  split; [now rewrite Hp1|]. split; [now rewrite Hp2|].
  rewrite login_favourite. f_equal. f_equal. apply includes_In.
  apply mock_run; [exact Hno|].
  assert (Hm1 : In id (array_at (mock_ref k) p1)).
  { rewrite Hp1. apply includes_In.
    rewrite <- Hp1. rewrite <- Hp1 in Hin1. unfold is_favourite in Hin1.
    rewrite Hcur, Hmock in Hin1. now injection Hin1. }
  change p2 with (after (RemoveFavourite k ok' id) p1).
  now apply mock_after.
Qed.

Lemma removed_favourite_returns_at_login_witness :
  let p1 := settle (loginBusiness first_visit)
              (addFavoriteCategory true "cafes" (loginBusiness first_visit)) in
  let p2 := settle p1 (removeFavoriteCategory true "cafes" p1) in
  isFavoriteCategory "cafes" p2 = Ok (JBool false) /\
  isFavoriteCategory "cafes"
    (loginBusiness (run [LogoutBusiness; RegisterBusiness] p2)) =
  Ok (JBool true).
Proof.
  intros p1 p2.
  destruct (removed_favourite_returns_at_login Categories true true "cafes"
              first_visit [LogoutBusiness; RegisterBusiness] eq_refl)
    as (_ & Hgone & Hback).
  split; [exact Hgone|exact Hback].
Defined.

(** *** No duplicates *)

Lemma NoDup_pushed (l : list string) (id : string) :
  NoDup l -> ~ In id l -> NoDup (l ++ [id]).
Proof.
  induction l as [|x l IH]; intros Hl Hid; simpl.
  - constructor; [intros []|constructor].
  - inversion Hl; subst. constructor.
    + intros Hin. apply in_app_or in Hin as [Hin|[Heq|[]]];
        [contradiction|]. subst. apply Hid. now left.
    + apply IH; [assumption|]. intros Hin. apply Hid. now right.
Qed.

Lemma NoDup_array_at (r : array_ref) (p : page) :
  no_duplicates p -> NoDup (array_at r p).
Proof.
  intros (Hc & He & Hm & _). destruct r as [| |n]; cbn; auto.
  destruct (Nat.lt_ge_cases n (List.length (made p))) as [Hlt|Hge].
  - rewrite Forall_forall in Hm. apply Hm. now apply nth_In.
  - rewrite nth_overflow by exact Hge. constructor.
Qed.

Lemma no_duplicates_saved (ok : bool) (u : user) (p : page) :
  no_duplicates p -> no_duplicates (saveUserData ok u p).
Proof.
  intros H. unfold saveUserData. destruct ok; [|exact H].
  pose proof (fun r => NoDup_array_at r p H) as Harr.
  destruct H as (Hc & He & Hm & _).
  split; [exact Hc|]. split; [exact He|]. split; [exact Hm|].
  cbn [storage set_storage stringify saved_categories saved_establishments].
  split; intros l Hl.
  - destruct (favoriteCategories u); [|discriminate].
    injection Hl as <-. apply Harr.
  - destruct (favoriteEstablishments u); [|discriminate].
    injection Hl as <-. apply Harr.
Qed.

Lemma no_duplicates_set_currentUser (u : option user) (p : page) :
  no_duplicates p -> no_duplicates (set_currentUser u p).
Proof. intros H. exact H. Qed.

Lemma no_duplicates_new_array (l : list string) (p : page) :
  NoDup l -> no_duplicates p -> no_duplicates (snd (new_array l p)).
Proof.
  intros Hl (Hc & He & Hm & Hs).
  split; [exact Hc|]. split; [exact He|]. split; [|exact Hs].
  cbn. apply Forall_app. split; [exact Hm|]. now constructor.
Qed.

Lemma no_duplicates_parse_array (o : option (list string)) (p : page) :
  (forall l, o = Some l -> NoDup l) ->
  no_duplicates p -> no_duplicates (snd (parse_array o p)).
Proof.
  intros Ho H. destruct o as [l|]; [|exact H].
  apply no_duplicates_new_array; [now apply Ho|exact H].
Qed.

Lemma no_duplicates_pushed (r : array_ref) (id : string) (p : page) :
  no_duplicates p -> includes (array_at r p) id = false ->
  no_duplicates (push r id p).
Proof.
  intros H Hin. apply includes_false in Hin.
  pose proof (NoDup_pushed _ _ (NoDup_array_at r p H) Hin) as Hnew.
  destruct H as (Hc & He & Hm & Hs). unfold push.
  destruct r as [| |n]; cbn [set_array].
  - now repeat split.
  - now repeat split.
  - split; [exact Hc|]. split; [exact He|]. split; [|exact Hs].
    cbn [made]. now apply Forall_set_nth.
Qed.

Lemma no_duplicates_init (readable store_ok : bool) (p : page) :
  no_duplicates p -> no_duplicates (init readable store_ok p).
Proof.
  intros H. unfold init, loadUserData.
  assert (Hfresh : no_duplicates
            (saveUserData store_ok
               (mkUser (JStr "regular") JUndefined JUndefined
                  (Some (Made (List.length (made p))))
                  (Some (Made (List.length (made p ++ [[]])))))
               (set_currentUser
                  (Some (mkUser (JStr "regular") JUndefined JUndefined
                           (Some (Made (List.length (made p))))
                           (Some (Made (List.length (made p ++ [[]]))))))
                  (snd (new_array [] (snd (new_array [] p))))))).
  { apply no_duplicates_saved, no_duplicates_set_currentUser.
    apply no_duplicates_new_array; [constructor|].
    apply no_duplicates_new_array; [constructor|exact H]. }
  destruct readable; [|exact Hfresh].
  destruct (storage p) as [item|] eqn:Hst; [|exact Hfresh].
  assert (Hitem : (forall l, saved_categories item = Some l -> NoDup l) /\
                  (forall l, saved_establishments item = Some l -> NoDup l)).
  { destruct H as (_ & _ & _ & Hs). now rewrite Hst in Hs. }
  destruct Hitem as [Hsc Hse].
  pose proof (no_duplicates_parse_array (saved_categories item) p Hsc H)
    as H1.
  destruct (parse_array (saved_categories item) p) as [c p1].
  cbn [snd] in H1.
  pose proof (no_duplicates_parse_array (saved_establishments item) p1
                Hse H1) as H2.
  destruct (parse_array (saved_establishments item) p1) as [e p2].
  cbn [snd] in H2. now apply no_duplicates_set_currentUser.
Qed.

Lemma no_duplicates_after (e : event) (p : page) :
  no_duplicates p -> no_duplicates (after e p).
Proof.
  intros H. destruct e as [rd ok| | | |rd ok|k ok x|k ok x|]; cbn [after].
  - now apply no_duplicates_init.
  - exact H.
  - exact H.
  - exact H.
  - unfold updateBusinessProfile.
    destruct rd; [apply no_duplicates_saved|]; exact H.
  - unfold add_favourite.
    destruct (currentUser p) as [u|]; [|exact H].
    destruct (favourites_of k u) as [r|]; [|exact H].
    destruct (includes (array_at r p) x) eqn:Hin; [exact H|].
    cbn [settle]. now apply no_duplicates_saved, no_duplicates_pushed.
  - unfold remove_favourite.
    destruct (currentUser p) as [u|]; [|exact H].
    destruct (favourites_of k u) as [r|]; [|exact H].
    pose proof (no_duplicates_new_array
                  (filter (fun y => negb (String.eqb y x)) (array_at r p)) p
                  (NoDup_filter _ (NoDup_array_at r p H)) H) as Hnew.
    destruct (new_array _ p) as [r' p1]. cbn [snd settle] in *.
    now apply no_duplicates_saved, no_duplicates_set_currentUser.
  - destruct H as (_ & _ & _ & Hs).
    split; [constructor|]. split; [constructor|]. split; [constructor|].
    exact Hs.
Qed.

Lemma run_snoc (events : list event) (e : event) (p : page) :
  run (events ++ [e]) p = after e (run events p).
Proof. unfold run. now rewrite fold_left_app. Qed.

Lemma no_duplicates_run (events : list event) :
  no_duplicates (run events first_visit).
Proof.
  induction events as [|e events IH] using rev_ind.
  - cbn. repeat split; constructor.
  - rewrite run_snoc. now apply no_duplicates_after.
Qed.

(** X17.  Whatever functions of the module have run, over any number of
    visits that began with nothing stored, a list of favourites that
    [getFavoriteCategories] or [getFavoriteEstablishments] returns holds
    no element twice; this holds although the user can share the arrays
    with the mock profile. *)
Theorem favourites_have_no_duplicates (events : list event)
  (k : favourites) (l : list string)
  (H : get_favourites k (run events first_visit) = Ok l) :
  NoDup l.
Proof.
  pose proof (no_duplicates_run events) as Hinv.
  unfold get_favourites in H.
  destruct (currentUser (run events first_visit)) as [u|].
  - destruct (favourites_of k u) as [r|]; [|discriminate].
    injection H as <-. now apply NoDup_array_at.
  - injection H as <-. constructor.
Qed.

Lemma favourites_have_no_duplicates_witness :
  let events := [LoginBusiness; AddFavourite Categories true "cafes";
                 LogoutBusiness; LoginBusiness;
                 AddFavourite Categories true "cafes";
                 AddFavourite Categories false "gyms"] in
  getFavoriteCategories (run events first_visit) = Ok ["cafes"; "gyms"] /\
  NoDup ["cafes"; "gyms"].
Proof.
  intros events. split; [reflexivity|].
  now apply (favourites_have_no_duplicates events Categories).
Defined.

(** *** The verification mark *)

Lemma unverified_build (q : page) :
  match currentUser q with
  | Some u => not_set (user_isVerified u)
  | None => True
  end ->
  match storage q with
  | Some item => not_set (saved_isVerified item)
  | None => True
  end ->
  unverified q.
Proof.
  intros Hu Hs. split.
  - intros u H. now rewrite H in Hu.
  - intros item H. now rewrite H in Hs.
Qed.

Lemma unverified_user (q : page) :
  unverified q ->
  match currentUser q with
  | Some u => not_set (user_isVerified u)
  | None => True
  end.
Proof. intros [H _]. destruct (currentUser q); auto. Qed.

Lemma unverified_storage (q : page) :
  unverified q ->
  match storage q with
  | Some item => not_set (saved_isVerified item)
  | None => True
  end.
Proof. intros [_ H]. destruct (storage q); auto. Qed.

Lemma unverified_saved (ok : bool) (u : user) (q : page) :
  not_set (user_isVerified u) -> unverified q ->
  unverified (saveUserData ok u q).
Proof.
  intros Hu H. unfold saveUserData. destruct ok; [|exact H].
  apply unverified_build; [apply (unverified_user q H)|].
  cbn. destruct Hu as [-> | ->]; [now left|now right].
Qed.

Lemma unverified_set_currentUser (u : user) (q : page) :
  not_set (user_isVerified u) -> unverified q ->
  unverified (set_currentUser (Some u) q).
Proof.
  intros Hu H. apply unverified_build; [exact Hu|].
  apply (unverified_storage q H).
Qed.

Lemma unverified_arrays (q : page) (c e : list string)
  (m : list (list string)) :
  unverified q ->
  unverified (mkPage (currentUser q) c e m (storage q)).
Proof.
  intros H. apply unverified_build;
    [apply (unverified_user q H)|apply (unverified_storage q H)].
Qed.

Lemma unverified_new_array (l : list string) (q : page) :
  unverified q -> unverified (snd (new_array l q)).
Proof. apply unverified_arrays. Qed.

Lemma unverified_parse_array (o : option (list string)) (q : page) :
  unverified q -> unverified (snd (parse_array o q)).
Proof.
  destruct o as [l|]; [apply unverified_new_array|auto].
Qed.

Lemma storage_parse_array (o : option (list string)) (q : page) :
  storage (snd (parse_array o q)) = storage q.
Proof. now destruct o. Qed.

Lemma unverified_pushed (r : array_ref) (id : string) (q : page) :
  unverified q -> unverified (push r id q).
Proof. destruct r; apply unverified_arrays. Qed.

Lemma unverified_init (readable store_ok : bool) (p : page) :
  unverified p -> unverified (init readable store_ok p).
Proof.
  intros H. unfold init, loadUserData.
  assert (Hfresh : forall c e,
            unverified
              (saveUserData store_ok
                 (mkUser (JStr "regular") JUndefined JUndefined c e)
                 (set_currentUser
                    (Some (mkUser (JStr "regular") JUndefined JUndefined
                             c e))
                    (snd (new_array [] (snd (new_array [] p))))))).
  { intros c e.
    apply unverified_saved, unverified_set_currentUser;
      try (now left).
    now apply unverified_new_array, unverified_new_array. }
  destruct readable; [|apply Hfresh].
  destruct (storage p) as [item|] eqn:Hst; [|apply Hfresh].
  pose proof (unverified_storage p H) as Hitem. rewrite Hst in Hitem.
  pose proof (unverified_parse_array (saved_categories item) p H) as H1.
  destruct (parse_array (saved_categories item) p) as [c p1].
  cbn [snd] in H1.
  pose proof (unverified_parse_array (saved_establishments item) p1 H1)
    as H2.
  destruct (parse_array (saved_establishments item) p1) as [e p2].
  cbn [snd] in H2. now apply unverified_set_currentUser.
Qed.

Lemma unverified_after (e : event) (p : page) :
  unverified p -> unverified (after e p).
Proof.
  intros H. destruct e as [rd ok| | | |rd ok|k ok x|k ok x|]; cbn [after].
  - now apply unverified_init.
  - apply unverified_set_currentUser; [now right|exact H].
  - apply unverified_build; [exact I|apply (unverified_storage p H)].
  - apply unverified_set_currentUser; [now left|exact H].
  - unfold updateBusinessProfile.
    pose proof (unverified_user p H) as Hu.
    destruct (currentUser p) as [u|];
      (destruct rd; [apply unverified_saved|];
       try apply unverified_set_currentUser; auto; now left).
  - unfold add_favourite. pose proof (unverified_user p H) as Hu.
    destruct (currentUser p) as [u|]; [|exact H].
    destruct (favourites_of k u) as [r|]; [|exact H].
    destruct (includes (array_at r p) x); [exact H|].
    cbn [settle]. now apply unverified_saved, unverified_pushed.
  - unfold remove_favourite. pose proof (unverified_user p H) as Hu.
    destruct (currentUser p) as [u|]; [|exact H].
    destruct (favourites_of k u) as [r|]; [|exact H].
    cbn [new_array settle].
    assert (Hu' : not_set (user_isVerified (with_favourites k
                     (Made (List.length (made p))) u))) by now destruct k.
    apply unverified_saved, unverified_set_currentUser; try exact Hu'.
    now apply unverified_arrays.
  - apply unverified_build; [exact I|apply (unverified_storage p H)].
Qed.

Lemma unverified_run (events : list event) :
  unverified (run events first_visit).
Proof.
  induction events as [|e events IH] using rev_ind.
  - split; discriminate.
  - rewrite run_snoc. now apply unverified_after.
Qed.

(** X18.  No function of the module marks a user as verified: whatever
    functions have run, over any number of visits that began with nothing
    stored, [isVerified] of the current user is not truthy, so the profile
    screen never shows a business as verified through the registry.  It
    shows the warning line (an identifier, not verified) or the line
    saying that no identifier was given, the latter for every business
    that was registered through the form. *)
Theorem profile_never_verified (events : list event) (u : user)
  (H : currentUser (run events first_visit) = Some u) :
  truthy (user_isVerified u) = false /\
  (inn_verification_line u = None \/
   inn_verification_line u = Some (TEXT_UNVERIFIED, "warning") \/
   inn_verification_line u = Some (TEXT_NO_INN, "error")) /\
  (forall p,
     option_map inn_verification_line (currentUser (registerBusiness p)) =
     Some (Some (TEXT_NO_INN, "error"))).
Proof.
  destruct (unverified_run events) as [Hu _]. specialize (Hu u H).
  assert (Hf : truthy (user_isVerified u) = false)
    by (destruct Hu as [-> | ->]; reflexivity).
  split; [exact Hf|]. split; [|reflexivity].
  unfold inn_verification_line. rewrite Hf.
  destruct (negb (strict_neq_str (user_type u) "business")); [|now left].
  right. destruct (truthy (user_inn u)); [now left|now right].
Qed.

Lemma profile_never_verified_witness :
  inn_verification_line mock_copy = Some (TEXT_UNVERIFIED, "warning").
Proof.
  destruct (profile_never_verified
              [RegisterBusiness; UpdateBusinessProfile true true; Reload;
               Init true true; LoginBusiness]
              mock_copy eq_refl) as (_ & [Hline|[Hline|Hline]] & _).
  - discriminate Hline.
  - exact Hline.
  - discriminate Hline.
Defined.

(** *** A user without the lists *)

Lemma no_list_throws (k : favourites) (ok : bool) (id : string) (q : page)
  (u : user) :
  currentUser q = Some u -> favourites_of k u = None ->
  throws (is_favourite k id q) /\ throws (add_favourite k ok id q) /\
  throws (remove_favourite k ok id q) /\ throws (get_favourites k q).
Proof.
  intros Hu Hk.
  unfold is_favourite, add_favourite, remove_favourite, get_favourites,
    no_method, cannot_read, throws.
  rewrite Hu, Hk. repeat split; eexists; reflexivity.
Qed.

(** X19.  A business registered through the form has neither list of
    favourites (the form data have no such member, and the literal adds
    none), and [updateBusinessProfile] keeps it that way; the same holds
    for the user that [updateBusinessProfile] makes when there is none.
    For such a user each of the eight functions on favourites throws a
    TypeError instead of answering. *)
Theorem registered_business_has_no_favourites (k : favourites) (ok : bool)
  (id : string) (p : page) (redraw_ok store_ok : bool) :
  let throwing q :=
    throws (is_favourite k id q) /\ throws (add_favourite k ok id q) /\
    throws (remove_favourite k ok id q) /\ throws (get_favourites k q) in
  throwing (registerBusiness p) /\
  throwing (updateBusinessProfile redraw_ok store_ok (registerBusiness p)) /\
  throwing (updateBusinessProfile redraw_ok store_ok (logoutBusiness p)).
Proof.
  intros throwing. subst throwing. cbv beta.
  split; [|split].
  - apply no_list_throws
      with (u := mkUser (JStr "business") JUndefined JUndefined None None);
      [reflexivity|now destruct k].
  - apply no_list_throws
      with (u := mkUser (JStr "business") JUndefined JUndefined None None);
      [|now destruct k].
    unfold updateBusinessProfile. destruct redraw_ok;
      [rewrite currentUser_saved|]; reflexivity.
  - apply no_list_throws
      with (u := mkUser JUndefined JUndefined JUndefined None None);
      [|now destruct k].
    unfold updateBusinessProfile. destruct redraw_ok;
      [rewrite currentUser_saved|]; reflexivity.
Qed.

(** *** What is stored comes back *)

(** X20.  What [saveUserData] stores, [init] restores on the next load of
    the page: the user has the type, identifier and verification mark
    that were stored (as JSON carries them) and the same two lists (or
    the same lack of them), and the lists are arrays of the user's own,
    no longer those of the mock profile. *)
Theorem saved_user_comes_back (p : page) (u : user) (store_ok : bool)
  (Hu : currentUser p = Some u) :
  let q := init true store_ok (after Reload (saveUserData true u p)) in
  (forall k, get_favourites k q = get_favourites k p) /\
  exists u',
    currentUser q = Some u' /\
    user_type u' = json_wire (user_type u) /\
    user_inn u' = json_wire (user_inn u) /\
    user_isVerified u' = json_wire (user_isVerified u) /\
    forall k, favourites_of k u' <> Some (mock_ref k).
Proof.
  intros q. subst q. unfold get_favourites. rewrite Hu.
  destruct u as [t i v [c|] [e|]];
    (split; [intros [|]; reflexivity|]);
    eexists; (split; [reflexivity|]); repeat split;
    intros [|]; discriminate.
Qed.

Lemma saved_user_comes_back_witness :
  let p := settle (loginBusiness first_visit)
             (addFavoriteCategory true "cafes" (loginBusiness first_visit)) in
  let q := init true true (after Reload (saveUserData true mock_copy p)) in
  getFavoriteCategories q = Ok ["cafes"] /\
  isFavoriteCategory "cafes" (loginBusiness q) = Ok (JBool false).
Proof.
  intros p q.
  destruct (saved_user_comes_back p mock_copy true eq_refl) as [Hsame _].
  fold q in Hsame. split; [|reflexivity].
  unfold getFavoriteCategories. now rewrite Hsame.
Defined.

End UsersProps.

(* ================================================================== *)
(** ** The start of the page *)
(* ================================================================== *)

Module StartupProps.
Import Startup.

(** X21.  The object that the closure of [UserSystem] returns has no
    member [init] (the function exists inside the closure only), so the
    second statement of the [DOMContentLoaded] listener throws: whatever
    the functions of the modules do, the listener enters
    [TelegramWebApp.init] at most and never completes; the map is not set
    up and [Navigation.setupEventListeners], which installs the listeners
    of the page (that of the verification button among them), is never
    called. *)
Theorem startup_stops_at_UserSystem_init
  (returns : string -> string -> bool) :
  existsb (String.eqb "init") UserSystem_members = false /\
  completed returns startup_calls = false /\
  entered returns startup_calls = [("TelegramWebApp", "init")] /\
  ~ In ("Navigation", "setupEventListeners") (entered returns startup_calls).
Proof.
  split; [reflexivity|].
  assert (He : entered returns startup_calls = [("TelegramWebApp", "init")]).
  { cbn. now destruct (returns "TelegramWebApp" "init"). }
  split; [|split; [exact He|]].
  - cbn. now destruct (returns "TelegramWebApp" "init").
  - rewrite He. intros [H|[]]. discriminate H.
Qed.

End StartupProps.
